(** * DroneFlow: the server-sent-event fan-out and the request routes

    A shallow embedding of [routes/events.js] (connection registry,
    heartbeat, stale-connection cleanup, broadcast) and of the mutating
    handlers of [routes/requests.js] (POST, PUT, DELETE), followed by the
    properties of the specification that these functions decide.

    Conventions of the embedding:
    - JavaScript objects that are mutated through several aliases (a
      client record, its response stream) live in a heap and are named by
      their address; the [Set] [sseClients] holds addresses, in insertion
      order, as a JavaScript [Set] does.
    - A handler runs to completion on the event loop, so [Date.now()] has
      one value during a handler; the clock is a field of the store and
      only the environment advances it.
    - Exceptions are explicit: a computation returns or throws, and the
      store it leaves behind is kept in both cases.
    - [console.log] and [console.error] have no effect on the store and
      are left out. *)

From Stdlib Require Import ZArith Lia Ascii String.
From stdpp Require Import base decidable option numbers list strings pretty gmap.

#[local] Set Warnings "-register-all,-clear-no-such-hyp".
Local Open Scope string_scope.
Local Open Scope list_scope.
Local Open Scope Z_scope.

(** ** JavaScript values, [JSON.stringify], [Date.prototype.toISOString] *)

Module Js.

(** The values that [express.json()] produces and [JSON.stringify]
    prints.  An object keeps its keys in insertion order.  Numbers are
    the integers; strings are sequences of bytes, so the length of a
    string is the JavaScript length for the characters below 128. *)
Inductive JSON : Type :=
| JNull
| JBool (b : bool)
| JNum (z : Z)
| JStr (s : string)
| JArr (items : list JSON)
| JObj (fields : list (string * JSON)).

Definition Obj : Type := list (string * JSON).

(** [o[k]]; [None] is [undefined]. *)
Fixpoint obj_get (k : string) (o : Obj) : option JSON :=
  match o with
  | [] => None
  | (k', v) :: o' => if String.eqb k k' then Some v else obj_get k o'
  end.

(** [o[k] = v]: an existing key keeps its place, a new key goes last. *)
Fixpoint obj_set (k : string) (v : JSON) (o : Obj) : Obj :=
  match o with
  | [] => [(k, v)]
  | (k', v') :: o' =>
      if String.eqb k k' then (k, v) :: o' else (k', v') :: obj_set k v o'
  end.

(** [delete o[k]]. *)
Fixpoint obj_delete (k : string) (o : Obj) : Obj :=
  match o with
  | [] => []
  | (k', v') :: o' =>
      if String.eqb k k' then obj_delete k o' else (k', v') :: obj_delete k o'
  end.

(** [{...a, ...b}]: the keys of [b] are assigned onto a copy of [a]. *)
Definition obj_spread (a b : Obj) : Obj :=
  fold_left (fun acc kv => obj_set (fst kv) (snd kv) acc) b a.

Definition LF : string := String "010"%char EmptyString.
Definition DQ : string := String "034"%char EmptyString.
Definition BS : string := String "092"%char EmptyString.

Definition hex_digit (n : N) : ascii :=
  if (n <? 10)%N then ascii_of_N (48 + n) else ascii_of_N (87 + n).

(** The escape [JSON.stringify] applies to one character of a string. *)
Definition escape_char (c : ascii) : string :=
  let n := N_of_ascii c in
  if (n =? 34)%N then BS +:+ DQ
  else if (n =? 92)%N then BS +:+ BS
  else if (n =? 8)%N then BS +:+ "b"
  else if (n =? 12)%N then BS +:+ "f"
  else if (n =? 10)%N then BS +:+ "n"
  else if (n =? 13)%N then BS +:+ "r"
  else if (n =? 9)%N then BS +:+ "t"
  else if (n <? 32)%N then
    BS +:+ "u00" +:+ String (hex_digit (n / 16)) (String (hex_digit (n mod 16)) EmptyString)
  else String c EmptyString.

Fixpoint escape (s : string) : string :=
  match s with
  | EmptyString => EmptyString
  | String c s' => escape_char c +:+ escape s'
  end.

Definition quote (s : string) : string := DQ +:+ escape s +:+ DQ.

Definition join_comma (parts : list string) : string :=
  match parts with
  | [] => EmptyString
  | p :: ps => fold_left (fun acc q => acc +:+ "," +:+ q) ps p
  end.

(** [JSON.stringify(v)] without indentation. *)
Fixpoint stringify (v : JSON) : string :=
  match v with
  | JNull => "null"
  | JBool true => "true"
  | JBool false => "false"
  | JNum z => pretty z
  | JStr s => quote s
  | JArr items => "[" +:+ join_comma (map stringify items) +:+ "]"
  | JObj fields =>
      "{" +:+ join_comma
                (map (fun kv => quote (fst kv) +:+ ":" +:+ stringify (snd kv)) fields)
          +:+ "}"
  end.

(** The last [w] decimal digits of [n], most significant first. *)
Fixpoint digits (w : nat) (n : Z) : string :=
  match w with
  | O => EmptyString
  | S w' => digits w' (n / 10) +:+ String (ascii_of_N (48 + Z.to_N (n mod 10))) EmptyString
  end.

(** Year, month and day of the proleptic Gregorian calendar for a day
    count from 1970-01-01. *)
Definition civil_from_days (days : Z) : Z * Z * Z :=
  let z := days + 719468 in
  let era := z / 146097 in
  let doe := z - era * 146097 in
  let yoe := (doe - doe / 1460 + doe / 36524 - doe / 146096) / 365 in
  let doy := doe - (365 * yoe + yoe / 4 - yoe / 100) in
  let mp := (5 * doy + 2) / 153 in
  let d := doy - (153 * mp + 2) / 5 + 1 in
  let m := if mp <? 10 then mp + 3 else mp - 9 in
  let y := yoe + era * 400 + (if m <=? 2 then 1 else 0) in
  (y, m, d).

Definition year_string (y : Z) : string :=
  if (0 <=? y) && (y <=? 9999) then digits 4 y
  else (if y <? 0 then "-" else "+") +:+ digits 6 (Z.abs y).

(** [new Date(t).toISOString()] for a time value [t] in milliseconds
    since the epoch, as [Date.now()] returns it. *)
Definition toISOString (t : Z) : string :=
  let '(y, m, d) := civil_from_days (t / 86400000) in
  let ms := t mod 86400000 in
  year_string y +:+ "-" +:+ digits 2 m +:+ "-" +:+ digits 2 d +:+ "T"
    +:+ digits 2 (ms / 3600000) +:+ ":" +:+ digits 2 (ms / 60000 mod 60) +:+ ":"
    +:+ digits 2 (ms / 1000 mod 60) +:+ "." +:+ digits 3 (ms mod 1000) +:+ "Z".

(** [s.includes(t)]. *)
Fixpoint includes (t s : string) : bool :=
  String.prefix t s ||
  match s with
  | EmptyString => false
  | String _ s' => includes t s'
  end.

(** Completion of a computation: it returns a value or throws. *)
Inductive Outcome (A : Type) : Type :=
| Returned (a : A)
| Thrown (e : string).
Arguments Returned {A} a.
Arguments Thrown {A} e.

(** A computation over a store of type [S].  The store survives a throw:
    what was assigned before the exception stays assigned. *)
Definition M (S A : Type) : Type := S -> Outcome A * S.

#[export] Instance m_ret {S : Type} : MRet (M S) := fun A a s => (Returned a, s).

#[export] Instance m_bind {S : Type} : MBind (M S) := fun A B f m s =>
  match m s with
  | (Returned a, s') => f a s'
  | (Thrown e, s') => (Thrown e, s')
  end.

Definition throw {S A : Type} (e : string) : M S A := fun s => (Thrown e, s).

(** [try { body } catch (error) { handler }]. *)
Definition try_catch {S A : Type} (body : M S A) (handler : string -> M S A) : M S A :=
  fun s =>
    match body s with
    | (Returned a, s') => (Returned a, s')
    | (Thrown e, s') => handler e s'
    end.

Definition gets {S A : Type} (f : S -> A) : M S A := fun s => (Returned (f s), s).
Definition modify {S : Type} (f : S -> S) : M S unit := fun s => (Returned tt, f s).

(** The store a computation leaves, and whether it returned. *)
Definition exec {S A : Type} (m : M S A) (s : S) : S := snd (m s).
Definition returns {S A : Type} (m : M S A) (s : S) : bool :=
  match fst (m s) with Returned _ => true | Thrown _ => false end.

End Js.


(** ** [routes/events.js]: the registry of subscriber connections *)

Module Events.
Import Js.

(** The [http.ServerResponse] of one subscriber, as far as this module
    uses it.  [sentHead] is the status and the headers given to
    [writeHead]; [written] holds the chunks that [write] accepted, oldest
    first; [ended] tells that [end()] was called.  [writeScript] and
    [endThrows] are the behaviour of the transport: the outcome of the
    coming calls of [write], [true] for a call that throws (once the
    script is used up every call succeeds), and whether [end()] throws. *)
Record Response : Type := mkResponse {
  destroyed : bool;
  sentHead : option (Z * list (string * string));
  written : list string;
  ended : bool;
  writeScript : list bool;
  endThrows : bool
}.

(** The client object built at admission: [{ id, response, lastPing }].
    [response] is the handler's [res]; it is assigned once and never
    replaced, so [client.response] is always an object. *)
Record Client : Type := mkClient {
  id : Z;
  response : Response;
  lastPing : Z
}.

(** The module state.  [heap] holds every client object ever created (a
    closure keeps its client after the set has dropped it), [sseClients]
    is the [Set], [intervals] the clients whose heartbeat timer is
    armed, [listeners] the clients whose request has its [close] and
    [error] handlers installed, [now] the reading of [Date.now()]. *)
Record Store : Type := mkStore {
  now : Z;
  heap : list Client;
  sseClients : list nat;
  intervals : list nat;
  listeners : list nat
}.

Abbreviation JsM := (M Store).

Definition empty_store (t : Z) : Store :=
  {| now := t; heap := []; sseClients := []; intervals := []; listeners := [] |}.

(** *** Primitive operations on the store *)

Definition set_heap (h : list Client) (s : Store) : Store :=
  {| now := now s; heap := h; sseClients := sseClients s;
     intervals := intervals s; listeners := listeners s |}.
Definition set_clients (l : list nat) (s : Store) : Store :=
  {| now := now s; heap := heap s; sseClients := l;
     intervals := intervals s; listeners := listeners s |}.
Definition set_intervals (l : list nat) (s : Store) : Store :=
  {| now := now s; heap := heap s; sseClients := sseClients s;
     intervals := l; listeners := listeners s |}.
Definition set_listeners (l : list nat) (s : Store) : Store :=
  {| now := now s; heap := heap s; sseClients := sseClients s;
     intervals := intervals s; listeners := l |}.
Definition set_now (t : Z) (s : Store) : Store :=
  {| now := t; heap := heap s; sseClients := sseClients s;
     intervals := intervals s; listeners := listeners s |}.

Definition with_response (r : Response) (c : Client) : Client :=
  {| id := id c; response := r; lastPing := lastPing c |}.
Definition with_lastPing (t : Z) (c : Client) : Client :=
  {| id := id c; response := response c; lastPing := t |}.

(** [Date.now()] and [new Date().toISOString()]. *)
Definition Date_now : JsM Z := gets now.
Definition Date_iso : JsM string := gets (fun s => toISOString (now s)).

(** Dereference of a client; an address that names nothing is the
    [TypeError] of a property access on [undefined]. *)
Definition deref (c : nat) : JsM Client := fun s =>
  match heap s !! c with
  | Some cl => (Returned cl, s)
  | None => (Thrown "TypeError", s)
  end.

Definition store_client (c : nat) (cl : Client) : JsM unit :=
  modify (fun s => set_heap (<[c := cl]> (heap s)) s).

(** The object literal of the admission handler. *)
Definition alloc (cl : Client) : JsM nat := fun s =>
  (Returned (length (heap s)), set_heap (heap s ++ [cl]) s).

(** One call of [write] on a response: the transport decides whether it
    throws; a chunk that is accepted is appended to [written]. *)
Definition response_write (chunk : string) (r : Response) : Outcome Response :=
  match writeScript r with
  | true :: _ =>
      Thrown "write failed"
  | false :: rest =>
      Returned {| destroyed := destroyed r; sentHead := sentHead r;
                  written := written r ++ [chunk];
                  ended := ended r; writeScript := rest; endThrows := endThrows r |}
  | [] =>
      Returned {| destroyed := destroyed r; sentHead := sentHead r;
                  written := written r ++ [chunk];
                  ended := ended r; writeScript := []; endThrows := endThrows r |}
  end.

(** The script moves on also when the call throws. *)
Definition response_skip (r : Response) : Response :=
  {| destroyed := destroyed r; sentHead := sentHead r; written := written r;
     ended := ended r; writeScript := tail (writeScript r); endThrows := endThrows r |}.

(** [end()] marks the stream as ended when it is called, as
    [writableEnded] does, also when the call then throws. *)
Definition response_ended (r : Response) : Response :=
  {| destroyed := destroyed r; sentHead := sentHead r; written := written r;
     ended := true; writeScript := writeScript r; endThrows := endThrows r |}.

Definition response_end (r : Response) : Outcome Response :=
  if endThrows r then Thrown "end failed" else Returned (response_ended r).

Definition response_writeHead (status : Z) (headers : list (string * string))
    (r : Response) : Response :=
  {| destroyed := destroyed r; sentHead := Some (status, headers); written := written r;
     ended := ended r; writeScript := writeScript r; endThrows := endThrows r |}.

(** [client.response.write(chunk)]. *)
Definition res_write (c : nat) (chunk : string) : JsM unit :=
  cl ← deref c;
  match response_write chunk (response cl) with
  | Returned r => store_client c (with_response r cl)
  | Thrown e => store_client c (with_response (response_skip (response cl)) cl) ;; throw e
  end.

(** [client.response.end()]. *)
Definition res_end (c : nat) : JsM unit :=
  cl ← deref c;
  store_client c (with_response (response_ended (response cl)) cl) ;;
  match response_end (response cl) with
  | Returned _ => mret tt
  | Thrown e => throw e
  end.

(** [client.response && !client.response.destroyed]. *)
Definition is_open (c : nat) : JsM bool :=
  cl ← deref c; mret (negb (destroyed (response cl))).

(** [sseClients.add], [sseClients.delete], [sseClients.has]. *)
Definition Set_add (c : nat) : JsM unit :=
  modify (fun s => if bool_decide (c ∈ sseClients s) then s
                   else set_clients (sseClients s ++ [c]) s).
Definition Set_delete (c : nat) : JsM unit :=
  modify (fun s => set_clients (filter (fun x => x ≠ c) (sseClients s)) s).

(** [setInterval] for the heartbeat of a client, and [clearInterval]. *)
Definition setInterval (c : nat) : JsM unit :=
  modify (fun s => set_intervals (intervals s ++ [c]) s).
Definition clearInterval (c : nat) : JsM unit :=
  modify (fun s => set_intervals (filter (fun x => x ≠ c) (intervals s)) s).

(** [req.on('close', ...)] and [req.on('error', ...)] for a client. *)
Definition req_on (c : nat) : JsM unit :=
  modify (fun s => set_listeners (listeners s ++ [c]) s).

(** [sseClients.forEach(callback)].  A JavaScript [Set] is iterated
    live: an entry deleted before its turn is not visited.  No callback
    of this module adds an entry during the iteration, so the entries to
    visit are those of the set when the iteration starts. *)
Fixpoint forEach_from (pending : list nat) (callback : nat -> JsM unit) : JsM unit :=
  match pending with
  | [] => mret tt
  | c :: rest =>
      present ← gets (fun s => bool_decide (c ∈ sseClients s));
      (if present : bool then callback c else mret tt) ;;
      forEach_from rest callback
  end.

Definition forEach (callback : nat -> JsM unit) : JsM unit :=
  snapshot ← gets sseClients; forEach_from snapshot callback.

(** *** The functions of the module *)

Definition sseHeaders : list (string * string) :=
  [("Content-Type", "text/event-stream");
   ("Cache-Control", "no-cache");
   ("Connection", "keep-alive");
   ("Access-Control-Allow-Origin", "*");
   ("Access-Control-Allow-Headers", "Cache-Control")].

(** The text of one [data:] message around a serialized object. *)
Definition data_line (v : JSON) : string :=
  "data: " +:+ stringify v +:+ LF +:+ LF.

Definition connected_message (iso : string) : JSON :=
  JObj [("type", JStr "connected");
        ("message", JStr "Real-time connection established");
        ("timestamp", JStr iso)].

Definition heartbeat_message (iso : string) : JSON :=
  JObj [("type", JStr "heartbeat"); ("timestamp", JStr iso)].

(** [{ type: eventType, data: data, timestamp: ... }]. *)
Definition event_message (eventType : string) (data : JSON) (iso : string) : JSON :=
  JObj [("type", JStr eventType); ("data", data); ("timestamp", JStr iso)].

(** [router.get('/', (req, res) => ...)]: the admission of a subscriber
    whose response is [res].  The result is the new client. *)
Definition connect (res : Response) : JsM nat :=
  let res := response_writeHead 200 sseHeaders res in
  t_id ← Date_now;
  t_ping ← Date_now;
  client ← alloc {| id := t_id; response := res; lastPing := t_ping |};
  Set_add client ;;
  iso ← Date_iso;
  res_write client (data_line (connected_message iso)) ;;
  setInterval client ;;
  req_on client ;;
  mret client.

(** The body of the [setInterval] callback of a client: one heartbeat. *)
Definition heartbeat (client : nat) : JsM unit :=
  try_catch
    (iso ← Date_iso;
     res_write client (data_line (heartbeat_message iso)) ;;
     t ← Date_now;
     cl ← deref client;
     store_client client (with_lastPing t cl))
    (fun _ => clearInterval client ;; Set_delete client).

(** The [close] and the [error] handler of the request of a client. *)
Definition on_close (client : nat) : JsM unit :=
  clearInterval client ;; Set_delete client.

Definition on_error (client : nat) : JsM unit :=
  clearInterval client ;; Set_delete client.

(** The two writes of one event to one client. *)
Definition write_event (client : nat) (eventType message : string) : JsM unit :=
  res_write client ("event: " +:+ eventType +:+ LF) ;;
  res_write client ("data: " +:+ message +:+ LF +:+ LF).

(** [broadcastToClients(eventType, data)]. *)
Definition broadcastToClients (eventType : string) (data : JSON) : JsM unit :=
  iso ← Date_iso;
  let message := stringify (event_message eventType data iso) in
  forEach (fun client =>
    try_catch
      (open ← is_open client;
       if open : bool then write_event client eventType message
       else Set_delete client)
      (fun _ => Set_delete client)).

(** [Array.from(sseClients).find(c => c.id === clientId)]. *)
Definition find_by_id (clientId : Z) (s : Store) : option nat :=
  List.find (fun c => match heap s !! c with
                      | Some cl => bool_decide (id cl = clientId)
                      | None => false
                      end) (sseClients s).

(** [sendToClient(clientId, eventType, data)]. *)
Definition sendToClient (clientId : Z) (eventType : string) (data : JSON) : JsM unit :=
  found ← gets (find_by_id clientId);
  match found with
  | Some client =>
      open ← is_open client;
      if open : bool then
        try_catch
          (iso ← Date_iso;
           write_event client eventType (stringify (event_message eventType data iso)))
          (fun _ => Set_delete client)
      else mret tt
  | None => mret tt
  end.

Record Stats : Type := mkStats {
  totalConnections : nat;
  activeConnections : nat;
  oldConnections : nat
}.

Definition client_open (s : Store) (c : nat) : bool :=
  match heap s !! c with
  | Some cl => negb (destroyed (response cl))
  | None => false
  end.

Definition client_older_than (limit : Z) (s : Store) (c : nat) : bool :=
  match heap s !! c with
  | Some cl => bool_decide (now s - lastPing cl > limit)
  | None => false
  end.

(** [getConnectionStats()]. *)
Definition getConnectionStats (s : Store) : Stats :=
  {| totalConnections := length (sseClients s);
     activeConnections := length (List.filter (client_open s) (sseClients s));
     oldConnections := length (List.filter (client_older_than 60000 s) (sseClients s)) |}.

Definition staleTimeout : Z := 5 * 60 * 1000.

(** [cleanupConnections()]. *)
Definition cleanupConnections : JsM unit :=
  t ← Date_now;
  forEach (fun client =>
    cl ← deref client;
    if bool_decide (t - lastPing cl > staleTimeout) then
      try_catch
        (open ← is_open client;
         if open : bool then res_end client else mret tt)
        (fun _ => mret tt) ;;
      Set_delete client
    else mret tt).

(** *** The module on the event loop *)

(** What can happen to the module: requests and timers of the program,
    and the two moves of the environment, the passing of time and the
    destruction of a socket. *)
Inductive Event : Type :=
| Connect (script : list bool) (end_throws : bool)
| HeartbeatFires (client : nat)
| CloseSignal (client : nat)
| ErrorSignal (client : nat)
| Broadcast (eventType : string) (data : JSON)
| SendTo (clientId : Z) (eventType : string) (data : JSON)
| CleanupFires
| Elapse (dt : N)
| SocketDestroyed (client : nat).

Definition fresh_response (script : list bool) (end_throws : bool) : Response :=
  {| destroyed := false; sentHead := None; written := []; ended := false;
     writeScript := script; endThrows := end_throws |}.

Definition destroy (c : nat) (s : Store) : Store :=
  match heap s !! c with
  | Some cl =>
      let r := response cl in
      set_heap (<[c := with_response
                         {| destroyed := true; sentHead := sentHead r; written := written r;
                            ended := ended r; writeScript := writeScript r;
                            endThrows := endThrows r |} cl]> (heap s)) s
  | None => s
  end.

Definition step (e : Event) (s : Store) : Store :=
  match e with
  | Connect script end_throws => exec (connect (fresh_response script end_throws)) s
  | HeartbeatFires c =>
      if bool_decide (c ∈ intervals s) then exec (heartbeat c) s else s
  | CloseSignal c =>
      if bool_decide (c ∈ listeners s) then exec (on_close c) s else s
  | ErrorSignal c =>
      if bool_decide (c ∈ listeners s) then exec (on_error c) s else s
  | Broadcast eventType data => exec (broadcastToClients eventType data) s
  | SendTo clientId eventType data => exec (sendToClient clientId eventType data) s
  | CleanupFires => exec cleanupConnections s
  | Elapse dt => set_now (now s + Z.of_N dt) s
  | SocketDestroyed c => destroy c s
  end.

Definition run (events : list Event) (s : Store) : Store :=
  fold_left (fun acc e => step e acc) events s.

(** The states of a server started at time [t0]. *)
Definition reachable (s : Store) : Prop :=
  exists t0 events, s = run events (empty_store t0).

End Events.

(** ** [routes/requests.js]: the handlers that change the data store *)

Module Requests.
Import Js.

(** *** More of the JavaScript runtime *)

(** [Boolean(v)] for a value that is present. *)
Definition truthy (v : JSON) : bool :=
  match v with
  | JNull => false
  | JBool b => b
  | JNum z => negb (z =? 0)
  | JStr s => negb (String.eqb s EmptyString)
  | JArr _ => true
  | JObj _ => true
  end.

(** [!v] for a value that may be [undefined]. *)
Definition falsy (v : option JSON) : bool :=
  match v with
  | None => true
  | Some v => negb (truthy v)
  end.

(** [String(v)], the coercion of template literals and of [RegExp.test]. *)
Fixpoint to_js_string (v : JSON) : string :=
  match v with
  | JNull => "null"
  | JBool true => "true"
  | JBool false => "false"
  | JNum z => pretty z
  | JStr s => s
  | JArr items =>
      join_comma (map (fun x => match x with JNull => EmptyString | _ => to_js_string x end) items)
  | JObj _ => "[object Object]"
  end.

Definition template (v : option JSON) : string :=
  match v with
  | None => "undefined"
  | Some v => to_js_string v
  end.

(** White space of [String.prototype.trim] and of the class [\s], on the
    characters below 128. *)
Definition is_space (c : ascii) : bool :=
  let n := N_of_ascii c in ((9 <=? n) && (n <=? 13))%N || (n =? 32)%N.

Fixpoint trim_start (s : string) : string :=
  match s with
  | String c s' => if is_space c then trim_start s' else s
  | EmptyString => EmptyString
  end.

Fixpoint trim_end (s : string) : string :=
  match s with
  | String c s' =>
      match trim_end s' with
      | EmptyString => if is_space c then EmptyString else String c EmptyString
      | t => String c t
      end
  | EmptyString => EmptyString
  end.

Definition trim (s : string) : string := trim_end (trim_start s).

(** [v.trim().length < n] for a truthy [v]: only a string has [trim]. *)
Definition trimmed_shorter (v : JSON) (n : nat) : Outcome bool :=
  match v with
  | JStr s => Returned (String.length (trim s) <? n)%nat
  | _ => Thrown "TypeError: trim is not a function"
  end.

Definition plain (c : ascii) : bool :=
  negb (is_space c) && negb (N_of_ascii c =? 64)%N.

Fixpoint all_plain (s : string) : bool :=
  match s with
  | EmptyString => true
  | String c s' => plain c && all_plain s'
  end.

(** Does [s] match [[^\s@]+\.[^\s@]+] as a whole: it has no white
    space and no [@], and a dot that is neither first nor last. *)
Fixpoint has_inner_dot (first : bool) (s : string) : bool :=
  match s with
  | EmptyString => false
  | String c s' =>
      (negb first && (N_of_ascii c =? 46)%N && negb (String.eqb s' EmptyString))
      || has_inner_dot false s'
  end.

Fixpoint split_at_sign (s : string) : option (string * string) :=
  match s with
  | EmptyString => None
  | String c s' =>
      if (N_of_ascii c =? 64)%N then Some (EmptyString, s')
      else match split_at_sign s' with
           | Some (l, r) => Some (String c l, r)
           | None => None
           end
  end.

(** [isValidEmail(email)]: the pattern is [^[^\s@]+@[^\s@]+\.[^\s@]+$]. *)
Definition isValidEmail (email : JSON) : bool :=
  match split_at_sign (to_js_string email) with
  | Some (l, r) =>
      negb (String.eqb l EmptyString) && all_plain l && all_plain r && has_inner_dot true r
  | None => false
  end.

Definition validTypes : list string :=
  ["aerial_photography"; "delivery"; "agriculture_spraying"; "surveillance";
   "inspection"; "mapping"; "other"].

Definition validTimes : list string := ["morning"; "afternoon"; "evening"].

(** [list.includes(v)] for a list of strings: strict equality. *)
Definition includes_value (l : list string) (v : JSON) : bool :=
  match v with
  | JStr s => existsb (String.eqb s) l
  | _ => false
  end.

Definition isValidServiceType (type : JSON) : bool := includes_value validTypes type.
Definition isValidTime (time : JSON) : bool := includes_value validTimes time.

Section Validation.

(** [Date.parse] of the runtime: the time value of a date string, [None]
    for an invalid date.  Its grammar outside the ISO format is left to
    the implementation by the language, so it is a parameter here. *)
Variable Date_parse : string -> option Z.

(** The time value of [new Date(v)] for a truthy [v]. *)
Definition Date_of (v : JSON) : option Z :=
  match v with
  | JNum z => if (Z.abs z <=? 8640000000000000) then Some z else None
  | JBool true => Some 1
  | _ => Date_parse (to_js_string v)
  end.

(** [isValidDate(date)] at time [t]: a valid date later than now. *)
Definition isValidDate (t : Z) (date : JSON) : bool :=
  match Date_of date with
  | Some d => t <? d
  | None => false
  end.

(** One check of the middleware: [!v || bad(v)] pushes [msg]. *)
Definition check (v : option JSON) (bad : JSON -> Outcome bool) (msg : string)
    (errors : list string) : Outcome (list string) :=
  match v with
  | None => Returned (errors ++ [msg])
  | Some x =>
      if truthy x then
        match bad x with
        | Returned true => Returned (errors ++ [msg])
        | Returned false => Returned errors
        | Thrown e => Thrown e
        end
      else Returned (errors ++ [msg])
  end.

Definition then_check (acc : Outcome (list string))
    (k : list string -> Outcome (list string)) : Outcome (list string) :=
  match acc with
  | Returned errors => k errors
  | Thrown e => Thrown e
  end.

(** The [errors] array of [validateRequest] for a body, at time [t]. *)
Definition validation_errors (t : Z) (body : Obj) : Outcome (list string) :=
  then_check (then_check (then_check (then_check (then_check (then_check (then_check
    (check (obj_get "clientName" body) (fun v => trimmed_shorter v 2)
       "Client name is required and must be at least 2 characters" [])
    (check (obj_get "email" body) (fun v => Returned (negb (isValidEmail v)))
       "Valid email address is required"))
    (check (obj_get "phone" body) (fun v => trimmed_shorter v 10)
       "Valid phone number is required"))
    (check (obj_get "serviceType" body) (fun v => Returned (negb (isValidServiceType v)))
       "Valid service type is required"))
    (check (obj_get "location" body) (fun v => trimmed_shorter v 10)
       "Detailed location is required"))
    (check (obj_get "preferredDate" body) (fun v => Returned (negb (isValidDate t v)))
       "Valid preferred date is required"))
    (check (obj_get "preferredTime" body) (fun v => Returned (negb (isValidTime v)))
       "Valid preferred time is required"))
    (check (obj_get "description" body) (fun v => trimmed_shorter v 20)
       "Detailed description is required (minimum 20 characters)").

End Validation.

(** *** The data store *)

(** An error object of the Supabase client. *)
Record PgError : Type := mkPgError {
  code : string;
  message : string
}.

(** What an awaited query resolves to: [{ data, error }], where [data]
    is a row, or [null] for a query without [select()]. *)
Inductive Reply : Type :=
| ReplyData (row : Obj)
| ReplyEmpty
| ReplyError (e : PgError).

(** The table [service_requests] behind the Supabase client.  The
    client and the service are not code of the repository; this is the
    table of [database/schema.sql] ([request_id] is [UNIQUE NOT NULL])
    with the replies of the three queries the handlers send.  [online]
    is [false] when the service cannot be reached. *)
Record Database : Type := mkDatabase {
  rows : list Obj;
  online : bool
}.

Definition row_id (row : Obj) : string := template (obj_get "request_id" row).

Definition unreachable : PgError :=
  {| code := "08006"; message := "connection failure" |}.
Definition unique_violation : PgError :=
  {| code := "23505"; message := "duplicate key value violates unique constraint" |}.
Definition no_single_row : PgError :=
  {| code := "PGRST116"; message := "JSON object requested, multiple (or no) rows returned" |}.

Fixpoint find_index {A : Type} (p : A -> bool) (l : list A) : option nat :=
  match l with
  | [] => None
  | x :: l' => if p x then Some O else option_map S (find_index p l')
  end.

(** [.insert([row]).select().single()]. *)
Definition pg_insert (row : Obj) (db : Database) : Reply * Database :=
  if negb (online db) then (ReplyError unreachable, db)
  else if existsb (fun r => String.eqb (row_id r) (row_id row)) (rows db)
  then (ReplyError unique_violation, db)
  else (ReplyData row, {| rows := rows db ++ [row]; online := online db |}).

(** [.update(values).eq('request_id', id).select().single()]. *)
Definition pg_update (values : Obj) (id : string) (db : Database) : Reply * Database :=
  if negb (online db) then (ReplyError unreachable, db)
  else match find_index (fun r => String.eqb (row_id r) id) (rows db) with
       | Some i =>
           match rows db !! i with
           | Some row =>
               let row' := obj_spread row values in
               (ReplyData row', {| rows := <[i := row']> (rows db); online := online db |})
           | None => (ReplyError no_single_row, db)
           end
       | None => (ReplyError no_single_row, db)
       end.

(** [.delete().eq('request_id', id)]: deleting no row is not an error. *)
Definition pg_delete (id : string) (db : Database) : Reply * Database :=
  if negb (online db) then (ReplyError unreachable, db)
  else (ReplyEmpty,
        {| rows := List.filter (fun r => negb (String.eqb (row_id r) id)) (rows db);
           online := online db |}).

(** *** The state of the router *)

(** [supabase] is [null] when the environment does not configure it,
    and then [mockRequests] is the store.  [sseEvents] is the state of
    the events module when [require('./events')] succeeded.  [calls]
    records the invocations of [broadcastToClients], oldest first. *)
Record World : Type := mkWorld {
  supabase : option Database;
  mockRequests : list Obj;
  sseEvents : option Events.Store;
  development : bool;
  clock : Z;
  calls : list (string * JSON)
}.

(** The initial value of [mockRequests]. *)
Definition mockRequests_initial : list Obj :=
  [ [("request_id", JStr "DR-2024-001234");
     ("clientName", JStr "John Smith");
     ("email", JStr "john.smith@email.com");
     ("phone", JStr "(555) 123-4567");
     ("serviceType", JStr "aerial_photography");
     ("location", JStr "123 Main Street, San Francisco, CA 94105");
     ("preferredDate", JStr "2024-01-15");
     ("preferredTime", JStr "morning");
     ("priority", JStr "high");
     ("budget", JStr "500_1000");
     ("description", JStr "Need aerial photography for real estate listing. Property is a 3-bedroom house with a large backyard. Looking for exterior shots and some interior aerial views if possible.");
     ("terms", JBool true);
     ("updates", JBool true);
     ("status", JStr "in_progress");
     ("created_at", JStr "2024-01-10T10:30:00.000Z");
     ("updated_at", JStr "2024-01-12T14:20:00.000Z");
     ("confirmed_at", JStr "2024-01-11T09:15:00.000Z");
     ("started_at", JStr "2024-01-12T14:20:00.000Z");
     ("estimated_completion", JStr "2024-01-16T18:00:00.000Z");
     ("operator_notes", JStr "Equipment prepared. Weather conditions are favorable for tomorrow morning shoot.")];
    [("request_id", JStr "DR-2024-001235");
     ("clientName", JStr "Sarah Johnson");
     ("email", JStr "sarah.j@company.com");
     ("phone", JStr "(555) 987-6543");
     ("serviceType", JStr "delivery");
     ("location", JStr "456 Oak Avenue, Los Angeles, CA 90210");
     ("preferredDate", JStr "2024-01-14");
     ("preferredTime", JStr "afternoon");
     ("priority", JStr "urgent");
     ("budget", JStr "under_500");
     ("description", JStr "Emergency medical supply delivery to remote location. Package is temperature sensitive and must arrive within 4 hours.");
     ("terms", JBool true);
     ("updates", JBool true);
     ("status", JStr "completed");
     ("created_at", JStr "2024-01-08T08:45:00.000Z");
     ("updated_at", JStr "2024-01-08T16:30:00.000Z");
     ("confirmed_at", JStr "2024-01-08T09:00:00.000Z");
     ("started_at", JStr "2024-01-08T12:15:00.000Z");
     ("completed_at", JStr "2024-01-08T16:30:00.000Z");
     ("estimated_completion", JStr "2024-01-08T16:45:00.000Z");
     ("operator_notes", JStr "Delivery completed successfully. Package delivered in perfect condition within the required timeframe.")];
    [("request_id", JStr "DR-2024-001236");
     ("clientName", JStr "Mike Chen");
     ("email", JStr "mike.chen@farm.org");
     ("phone", JStr "(555) 456-7890");
     ("serviceType", JStr "agriculture_spraying");
     ("location", JStr "Green Valley Farm, 789 Rural Road, Fresno, CA 93721");
     ("preferredDate", JStr "2024-01-20");
     ("preferredTime", JStr "morning");
     ("priority", JStr "normal");
     ("budget", JStr "2500_5000");
     ("description", JStr "Crop spraying for 50-acre corn field. Need pesticide application before the upcoming rain season. Field has some power lines on the eastern border.");
     ("terms", JBool true);
     ("updates", JBool false);
     ("status", JStr "pending");
     ("created_at", JStr "2024-01-09T16:20:00.000Z");
     ("updated_at", JStr "2024-01-09T16:20:00.000Z");
     ("estimated_completion", JStr "2024-01-22T17:00:00.000Z")] ].

(** The router when the module is loaded at time [t]. *)
Definition initial_world (sb : option Database) (events : option Events.Store)
    (dev : bool) (t : Z) : World :=
  {| supabase := sb; mockRequests := mockRequests_initial; sseEvents := events;
     development := dev; clock := t; calls := [] |}.

Record HttpResponse : Type := mkHttpResponse {
  status : Z;
  body : JSON
}.

Definition set_supabase (db : Database) (w : World) : World :=
  {| supabase := Some db; mockRequests := mockRequests w; sseEvents := sseEvents w;
     development := development w; clock := clock w; calls := calls w |}.
Definition set_mock (l : list Obj) (w : World) : World :=
  {| supabase := supabase w; mockRequests := l; sseEvents := sseEvents w;
     development := development w; clock := clock w; calls := calls w |}.

(** An awaited query: the reply, and the table after it. *)
Definition query (q : Database -> Reply * Database) (db : Database) : M World Reply :=
  fun w => let '(reply, db') := q db in (Returned reply, set_supabase db' w).

(** [if (sseEvents && sseEvents.broadcastToClients)
       sseEvents.broadcastToClients(eventType, data)]. *)
Definition broadcast_hook (eventType : string) (data : JSON) : M World unit :=
  fun w =>
    match sseEvents w with
    | Some st =>
        let '(o, st') :=
          Events.broadcastToClients eventType data (Events.set_now (clock w) st) in
        (o, {| supabase := supabase w; mockRequests := mockRequests w;
               sseEvents := Some st'; development := development w; clock := clock w;
               calls := calls w ++ [(eventType, data)] |})
    | None => (Returned tt, w)
    end.

Definition failure (success_message : string) (e : string) : M World HttpResponse :=
  dev ← gets development;
  mret {| status := 500;
          body := JObj [("success", JBool false);
                        ("message", JStr success_message);
                        ("error", JStr (if dev : bool then e else "Internal server error"))] |}.

Definition not_found : HttpResponse :=
  {| status := 404;
     body := JObj [("success", JBool false); ("message", JStr "Request not found")] |}.

(** [s.padStart(n, '0')]. *)
Definition padStart0 (n : nat) (s : string) : string :=
  String.concat EmptyString (replicate (n - String.length s) "0") +:+ s.

(** [generateRequestId()] at time [t] when [Math.random()] gives
    [rnd / 1000000]; the local time zone of the server is taken to be
    UTC. *)
Definition generateRequestId (t rnd : Z) : string :=
  let '(year, _, _) := civil_from_days (t / 86400000) in
  "DR-" +:+ pretty year +:+ "-" +:+ padStart0 6 (pretty rnd).

(** The payloads of the three events. *)
Definition created_event (record : Obj) : JSON :=
  JObj [("request", JObj record);
        ("message", JStr ("New service request: " +:+ template (obj_get "request_id" record)))].

Definition updated_event (record : Obj) : JSON :=
  JObj [("request", JObj record);
        ("message", JStr ("Request " +:+ template (obj_get "request_id" record)
                          +:+ " status updated to " +:+ template (obj_get "status" record)))].

Definition deleted_event (id : string) : JSON :=
  JObj [("request_id", JStr id);
        ("message", JStr ("Request " +:+ id +:+ " has been deleted"))].

(** The object [requestData] of the POST handler. *)
Definition requestData_of (t rnd : Z) (body : Obj) : Obj :=
  let request_id :=
    match obj_get "request_id" body with
    | Some v => if truthy v then v else JStr (generateRequestId t rnd)
    | None => JStr (generateRequestId t rnd)
    end in
  obj_set "updated_at" (JStr (toISOString t))
    (obj_set "created_at" (JStr (toISOString t))
       (obj_set "status" (JStr "pending")
          (obj_set "request_id" request_id body))).

(** The handler of [router.post('/')], after the middleware. *)
Definition post_handler (rnd : Z) (body : Obj) : M World HttpResponse :=
  try_catch
    (t ← gets clock;
     let requestData := requestData_of t rnd body in
     sb ← gets supabase;
     match sb with
     | Some db =>
         reply ← query (pg_insert requestData) db;
         loaded ← gets (fun w => bool_decide (is_Some (sseEvents w)));
         match reply with
         | ReplyError e => throw (message e)
         | ReplyData data =>
             broadcast_hook "request-created" (created_event data) ;;
             mret {| status := 201;
                     body := JObj [("success", JBool true);
                                   ("message", JStr "Service request created successfully");
                                   ("data", JObj data)] |}
         | ReplyEmpty =>
             if loaded : bool then throw "TypeError: data is null"
             else mret {| status := 201;
                          body := JObj [("success", JBool true);
                                        ("message", JStr "Service request created successfully");
                                        ("data", JNull)] |}
         end
     | None =>
         modify (fun w => set_mock (requestData :: mockRequests w) w) ;;
         broadcast_hook "request-created" (created_event requestData) ;;
         mret {| status := 201;
                 body := JObj [("success", JBool true);
                               ("message", JStr "Service request created successfully");
                               ("data", JObj requestData)] |}
     end)
    (failure "Failed to create request").

(** The error middleware of the router, which receives what a
    middleware throws. *)
Definition router_error (e : string) : M World HttpResponse :=
  dev ← gets development;
  mret {| status := 500;
          body := JObj ([("success", JBool false);
                         ("message", JStr "Internal server error in requests router")]
                        ++ (if dev : bool then [("error", JStr e)] else [])) |}.

(** [router.post('/', validateRequest, handler)]. *)
Definition router_post (Date_parse : string -> option Z) (rnd : Z) (body : Obj) : M World HttpResponse :=
  t ← gets clock;
  match validation_errors Date_parse t body with
  | Thrown e => router_error e
  | Returned [] => post_handler rnd body
  | Returned errors =>
      mret {| status := 400;
              body := JObj [("success", JBool false);
                            ("message", JStr "Validation failed");
                            ("errors", JArr (map JStr errors))] |}
  end.

(** The object [updateData] of the PUT handler: the body with
    [updated_at], without the two read-only fields. *)
Definition updateData_of (t : Z) (body : Obj) : Obj :=
  obj_delete "created_at"
    (obj_delete "request_id"
       (obj_set "updated_at" (JStr (toISOString t)) body)).

(** [req => req.request_id === id]. *)
Definition has_request_id (id : string) (req : Obj) : bool :=
  match obj_get "request_id" req with
  | Some (JStr s) => String.eqb s id
  | _ => false
  end.

Definition updated_ok (record : JSON) : HttpResponse :=
  {| status := 200;
     body := JObj [("success", JBool true);
                   ("message", JStr "Request updated successfully");
                   ("data", record)] |}.

Definition deleted_ok : HttpResponse :=
  {| status := 200;
     body := JObj [("success", JBool true);
                   ("message", JStr "Request deleted successfully")] |}.

(** [router.put('/:id')]. *)
Definition router_put (id : string) (body : Obj) : M World HttpResponse :=
  try_catch
    (t ← gets clock;
     let updateData := updateData_of t body in
     sb ← gets supabase;
     match sb with
     | Some db =>
         reply ← query (pg_update updateData id) db;
         loaded ← gets (fun w => bool_decide (is_Some (sseEvents w)));
         match reply with
         | ReplyError e =>
             if String.eqb (code e) "PGRST116" then mret not_found
             else throw (message e)
         | ReplyData data =>
             broadcast_hook "request-updated" (updated_event data) ;;
             mret (updated_ok (JObj data))
         | ReplyEmpty =>
             if loaded : bool then throw "TypeError: data is null"
             else mret (updated_ok JNull)
         end
     | None =>
         mock ← gets mockRequests;
         match find_index (has_request_id id) mock with
         | None => mret not_found
         | Some requestIndex =>
             match mock !! requestIndex with
             | Some old =>
                 let record := obj_spread old updateData in
                 modify (fun w => set_mock (<[requestIndex := record]> (mockRequests w)) w) ;;
                 broadcast_hook "request-updated" (updated_event record) ;;
                 mret (updated_ok (JObj record))
             | None => mret not_found
             end
         end
     end)
    (failure "Failed to update request").

(** [router.delete('/:id')]. *)
Definition router_delete (id : string) : M World HttpResponse :=
  try_catch
    (sb ← gets supabase;
     match sb with
     | Some db =>
         reply ← query (pg_delete id) db;
         match reply with
         | ReplyError e => throw (message e)
         | _ =>
             broadcast_hook "request-deleted" (deleted_event id) ;;
             mret deleted_ok
         end
     | None =>
         mock ← gets mockRequests;
         match find_index (has_request_id id) mock with
         | None => mret not_found
         | Some requestIndex =>
             modify (fun w => set_mock (take requestIndex (mockRequests w)
                                        ++ drop (S requestIndex) (mockRequests w)) w) ;;
             broadcast_hook "request-deleted" (deleted_event id) ;;
             mret deleted_ok
         end
     end)
    (failure "Failed to delete request").

(** *** The reading routes *)

(** [.select('*').eq('request_id', id).single()]. *)
Definition pg_select_single (id : string) (db : Database) : Reply * Database :=
  if negb (online db) then (ReplyError unreachable, db)
  else match List.find (fun r => String.eqb (row_id r) id) (rows db) with
       | Some row => (ReplyData row, db)
       | None => (ReplyError no_single_row, db)
       end.

(** What a query for several rows resolves to. *)
Inductive RowsReply : Type :=
| RowsData (data : list Obj)
| RowsError (e : PgError).

(** [.select('status')]: the column [status] of every row. *)
Definition pg_select_status (db : Database) : RowsReply :=
  if negb (online db) then RowsError unreachable
  else RowsData (map (fun r => match obj_get "status" r with
                               | Some v => [("status", v)]
                               | None => [("status", JNull)]
                               end) (rows db)).

Definition found_ok (record : JSON) : HttpResponse :=
  {| status := 200;
     body := JObj [("success", JBool true); ("data", record)] |}.

(** [router.get('/:id')]. *)
Definition router_get_id (id : string) : M World HttpResponse :=
  try_catch
    (sb ← gets supabase;
     match sb with
     | Some db =>
         reply ← query (pg_select_single id) db;
         match reply with
         | ReplyError e =>
             if String.eqb (code e) "PGRST116" then mret not_found
             else throw (message e)
         | ReplyData data => mret (found_ok (JObj data))
         | ReplyEmpty => mret (found_ok JNull)
         end
     | None =>
         mock ← gets mockRequests;
         match List.find (has_request_id id) mock with
         | Some request => mret (found_ok (JObj request))
         | None => mret not_found
         end
     end)
    (failure "Failed to fetch request").

(** [req => req.status === s]. *)
Definition status_is (s : string) (req : Obj) : bool :=
  match obj_get "status" req with
  | Some (JStr x) => String.eqb x s
  | _ => false
  end.

(** The object [stats] of [router.get('/stats')] for a list of records. *)
Definition stats_of (data : list Obj) : JSON :=
  JObj [("total", JNum (Z.of_nat (length data)));
        ("pending",
         JNum (Z.of_nat (length (List.filter
                 (fun req => status_is "pending" req || status_is "confirmed" req) data))));
        ("in_progress",
         JNum (Z.of_nat (length (List.filter (status_is "in_progress") data))));
        ("completed",
         JNum (Z.of_nat (length (List.filter (status_is "completed") data))))].

(** [router.get('/stats')].  The inner [try] answers from the Supabase
    rows and leaves the handler; when the client is not configured, or
    the query fails, the handler goes on to the mock records. *)
Definition router_get_stats : M World HttpResponse :=
  try_catch
    (answered ← try_catch
       (sb ← gets supabase;
        match sb with
        | Some db =>
            match pg_select_status db with
            | RowsError e => throw (message e)
            | RowsData data => mret (Some (found_ok (stats_of data)))
            end
        | None => mret None
        end)
       (fun _ => mret None);
     match answered with
     | Some reply => mret reply
     | None =>
         mock ← gets mockRequests;
         mret (found_ok (stats_of mock))
     end)
    (failure "Failed to fetch statistics").

(** [req.query] of [router.get('/')]: every parameter is a string or is
    missing.  Parameters that the query parser turns into arrays or
    objects (a name given twice, or with brackets) are not modelled. *)
Record Query : Type := mkQuery {
  q_status : option string;
  q_serviceType : option string;
  q_priority : option string;
  q_search : option string;
  q_limit : option string;
  q_offset : option string
}.

(** [s.toLowerCase()], on the characters below 128. *)
Definition lower_char (c : ascii) : ascii :=
  let n := N_of_ascii c in
  if ((65 <=? n) && (n <=? 90))%N then ascii_of_N (n + 32) else c.

Fixpoint toLowerCase (s : string) : string :=
  match s with
  | EmptyString => EmptyString
  | String c s' => String (lower_char c) (toLowerCase s')
  end.

(** The value of a digit of [parseInt] in a radix. *)
Definition digit_value (radix : Z) (c : ascii) : option Z :=
  let n := Z.of_N (N_of_ascii c) in
  let v := if (48 <=? n) && (n <=? 57) then Some (n - 48)
           else if (97 <=? n) && (n <=? 122) then Some (n - 87)
           else if (65 <=? n) && (n <=? 90) then Some (n - 55)
           else None in
  match v with
  | Some d => if d <? radix then Some d else None
  | None => None
  end.

(** The longest prefix of digits; [None] when there is no digit. *)
Fixpoint parse_digits (radix : Z) (acc : option Z) (s : string) : option Z :=
  match s with
  | EmptyString => acc
  | String c s' =>
      match digit_value radix c with
      | Some d => parse_digits radix (Some (radix * default 0 acc + d)) s'
      | None => acc
      end
  end.

(** [parseInt(s)]; [None] is [NaN].  Leading white space, a sign, the
    prefix [0x] for radix 16, then the longest prefix of digits.  The
    result is exact: the rounding of integers above 2^53 is left out. *)
Definition parseInt (s : string) : option Z :=
  let s1 := trim_start s in
  let '(negative, s2) :=
    match s1 with
    | String c s' =>
        if (N_of_ascii c =? 45)%N then (true, s')
        else if (N_of_ascii c =? 43)%N then (false, s')
        else (false, s1)
    | EmptyString => (false, s1)
    end in
  let '(radix, s3) :=
    match s2 with
    | String c (String x s') =>
        if (N_of_ascii c =? 48)%N && ((N_of_ascii x =? 120)%N || (N_of_ascii x =? 88)%N)
        then (16, s') else (10, s2)
    | _ => (10, s2)
    end in
  match parse_digits radix None s3 with
  | Some v => Some (if negative : bool then - v else v)
  | None => None
  end.

(** [parseInt(v)] for a parameter with a numeric default. *)
Definition parseInt_or (v : option string) (dflt : Z) : option Z :=
  match v with
  | Some s => parseInt s
  | None => Some dflt
  end.

(** [a + b] on numbers that may be [NaN]. *)
Definition nan_add (a b : option Z) : option Z :=
  match a, b with
  | Some x, Some y => Some (x + y)
  | _, _ => None
  end.

(** [l.slice(start, end)]: [NaN] counts as 0, a negative index counts
    from the end, and both are clamped to the length. *)
Definition js_slice {A : Type} (start stop : option Z) (l : list A) : list A :=
  let len := Z.of_nat (length l) in
  let clamp (k : option Z) : Z :=
    match k with
    | None => 0
    | Some k => if k <? 0 then Z.max (len + k) 0 else Z.min k len
    end in
  take (Z.to_nat (clamp stop - clamp start)) (drop (Z.to_nat (clamp start)) l).

(** [req => req[key] === value] for a string [value]. *)
Definition field_is (key value : string) (req : Obj) : bool :=
  match obj_get key req with
  | Some (JStr x) => String.eqb x value
  | _ => false
  end.

(** [if (value) list = list.filter(req => req[key] === value)]. *)
Definition filter_by (key : string) (value : option string) (l : list Obj) : list Obj :=
  match value with
  | Some v => if String.eqb v EmptyString then l else List.filter (field_is key v) l
  | None => l
  end.

(** [req[key].toLowerCase().includes(needle)]: only a string has
    [toLowerCase]. *)
Definition lower_includes (key needle : string) (req : Obj) : Outcome bool :=
  match obj_get key req with
  | Some (JStr x) => Returned (includes needle (toLowerCase x))
  | _ => Thrown "TypeError: toLowerCase is not a function"
  end.

(** The callback of the search filter, with the short circuit of [||]. *)
Definition search_hit (needle : string) (req : Obj) : Outcome bool :=
  match lower_includes "request_id" needle req with
  | Thrown e => Thrown e
  | Returned true => Returned true
  | Returned false =>
      match lower_includes "clientName" needle req with
      | Thrown e => Thrown e
      | Returned true => Returned true
      | Returned false => lower_includes "location" needle req
      end
  end.

(** [l.filter(callback)] for a callback that may throw. *)
Fixpoint filter_throwing {A : Type} (callback : A -> Outcome bool) (l : list A)
    : Outcome (list A) :=
  match l with
  | [] => Returned []
  | x :: l' =>
      match callback x with
      | Thrown e => Thrown e
      | Returned keep =>
          match filter_throwing callback l' with
          | Thrown e => Thrown e
          | Returned rest => Returned (if keep : bool then x :: rest else rest)
          end
      end
  end.

Definition filter_search (search : option string) (l : list Obj) : Outcome (list Obj) :=
  match search with
  | Some v =>
      if String.eqb v EmptyString then Returned l
      else filter_throwing (search_hit (toLowerCase v)) l
  | None => Returned l
  end.

(** A number of a response body: [NaN] is printed as [null]. *)
Definition json_number (n : option Z) : JSON :=
  match n with
  | Some z => JNum z
  | None => JNull
  end.

(** The records that pass the four filters of [router.get('/')]. *)
Definition filteredRequests_of (q : Query) (mock : list Obj) : Outcome (list Obj) :=
  filter_search (q_search q)
    (filter_by "priority" (q_priority q)
       (filter_by "serviceType" (q_serviceType q)
          (filter_by "status" (q_status q) mock))).

(** The page of [router.get('/')]. *)
Definition paginatedRequests_of (q : Query) (filteredRequests : list Obj) : list Obj :=
  let startIndex := parseInt_or (q_offset q) 0 in
  let endIndex := nan_add startIndex (parseInt_or (q_limit q) 50) in
  js_slice startIndex endIndex filteredRequests.

(** [router.get('/')]: it reads the mock records, whether the Supabase
    client is configured or not. *)
Definition router_get_list (q : Query) : M World HttpResponse :=
  try_catch
    (mock ← gets mockRequests;
     match filteredRequests_of q mock with
     | Thrown e => throw e
     | Returned filteredRequests =>
         mret {| status := 200;
                 body := JObj [("success", JBool true);
                               ("data", JArr (map JObj (paginatedRequests_of q filteredRequests)));
                               ("pagination",
                                JObj [("limit", json_number (parseInt_or (q_limit q) 50));
                                      ("offset", json_number (parseInt_or (q_offset q) 0));
                                      ("total", JNum (Z.of_nat (length filteredRequests)))])] |}
     end)
    (failure "Failed to fetch requests").

End Requests.

(** ** [server.js]: the rate limit *)

Module Server.
Import Js.

(** The value of an entry of [requestCounts]. *)
Record ClientData : Type := mkClientData {
  count : Z;
  resetTime : Z
}.

Definition RATE_LIMIT_WINDOW : Z := 15 * 60 * 1000.
Definition MAX_REQUESTS : Z := 100.

(** What the middleware does with the request: it calls [next()], or
    it answers 429 with [retryAfter]. *)
Inductive Verdict : Type :=
| Next
| TooMany (retryAfter : Z).

(** [Math.ceil(n / 1000)] for an integer [n]. *)
Definition ceil_seconds (n : Z) : Z := - ((- n) / 1000).

(** The rate-limit middleware for a request of the address [clientId]
    at time [now], on the map [requestCounts]. *)
Definition rateLimit (clientId : string) (now : Z) (requestCounts : gmap string ClientData)
    : Verdict * gmap string ClientData :=
  match requestCounts !! clientId with
  | None =>
      (Next, <[clientId := {| count := 1; resetTime := now + RATE_LIMIT_WINDOW |}]> requestCounts)
  | Some clientData =>
      let clientData' :=
        if resetTime clientData <? now
        then {| count := 1; resetTime := now + RATE_LIMIT_WINDOW |}
        else {| count := count clientData + 1; resetTime := resetTime clientData |} in
      let requestCounts' := <[clientId := clientData']> requestCounts in
      if MAX_REQUESTS <? count clientData'
      then (TooMany (ceil_seconds (resetTime clientData' - now)), requestCounts')
      else (Next, requestCounts')
  end.

(** The answer of the middleware when it does not call [next()]. *)
Definition too_many_response (retryAfter : Z) : Requests.HttpResponse :=
  {| Requests.status := 429;
     Requests.body :=
       JObj [("success", JBool false);
             ("message", JStr "Too many requests. Please try again later.");
             ("retryAfter", JNum retryAfter)] |}.

(** The requests of one address at the times [times], in order: the
    verdicts, and the map after the last one. *)
Fixpoint serve (clientId : string) (times : list Z) (requestCounts : gmap string ClientData)
    : list Verdict * gmap string ClientData :=
  match times with
  | [] => ([], requestCounts)
  | t :: times' =>
      let '(v, rc) := rateLimit clientId t requestCounts in
      let '(vs, rc') := serve clientId times' rc in
      (v :: vs, rc')
  end.

(** The requests of a list of addresses and times, in order: the
    verdicts, and the map after the last one. *)
Fixpoint serve_all (requests : list (string * Z)) (requestCounts : gmap string ClientData)
    : list Verdict * gmap string ClientData :=
  match requests with
  | [] => ([], requestCounts)
  | (clientId, t) :: requests' =>
      let '(v, rc) := rateLimit clientId t requestCounts in
      let '(vs, rc') := serve_all requests' rc in
      (v :: vs, rc')
  end.

End Server.

(** * The vocabulary of the properties *)

Import Js Events Requests.

(** ** Visits of [forEach] *)

(** What a callback does to the client it visits is given by a function
    [f]: the client after the visit, and whether it stays in the set. *)
Definition apply_local (f : Client -> Client * bool) (c : nat) (s : Store) : Store :=
  match heap s !! c with
  | Some cl =>
      let s1 := set_heap (<[c := fst (f cl)]> (heap s)) s in
      if snd (f cl) then s1
      else set_clients (filter (fun x => x ≠ c) (sseClients s1)) s1
  | None => s
  end.

Definition run_local (f : Client -> Client * bool) (pending : list nat) (s : Store)
    : Store :=
  fold_left
    (fun acc c => if bool_decide (c ∈ sseClients acc) then apply_local f c acc else acc)
    pending s.

(** What [broadcastToClients] does to one client. *)
Definition broadcast_client (eventType message : string) (cl : Client) : Client * bool :=
  if destroyed (response cl) then (cl, false)
  else match response_write ("event: " +:+ eventType +:+ LF) (response cl) with
       | Thrown _ => (with_response (response_skip (response cl)) cl, false)
       | Returned r1 =>
           match response_write ("data: " +:+ message +:+ LF +:+ LF) r1 with
           | Thrown _ => (with_response (response_skip r1) cl, false)
           | Returned r2 => (with_response r2 cl, true)
           end
       end.

(** What [cleanupConnections] does to one client at time [t]. *)
Definition cleanup_client (t : Z) (cl : Client) : Client * bool :=
  if bool_decide (t - lastPing cl > staleTimeout) then
    (if destroyed (response cl) then cl
     else with_response (response_ended (response cl)) cl, false)
  else (cl, true).

(** ** Stores *)

(** The set has no duplicate, and every client in it is an object. *)
Definition wf (s : Store) : Prop :=
  NoDup (sseClients s) /\
  (forall c, c ∈ sseClients s -> (c < length (heap s))%nat).

(** Every handler but the admission keeps the heap as long as it is,
    keeps the clock, never adds to the set, and leaves to a client its
    [id]; a [lastPing] stays or becomes the time of the clock. *)
Definition evolves (s s' : Store) : Prop :=
  now s' = now s /\
  length (heap s') = length (heap s) /\
  (forall c, c ∈ sseClients s' -> c ∈ sseClients s) /\
  (NoDup (sseClients s) -> NoDup (sseClients s')) /\
  (forall c cl', heap s' !! c = Some cl' ->
     exists cl, heap s !! c = Some cl /\ id cl' = id cl /\
                (lastPing cl' = lastPing cl \/ lastPing cl' = now s)).

Definition pings_in_past (s : Store) : Prop :=
  forall c cl, heap s !! c = Some cl -> lastPing cl <= now s.

Definition inv (s : Store) : Prop := wf s /\ pings_in_past s.

(** ** Responses *)

(** The transport accepts the next [n] chunks. *)
Definition accepts (n : nat) (script : list bool) : bool :=
  forallb negb (take n script).

(** The chunk of one heartbeat at time [t]. *)
Definition heartbeat_chunk (t : Z) : string :=
  data_line (heartbeat_message (toISOString t)).

(** The two chunks of one event. *)
Definition event_line (eventType : string) : string := "event: " +:+ eventType +:+ LF.
Definition event_data_line (message : string) : string := "data: " +:+ message +:+ LF +:+ LF.

(** A call of [write] on a response leaves a trace: a chunk more, or a
    script that has moved on.  A response that is the same after a
    handler as before was not written to. *)
Definition write_attempted (s s' : Store) (c : nat) : Prop :=
  (response <$> heap s' !! c) ≠ (response <$> heap s !! c).

(** A store after one admission and the destruction of the socket. *)
Definition one_destroyed_client : Store :=
  run [Connect [] false; SocketDestroyed 0%nat] (empty_store 1700000000000).

(** ** The ISO-8601 shape *)

Definition is_digit (c : ascii) : bool :=
  let n := N_of_ascii c in ((48 <=? n) && (n <=? 57))%N.

(** A pattern is a list of positions, [None] for a digit and [Some a]
    for the character [a]. *)
Fixpoint matches (pattern : list (option ascii)) (s : string) : bool :=
  match pattern, s with
  | [], EmptyString => true
  | None :: p, String c s' => is_digit c && matches p s'
  | Some a :: p, String c s' => Ascii.eqb a c && matches p s'
  | _, _ => false
  end.

Definition of_text (s : string) : list (option ascii) :=
  map Some (list_ascii_of_string s).

Definition date_time_pattern : list (option ascii) :=
  of_text "-" ++ replicate 2 None ++ of_text "-" ++ replicate 2 None ++ of_text "T"
  ++ replicate 2 None ++ of_text ":" ++ replicate 2 None ++ of_text ":"
  ++ replicate 2 None ++ of_text "." ++ replicate 3 None ++ of_text "Z".

(** The shape of the strings of [toISOString]: [YYYY-MM-DDTHH:mm:ss.sssZ],
    with a year of four digits, or of six digits after a sign. *)
Definition iso8601 (s : string) : bool :=
  matches (replicate 4 None ++ date_time_pattern) s
  || matches (of_text "+" ++ replicate 6 None ++ date_time_pattern) s
  || matches (of_text "-" ++ replicate 6 None ++ date_time_pattern) s.

(** ** The router *)

(** The day count from 1970-01-01 of a date of the Gregorian calendar. *)
Definition days_from_civil (y m d : Z) : Z :=
  let y' := if m <=? 2 then y - 1 else y in
  let era := y' / 400 in
  let yoe := y' - era * 400 in
  let doy := (153 * (if 2 <? m then m - 3 else m + 9) + 2) / 5 + d - 1 in
  let doe := yoe * 365 + yoe / 4 - yoe / 100 + doy in
  era * 146097 + doe - 719468.

Fixpoint number_of (acc : Z) (s : string) : option Z :=
  match s with
  | EmptyString => Some acc
  | String c s' =>
      if is_digit c then number_of (10 * acc + Z.of_N (N_of_ascii c - 48)) s' else None
  end.

(** An instance of [Date.parse]: the date-only form [YYYY-MM-DD], which
    is midnight UTC of that day; every other string is an invalid date
    for it. *)
Definition parse_date_only (s : string) : option Z :=
  if (String.length s =? 10)%nat
     && String.eqb (String.substring 4 1 s) "-" && String.eqb (String.substring 7 1 s) "-"
  then
    match number_of 0 (String.substring 0 4 s), number_of 0 (String.substring 5 2 s),
          number_of 0 (String.substring 8 2 s) with
    | Some y, Some m, Some d =>
        if (1 <=? m) && (m <=? 12) && (1 <=? d) && (d <=? 31)
        then Some (days_from_civil y m d * 86400000) else None
    | _, _, _ => None
    end
  else None.

(** The records of the store in use. *)
Definition stored (w : World) : list Obj :=
  match supabase w with
  | Some db => rows db
  | None => mockRequests w
  end.

(** The record that [router.put('/:id')] updates, if any. *)
Definition put_target (id : string) (w : World) : option nat :=
  match supabase w with
  | Some db =>
      if online db then find_index (fun r => String.eqb (row_id r) id) (rows db) else None
  | None => find_index (has_request_id id) (mockRequests w)
  end.

(** The call that the hook makes, when the events module is loaded. *)
Definition hook_calls (w : World) (eventType : string) (data : JSON)
    : list (string * JSON) :=
  if bool_decide (is_Some (sseEvents w)) then [(eventType, data)] else [].

(** ** Fields of a request body *)



(** ** The mock store *)

(** The state of the events module, when it is loaded, is well formed. *)
Definition events_ok (w : World) : Prop :=
  forall st, sseEvents w = Some st -> wf st.

(** The keys that [router.post] sets itself. *)
Definition post_keys : list string := ["request_id"; "status"; "created_at"; "updated_at"].

(** ** The rate limit *)

(** The verdict for the request number [k] (from 0) of a window that
    ends at [resetTime], when [n] requests were counted before. *)
Definition verdict_at (n resetTime : Z) (k : nat) (t : Z) : Server.Verdict :=
  if Server.MAX_REQUESTS <? n + Z.of_nat k + 1
  then Server.TooMany (Server.ceil_seconds (resetTime - t))
  else Server.Next.

(** The entries of the map were made at or before time [t]: a window
    ends at most fifteen minutes after [t], and a count is positive. *)
Definition counts_ok (t : Z) (requestCounts : gmap string Server.ClientData) : Prop :=
  forall clientId clientData, requestCounts !! clientId = Some clientData ->
    Server.resetTime clientData <= t + Server.RATE_LIMIT_WINDOW /\
    1 <= Server.count clientData.

(** The elements of [xs] at the positions of the requests of [clientId]. *)
Fixpoint of_address {X : Type} (clientId : string) (requests : list (string * Z))
    (xs : list X) : list X :=
  match requests, xs with
  | (a, _) :: requests', x :: xs' =>
      if bool_decide (a = clientId) then x :: of_address clientId requests' xs'
      else of_address clientId requests' xs'
  | _, _ => []
  end.

(** ** The identifiers of the requests *)

(** The shape [DR-YYYY-NNNNNN]. *)
Definition request_id_pattern : list (option ascii) :=
  of_text "DR-" ++ replicate 4 None ++ of_text "-" ++ replicate 6 None.

(** [k] zeros, as [padStart] writes them. *)
Definition zeros (k : nat) : string := String.concat EmptyString (replicate k "0").

(** ** Timers and the order of the admissions *)

(** Every armed timer and every installed handler belongs to a client
    object, and a timer is armed only for a client with handlers. *)
Definition timers_known (s : Store) : Prop :=
  (forall c, c ∈ intervals s -> (c < length (heap s))%nat) /\
  (forall c, c ∈ listeners s -> (c < length (heap s))%nat) /\
  (forall c, c ∈ intervals s -> c ∈ listeners s).

(** The [id] of a client is not after its [lastPing], and the clients
    carry, in the order of their admission, [id]s that do not decrease. *)
Definition ids_ordered (s : Store) : Prop :=
  (forall c cl, heap s !! c = Some cl -> id cl <= lastPing cl) /\
  (forall i j ci cj, (i <= j)%nat -> heap s !! i = Some ci -> heap s !! j = Some cj ->
     id ci <= id cj).

(** No handler but the admission arms a timer or installs a handler. *)
Definition timers_evolve (s s' : Store) : Prop :=
  (forall c, c ∈ intervals s' -> c ∈ intervals s) /\ listeners s' = listeners s.

(** * Properties *)

(** ** The effect of one visit of [forEach] on one client *)

Section Visits.

Variable f : Client -> Client * bool.

Lemma apply_local_frame c s :
  now (apply_local f c s) = now s /\
  intervals (apply_local f c s) = intervals s /\
  listeners (apply_local f c s) = listeners s /\
  length (heap (apply_local f c s)) = length (heap s).
Proof.
  unfold apply_local. destruct (heap s !! c) as [cl|]; [|done].
  destruct (snd (f cl)); simpl; rewrite length_insert; done.
Qed.

Lemma apply_local_other c c' s :
  c' ≠ c ->
  heap (apply_local f c s) !! c' = heap s !! c' /\
  (c' ∈ sseClients (apply_local f c s) <-> c' ∈ sseClients s).
Proof.
  intros Hne. unfold apply_local. destruct (heap s !! c) as [cl|]; [|done].
  destruct (snd (f cl)); simpl.
  - split; [by apply list_lookup_insert_ne | done].
  - split; [by apply list_lookup_insert_ne |].
    rewrite list_elem_of_filter. naive_solver.
Qed.

Lemma apply_local_self c s cl :
  heap s !! c = Some cl ->
  heap (apply_local f c s) !! c = Some (fst (f cl)) /\
  (c ∈ sseClients (apply_local f c s) <-> c ∈ sseClients s /\ snd (f cl) = true).
Proof.
  intros Hc. unfold apply_local. rewrite Hc.
  assert (Hlt : (c < length (heap s))%nat) by (eapply lookup_lt_Some; eauto).
  destruct (snd (f cl)); simpl.
  - split; [by apply list_lookup_insert_eq | naive_solver].
  - split; [by apply list_lookup_insert_eq |].
    rewrite list_elem_of_filter. naive_solver.
Qed.

Lemma apply_local_subset c c' s :
  c' ∈ sseClients (apply_local f c s) -> c' ∈ sseClients s.
Proof.
  unfold apply_local. destruct (heap s !! c) as [cl|]; [|done].
  destruct (snd (f cl)); simpl; [done|].
  rewrite list_elem_of_filter. naive_solver.
Qed.

Lemma apply_local_NoDup c s :
  NoDup (sseClients s) -> NoDup (sseClients (apply_local f c s)).
Proof.
  unfold apply_local. destruct (heap s !! c) as [cl|]; [|done].
  destruct (snd (f cl)); simpl; [done|]. apply NoDup_filter.
Qed.

Lemma run_local_frame pending s :
  now (run_local f pending s) = now s /\
  intervals (run_local f pending s) = intervals s /\
  listeners (run_local f pending s) = listeners s /\
  length (heap (run_local f pending s)) = length (heap s).
Proof.
  revert s. induction pending as [|c pending IH]; intros s; [done|].
  unfold run_local in *. simpl. case_bool_decide.
  - destruct (IH (apply_local f c s)) as (-> & -> & -> & ->). apply apply_local_frame.
  - apply IH.
Qed.

Lemma run_local_subset pending s c :
  c ∈ sseClients (run_local f pending s) -> c ∈ sseClients s.
Proof.
  revert s. induction pending as [|c0 pending IH]; intros s; [done|].
  unfold run_local in *. simpl. case_bool_decide.
  - intros H1. eapply apply_local_subset, IH, H1.
  - apply IH.
Qed.

Lemma run_local_NoDup pending s :
  NoDup (sseClients s) -> NoDup (sseClients (run_local f pending s)).
Proof.
  revert s. induction pending as [|c0 pending IH]; intros s Hs; [done|].
  unfold run_local in *. simpl. case_bool_decide.
  - by apply IH, apply_local_NoDup.
  - by apply IH.
Qed.

Lemma run_local_other pending s c :
  c ∉ pending ->
  heap (run_local f pending s) !! c = heap s !! c /\
  (c ∈ sseClients (run_local f pending s) <-> c ∈ sseClients s).
Proof.
  revert s. induction pending as [|c0 pending IH]; intros s Hc; [done|].
  apply not_elem_of_cons in Hc as [Hne Hc].
  unfold run_local in *. simpl. case_bool_decide.
  - destruct (IH (apply_local f c0 s) Hc) as [-> ->]. by apply apply_local_other.
  - by apply IH.
Qed.

(** A client that is in the set when its turn comes is visited once. *)
Lemma run_local_visited pending s c cl :
  NoDup pending -> c ∈ pending -> c ∈ sseClients s -> heap s !! c = Some cl ->
  heap (run_local f pending s) !! c = Some (fst (f cl)) /\
  (c ∈ sseClients (run_local f pending s) <-> snd (f cl) = true).
Proof.
  revert s. induction pending as [|c0 pending IH]; intros s Hnd Hin Hreg Hcl.
  { by apply elem_of_nil in Hin. }
  apply NoDup_cons in Hnd as [Hfresh Hnd].
  unfold run_local in *. simpl.
  destruct (decide (c = c0)) as [->|Hne].
  - rewrite bool_decide_eq_true_2 by done.
    destruct (run_local_other pending (apply_local f c0 s) c0 Hfresh) as [Hh Hm].
    unfold run_local in Hh, Hm. rewrite Hh, Hm.
    destruct (apply_local_self c0 s cl Hcl) as [-> ->]. naive_solver.
  - apply elem_of_cons in Hin as [?|Hin]; [done|].
    case_bool_decide.
    + destruct (apply_local_other c0 c s Hne) as [Hh Hm].
      apply IH; [done|done|by apply Hm|by rewrite Hh].
    + by apply IH.
Qed.

(** [forEach] with a callback that always returns and acts as [f] on
    the client it visits. *)
Lemma forEach_from_local (callback : nat -> JsM unit) pending s :
  (forall c st cl, heap st !! c = Some cl ->
     callback c st = (Returned tt, apply_local f c st)) ->
  (forall c, c ∈ pending -> (c < length (heap s))%nat) ->
  forEach_from pending callback s = (Returned tt, run_local f pending s).
Proof.
  intros Hcb. revert s. induction pending as [|c pending IH]; intros s Hvalid; [done|].
  simpl. unfold mbind, m_bind, gets. simpl.
  assert (Hc : (c < length (heap s))%nat) by (apply Hvalid; left).
  destruct (lookup_lt_is_Some_2 _ _ Hc) as [cl Hcl].
  unfold run_local. simpl. case_bool_decide.
  - rewrite (Hcb c s cl Hcl). apply IH. intros c' Hc'.
    destruct (apply_local_frame c s) as (_ & _ & _ & ->). apply Hvalid. by right.
  - unfold mret, m_ret. apply IH. intros c' Hc'. apply Hvalid. by right.
Qed.

End Visits.

(** ** The callbacks of [broadcastToClients] and [cleanupConnections] *)

Lemma set_heap_id s : set_heap (heap s) s = s.
Proof. by destruct s. Qed.

Lemma insert_same c cl s :
  heap s !! c = Some cl -> set_heap (<[c := cl]> (heap s)) s = s.
Proof. intros H. rewrite list_insert_id by done. apply set_heap_id. Qed.

Lemma insert_twice c (x y : Client) (h : list Client) :
  <[c := y]> (<[c := x]> h) = <[c := y]> h.
Proof. apply list_insert_insert_eq. Qed.

Lemma bind_eq {S A B : Type} (m : M S A) (k : A -> M S B) (s : S) :
  (m ≫= k) s = match m s with
               | (Returned a, s') => k a s'
               | (Thrown e, s') => (Thrown e, s')
               end.
Proof. reflexivity. Qed.

Lemma deref_eq c s cl : heap s !! c = Some cl -> deref c s = (Returned cl, s).
Proof. intros H. unfold deref. by rewrite H. Qed.

Lemma is_open_eq c s cl :
  heap s !! c = Some cl -> is_open c s = (Returned (negb (destroyed (response cl))), s).
Proof. intros H. unfold is_open. rewrite bind_eq, (deref_eq _ _ _ H). done. Qed.

Lemma res_write_eq c chunk s cl :
  heap s !! c = Some cl ->
  res_write c chunk s =
  match response_write chunk (response cl) with
  | Returned r => (Returned tt, set_heap (<[c := with_response r cl]> (heap s)) s)
  | Thrown e =>
      (Thrown e, set_heap (<[c := with_response (response_skip (response cl)) cl]> (heap s)) s)
  end.
Proof.
  intros H. unfold res_write. rewrite bind_eq, (deref_eq _ _ _ H).
  by destruct (response_write chunk (response cl)).
Qed.

Lemma res_end_eq c s cl :
  heap s !! c = Some cl ->
  res_end c s =
  (if endThrows (response cl) then Thrown "end failed" else Returned tt,
   set_heap (<[c := with_response (response_ended (response cl)) cl]> (heap s)) s).
Proof.
  intros H. unfold res_end. rewrite bind_eq, (deref_eq _ _ _ H). rewrite bind_eq.
  unfold store_client, modify, response_end. by destruct (endThrows (response cl)).
Qed.

Lemma lookup_set_heap_insert c cl cl' s :
  heap s !! c = Some cl ->
  heap (set_heap (<[c := cl']> (heap s)) s) !! c = Some cl'.
Proof.
  intros H. simpl. apply list_lookup_insert_eq. eapply lookup_lt_Some; eauto.
Qed.

Lemma broadcast_callback eventType message c s cl :
  heap s !! c = Some cl ->
  try_catch
    (open ← is_open c;
     if open : bool then write_event c eventType message else Set_delete c)
    (fun _ => Set_delete c) s
  = (Returned tt, apply_local (broadcast_client eventType message) c s).
Proof.
  intros Hc.
  unfold apply_local, broadcast_client, try_catch. rewrite Hc.
  rewrite bind_eq, (is_open_eq _ _ _ Hc).
  destruct (destroyed (response cl)) eqn:Hd; simpl.
  { by rewrite (insert_same c cl s Hc). }
  unfold write_event. rewrite bind_eq, (res_write_eq _ _ _ _ Hc).
  destruct (response_write _ (response cl)) as [r1|e] eqn:Hw1; simpl; [|done].
  rewrite (res_write_eq _ _ _ (with_response r1 cl))
    by (by apply lookup_set_heap_insert with cl).
  simpl. destruct (response_write _ r1) as [r2|e] eqn:Hw2; simpl.
  - by rewrite insert_twice.
  - by rewrite insert_twice.
Qed.

Lemma cleanup_callback t c s cl :
  heap s !! c = Some cl ->
  (cl ← deref c;
   if bool_decide (t - lastPing cl > staleTimeout) then
     try_catch
       (open ← is_open c;
        if open : bool then res_end c else mret tt)
       (fun _ => mret tt) ;;
     Set_delete c
   else mret tt) s
  = (Returned tt, apply_local (cleanup_client t) c s).
Proof.
  intros Hc.
  unfold apply_local, cleanup_client. rewrite Hc.
  rewrite bind_eq, (deref_eq _ _ _ Hc).
  case_bool_decide; simpl.
  - rewrite bind_eq. unfold try_catch. rewrite bind_eq, (is_open_eq _ _ _ Hc).
    destruct (destroyed (response cl)) eqn:Hd; simpl.
    + by rewrite (insert_same c cl s Hc).
    + rewrite (res_end_eq _ _ _ Hc). by destruct (endThrows (response cl)).
  - by rewrite (insert_same c cl s Hc).
Qed.

(** ** Well-formed stores *)

Lemma broadcast_run eventType data s :
  wf s ->
  broadcastToClients eventType data s
  = (Returned tt,
     run_local (broadcast_client eventType
                  (stringify (event_message eventType data (toISOString (now s)))))
               (sseClients s) s).
Proof.
  intros [_ Hv]. unfold broadcastToClients, forEach, Date_iso.
  unfold mbind at 1, m_bind at 1, gets at 1. simpl.
  unfold mbind at 1, m_bind at 1, gets at 1. simpl.
  apply forEach_from_local; [|done].
  intros c st cl Hc. by apply broadcast_callback with cl.
Qed.

Lemma cleanup_run s :
  wf s ->
  cleanupConnections s
  = (Returned tt, run_local (cleanup_client (now s)) (sseClients s) s).
Proof.
  intros [_ Hv]. unfold cleanupConnections, forEach, Date_now.
  unfold mbind at 1, m_bind at 1, gets at 1. simpl.
  unfold mbind at 1, m_bind at 1, gets at 1. simpl.
  apply forEach_from_local; [|done].
  intros c st cl Hc. by apply cleanup_callback with cl.
Qed.

(** ** What a handler can do to the store *)

Lemma evolves_refl s : evolves s s.
Proof. unfold evolves. naive_solver. Qed.

Lemma evolves_trans s1 s2 s3 : evolves s1 s2 -> evolves s2 s3 -> evolves s1 s3.
Proof.
  intros (Hn1 & Hl1 & Hs1 & Hd1 & Hc1) (Hn2 & Hl2 & Hs2 & Hd2 & Hc2).
  split; [congruence|]. split; [congruence|]. split; [naive_solver|].
  split; [naive_solver|].
  intros c cl3 H3. destruct (Hc2 c cl3 H3) as (cl2 & H2 & Hi2 & Hp2).
  destruct (Hc1 c cl2 H2) as (cl1 & H1 & Hi1 & Hp1).
  exists cl1. split; [done|]. split; [congruence|].
  rewrite Hn1 in Hp2. destruct Hp1, Hp2; [left|right|right|right]; congruence.
Qed.

(** Replacing a client by one with the same [id], and a [lastPing] that
    is kept or set to now. *)
Lemma evolves_insert s c cl cl' :
  heap s !! c = Some cl -> id cl' = id cl ->
  (lastPing cl' = lastPing cl \/ lastPing cl' = now s) ->
  evolves s (set_heap (<[c := cl']> (heap s)) s).
Proof.
  intros Hc Hi Hp. unfold evolves. simpl. rewrite length_insert.
  repeat split; try done.
  intros c0 cl0 H0. destruct (decide (c0 = c)) as [->|Hne].
  - rewrite list_lookup_insert_eq in H0 by (eapply lookup_lt_Some; eauto).
    inversion H0; subst. eauto.
  - rewrite list_lookup_insert_ne in H0 by done. eauto.
Qed.

Lemma evolves_delete s c :
  evolves s (set_clients (filter (fun x => x ≠ c) (sseClients s)) s).
Proof.
  unfold evolves. simpl. repeat split; try done.
  - intros c0. rewrite list_elem_of_filter. naive_solver.
  - intros H. by apply NoDup_filter.
  - eauto.
Qed.

Lemma evolves_intervals s l : evolves s (set_intervals l s).
Proof. unfold evolves. simpl. repeat split; eauto. Qed.

Section VisitsEvolve.

Variable f : Client -> Client * bool.
Hypothesis f_id : forall cl, id (fst (f cl)) = id cl.
Hypothesis f_ping : forall cl, lastPing (fst (f cl)) = lastPing cl.

Lemma apply_local_evolves c s : evolves s (apply_local f c s).
Proof.
  unfold apply_local. destruct (heap s !! c) as [cl|] eqn:Hc; [|apply evolves_refl].
  pose proof (evolves_insert s c cl (fst (f cl)) Hc (f_id cl) (or_introl (f_ping cl))) as H1.
  destruct (snd (f cl)); [done|].
  eapply evolves_trans; [exact H1|]. apply evolves_delete.
Qed.

Lemma run_local_evolves pending s : evolves s (run_local f pending s).
Proof.
  revert s. induction pending as [|c pending IH]; intros s; [apply evolves_refl|].
  unfold run_local in *. simpl. case_bool_decide.
  - eapply evolves_trans; [apply apply_local_evolves | apply IH].
  - apply IH.
Qed.

End VisitsEvolve.

Lemma broadcast_client_id eventType message cl :
  id (fst (broadcast_client eventType message cl)) = id cl.
Proof.
  unfold broadcast_client. destruct (destroyed _); [done|].
  destruct (response_write _ _); [|done]. by destruct (response_write _ _).
Qed.

Lemma broadcast_client_ping eventType message cl :
  lastPing (fst (broadcast_client eventType message cl)) = lastPing cl.
Proof.
  unfold broadcast_client. destruct (destroyed _); [done|].
  destruct (response_write _ _); [|done]. by destruct (response_write _ _).
Qed.

Lemma cleanup_client_id t cl : id (fst (cleanup_client t cl)) = id cl.
Proof. unfold cleanup_client. case_bool_decide; [|done]. by destruct (destroyed _). Qed.

Lemma cleanup_client_ping t cl : lastPing (fst (cleanup_client t cl)) = lastPing cl.
Proof. unfold cleanup_client. case_bool_decide; [|done]. by destruct (destroyed _). Qed.

Lemma broadcast_evolves eventType data s :
  wf s -> evolves s (exec (broadcastToClients eventType data) s).
Proof.
  intros Hwf. unfold exec. rewrite (broadcast_run _ _ _ Hwf). simpl.
  apply run_local_evolves; [apply broadcast_client_id | apply broadcast_client_ping].
Qed.

Lemma cleanup_evolves s : wf s -> evolves s (exec cleanupConnections s).
Proof.
  intros Hwf. unfold exec. rewrite (cleanup_run _ Hwf). simpl.
  apply run_local_evolves; [apply cleanup_client_id | apply cleanup_client_ping].
Qed.

Lemma on_close_eq c s :
  on_close c s =
  (Returned tt,
   set_clients (filter (fun x => x ≠ c) (sseClients s))
     (set_intervals (filter (fun x => x ≠ c) (intervals s)) s)).
Proof. reflexivity. Qed.

Lemma on_close_evolves c s : evolves s (exec (on_close c) s).
Proof.
  unfold exec. rewrite on_close_eq. simpl.
  eapply evolves_trans; [apply (evolves_intervals s)|].
  apply (evolves_delete (set_intervals _ s)).
Qed.

Lemma heartbeat_eq c s cl :
  heap s !! c = Some cl ->
  heartbeat c s =
  (Returned tt,
   match response_write (heartbeat_chunk (now s)) (response cl) with
   | Returned r =>
       set_heap (<[c := with_lastPing (now s) (with_response r cl)]> (heap s)) s
   | Thrown _ =>
       exec (on_close c)
         (set_heap (<[c := with_response (response_skip (response cl)) cl]> (heap s)) s)
   end).
Proof.
  intros Hc. unfold heartbeat, try_catch, Date_iso, Date_now.
  rewrite bind_eq. unfold gets at 1. rewrite bind_eq.
  fold (heartbeat_chunk (now s)). rewrite (res_write_eq _ _ _ _ Hc).
  destruct (response_write _ (response cl)) as [r|e]; [|done].
  rewrite bind_eq. unfold gets at 1.
  rewrite bind_eq, (deref_eq _ _ (with_response r cl))
    by (by apply lookup_set_heap_insert with cl).
  unfold store_client, modify. simpl. by rewrite insert_twice.
Qed.

Lemma heartbeat_dangling c s :
  heap s !! c = None -> heartbeat c s = (Returned tt, exec (on_close c) s).
Proof.
  intros Hc. unfold heartbeat, try_catch, Date_iso.
  rewrite bind_eq. unfold gets at 1. rewrite bind_eq.
  unfold res_write. rewrite bind_eq. unfold deref. by rewrite Hc.
Qed.

Lemma heartbeat_evolves c s : evolves s (exec (heartbeat c) s).
Proof.
  unfold exec. destruct (heap s !! c) as [cl|] eqn:Hc.
  - rewrite (heartbeat_eq _ _ _ Hc). simpl.
    destruct (response_write _ (response cl)) as [r|e].
    + apply (evolves_insert s c cl); [done|done|by right].
    + eapply evolves_trans; [|apply on_close_evolves].
      apply (evolves_insert s c cl); [done|done|by left].
  - rewrite (heartbeat_dangling _ _ Hc). apply on_close_evolves.
Qed.

Lemma write_event_evolves c eventType message s :
  evolves s (exec (try_catch (write_event c eventType message) (fun _ => Set_delete c)) s).
Proof.
  unfold exec, try_catch, write_event. rewrite bind_eq.
  destruct (heap s !! c) as [cl|] eqn:Hc.
  - rewrite (res_write_eq _ _ _ _ Hc).
    destruct (response_write _ (response cl)) as [r1|e]; simpl.
    + pose proof (evolves_insert s c cl (with_response r1 cl) Hc eq_refl (or_introl eq_refl)) as H1.
      rewrite (res_write_eq _ _ _ (with_response r1 cl))
        by (by apply lookup_set_heap_insert with cl).
      assert (Hc1 : heap (set_heap (<[c := with_response r1 cl]> (heap s)) s) !! c
                    = Some (with_response r1 cl))
        by (by apply lookup_set_heap_insert with cl).
      cbn [response with_response].
      destruct (response_write _ r1) as [r2|e]; cbn [snd].
      * eapply evolves_trans; [exact H1|].
        by apply (evolves_insert _ c (with_response r1 cl)); [|done|left].
      * eapply evolves_trans; [exact H1|].
        eapply evolves_trans; [|exact (evolves_delete (set_heap _ (set_heap _ s)) c)].
        by apply (evolves_insert _ c (with_response r1 cl)); [|done|left].
    + eapply evolves_trans; [|exact (evolves_delete (set_heap _ s) c)].
      apply (evolves_insert s c cl); [done|done|by left].
  - unfold res_write. rewrite bind_eq. unfold deref. rewrite Hc. simpl.
    apply evolves_delete.
Qed.

Lemma sendToClient_evolves clientId eventType data s :
  evolves s (exec (sendToClient clientId eventType data) s).
Proof.
  unfold exec, sendToClient. rewrite bind_eq. unfold gets at 1.
  destruct (find_by_id clientId s) as [c|]; [|apply evolves_refl].
  rewrite bind_eq. unfold is_open. rewrite bind_eq. unfold deref.
  destruct (heap s !! c) as [cl|] eqn:Hc; [|apply evolves_refl]. simpl.
  destruct (destroyed (response cl)); simpl; [apply evolves_refl|].
  pose proof (write_event_evolves c eventType
    (stringify (event_message eventType data (toISOString (now s)))) s) as H.
  unfold exec in H. exact H.
Qed.

Lemma destroy_evolves c s : evolves s (destroy c s).
Proof.
  unfold destroy. destruct (heap s !! c) as [cl|] eqn:Hc; [|apply evolves_refl].
  apply (evolves_insert s c cl); [done|done|by left].
Qed.

(** The admission: one new object, with the time of the clock as [id]
    and as [lastPing], which joins the set. *)
Lemma connect_exec res s :
  exists cl,
    heap (exec (connect res) s) = heap s ++ [cl] /\
    id cl = now s /\ lastPing cl = now s /\
    now (exec (connect res) s) = now s /\
    sseClients (exec (connect res) s) =
      (if bool_decide (length (heap s) ∈ sseClients s) then sseClients s
       else sseClients s ++ [length (heap s)]).
Proof.
  unfold exec. destruct (connect res s) as [o s'] eqn:E. cbn [snd]. revert E.
  unfold connect, Date_now, Date_iso.
  rewrite bind_eq. unfold gets at 1. rewrite bind_eq. unfold gets at 1.
  rewrite bind_eq. unfold alloc at 1. rewrite bind_eq. unfold Set_add, modify at 1.
  set (cl0 := {| id := now s; response := response_writeHead 200 sseHeaders res;
                 lastPing := now s |}).
  set (s1 := if bool_decide _ then _ else _).
  assert (Hall : heap s1 = heap s ++ [cl0] /\ now s1 = now s /\
                 sseClients s1 = (if bool_decide (length (heap s) ∈ sseClients s)
                                  then sseClients s
                                  else sseClients s ++ [length (heap s)])).
  { subst s1. simpl. by case_bool_decide. }
  destruct Hall as (Hh & Hn & Hs).
  assert (Hc : heap s1 !! length (heap s) = Some cl0).
  { rewrite Hh. by rewrite list_lookup_middle. }
  clearbody s1. rewrite bind_eq. unfold gets at 1. rewrite bind_eq.
  rewrite (res_write_eq _ _ _ _ Hc).
  assert (Hins : forall x, <[length (heap s) := x]> (heap s1) = heap s ++ [x]).
  { intros x. rewrite Hh. rewrite insert_app_r_alt by lia.
    by replace (length (heap s) - length (heap s))%nat with 0%nat by lia. }
  destruct (response_write _ (response cl0)) as [r|e].
  - intros [= <- <-]. exists (with_response r cl0). simpl. rewrite Hins. by rewrite Hn, Hs.
  - intros [= <- <-]. exists (with_response (response_skip (response cl0)) cl0).
    simpl. rewrite Hins. by rewrite Hn, Hs.
Qed.

(** ** The invariant of the reachable states *)

Lemma evolves_inv s s' : inv s -> evolves s s' -> inv s'.
Proof.
  intros [[Hnd Hv] Hp] (Hn & Hl & Hs & Hd & Hc). split; [split|].
  - by apply Hd.
  - intros c Hin. rewrite Hl. by apply Hv, Hs.
  - intros c cl' H'. destruct (Hc c cl' H') as (cl & H & _ & Hping).
    rewrite Hn. specialize (Hp c cl H). destruct Hping; lia.
Qed.

Lemma connect_inv res s : inv s -> inv (exec (connect res) s).
Proof.
  intros [[Hnd Hv] Hp].
  destruct (connect_exec res s) as (cl & Hh & Hi & Hl & Hn & Hs).
  assert (Hfresh : length (heap s) ∉ sseClients s).
  { intros Hin. specialize (Hv _ Hin). lia. }
  rewrite bool_decide_eq_false_2 in Hs by done.
  split; [split|].
  - rewrite Hs. apply NoDup_app. split; [done|]. split; [|apply NoDup_singleton].
    intros x Hx Hx'. apply list_elem_of_singleton in Hx'. by subst.
  - intros c. rewrite Hs, Hh, length_app. simpl.
    rewrite elem_of_app, list_elem_of_singleton. intros [Hin| ->]; [|lia].
    specialize (Hv _ Hin). lia.
  - intros c cl'. rewrite Hh, Hn. intros H.
    apply lookup_app_Some in H as [H|[_ H]]; [by eapply Hp|].
    apply list_lookup_singleton_Some in H as [_ <-]. lia.
Qed.

Lemma step_inv e s : inv s -> inv (step e s).
Proof.
  intros Hinv. destruct e; simpl.
  - by apply connect_inv.
  - case_bool_decide; [|done]. eapply evolves_inv; [done|apply heartbeat_evolves].
  - case_bool_decide; [|done]. eapply evolves_inv; [done|apply on_close_evolves].
  - case_bool_decide; [|done]. eapply evolves_inv; [done|apply on_close_evolves].
  - eapply evolves_inv; [done|]. apply broadcast_evolves, Hinv.
  - eapply evolves_inv; [done|apply sendToClient_evolves].
  - eapply evolves_inv; [done|]. apply cleanup_evolves, Hinv.
  - destruct Hinv as [Hwf Hp]. split; [done|].
    intros c cl H. simpl. specialize (Hp c cl H). lia.
  - eapply evolves_inv; [done|apply destroy_evolves].
Qed.

Lemma run_inv events s : inv s -> inv (run events s).
Proof.
  revert s. induction events as [|e events IH]; intros s Hs; [done|].
  unfold run in *. simpl. by apply IH, step_inv.
Qed.

Lemma reachable_inv s : reachable s -> inv s.
Proof.
  intros (t0 & events & ->). apply run_inv. split; [split|].
  - apply NoDup_nil_2.
  - intros c Hc. by apply elem_of_nil in Hc.
  - intros c cl H. simpl in H. by rewrite lookup_nil in H.
Qed.

(** ** Writes on one response *)

Lemma response_write_accepted chunk r :
  accepts 1 (writeScript r) = true ->
  exists r', response_write chunk r = Returned r' /\
             written r' = written r ++ [chunk] /\
             writeScript r' = tail (writeScript r) /\
             destroyed r' = destroyed r /\ ended r' = ended r /\ sentHead r' = sentHead r.
Proof.
  unfold accepts, response_write. destruct (writeScript r) as [|[] rest]; simpl; try done.
  - intros _. eexists. split; [done|]. done.
  - intros _. eexists. split; [done|]. done.
Qed.

Lemma response_write_refused chunk r :
  accepts 1 (writeScript r) = false ->
  exists e, response_write chunk r = Thrown e.
Proof.
  unfold accepts, response_write. destruct (writeScript r) as [|[] rest]; simpl; try done.
  intros _. by eexists.
Qed.

Lemma accepts_two script :
  accepts 2 script = accepts 1 script && accepts 1 (tail script).
Proof. by destruct script as [|[] [|[] rest]]. Qed.

Lemma response_skip_changes r :
  accepts 1 (writeScript r) = false -> response_skip r ≠ r.
Proof.
  intros Ha Heq. apply (f_equal (fun x => length (writeScript x))) in Heq.
  unfold accepts in Ha. destruct (writeScript r) as [|[] rest] eqn:Hs; simpl in *; try done.
  rewrite Hs in Heq. simpl in Heq. lia.
Qed.

Lemma written_longer (r r' : Response) (chunks : list string) :
  written r' = written r ++ chunks -> chunks ≠ [] -> r' ≠ r.
Proof.
  intros Hw Hne ->. apply (f_equal length) in Hw. rewrite length_app in Hw.
  destruct chunks; [done|]. simpl in Hw. lia.
Qed.

(** The cases of a visit of [broadcastToClients]. *)
Lemma broadcast_client_cases eventType message cl :
  let cl' := fst (broadcast_client eventType message cl) in
  let kept := snd (broadcast_client eventType message cl) in
  id cl' = id cl /\ lastPing cl' = lastPing cl /\
  destroyed (response cl') = destroyed (response cl) /\
  ended (response cl') = ended (response cl) /\
  (destroyed (response cl) = true -> cl' = cl /\ kept = false) /\
  (destroyed (response cl) = false ->
     response cl' ≠ response cl /\
     (accepts 2 (writeScript (response cl)) = true ->
        written (response cl') =
          written (response cl) ++ [event_line eventType; event_data_line message] /\
        kept = true) /\
     (accepts 2 (writeScript (response cl)) = false ->
        kept = false /\
        (written (response cl') = written (response cl) \/
         written (response cl') = written (response cl) ++ [event_line eventType]))).
Proof.
  unfold broadcast_client. fold (event_line eventType) (event_data_line message).
  destruct (destroyed (response cl)) eqn:Hd; simpl.
  { rewrite Hd. repeat split; done. }
  rewrite accepts_two.
  destruct (accepts 1 (writeScript (response cl))) eqn:Ha1.
  - destruct (response_write_accepted (event_line eventType) _ Ha1)
      as (r1 & -> & Hw1 & Hs1 & Hd1 & He1 & _).
    rewrite <- Hs1.
    destruct (accepts 1 (writeScript r1)) eqn:Ha2.
    + destruct (response_write_accepted (event_data_line message) _ Ha2)
        as (r2 & -> & Hw2 & Hs2 & Hd2 & He2 & _).
      simpl. rewrite Hw2, Hw1, <- app_assoc. simpl.
      repeat split; try congruence.
      eapply written_longer; [by rewrite Hw2, Hw1, <- app_assoc|done].
    + destruct (response_write_refused (event_data_line message) _ Ha2) as (e & ->).
      simpl. repeat split; try congruence; try done.
      * intros Heq. apply (f_equal (fun x => length (written x))) in Heq.
        simpl in Heq. rewrite Hw1, length_app in Heq. simpl in Heq. lia.
      * right. done.
  - destruct (response_write_refused (event_line eventType) _ Ha1) as (e & ->).
    simpl. repeat split; try done.
    + by apply response_skip_changes.
    + by left.
Qed.

(** ** Broadcast: isolation of failures *)

(** C1, as stated, fails: a registered client whose response is
    destroyed is in the set when [broadcastToClients] is called, and no
    write is attempted on it; the client is only dropped. *)
Lemma broadcast_no_write_to_destroyed :
  let s := one_destroyed_client in
  let s' := exec (broadcastToClients "request-updated" JNull) s in
  reachable s /\ 0%nat ∈ sseClients s /\
  ~ write_attempted s s' 0%nat /\ 0%nat ∉ sseClients s'.
Proof.
  split; [|split; [|split]].
  - exists 1700000000000, [Connect [] false; SocketDestroyed 0%nat]. reflexivity.
  - vm_compute. apply list_elem_of_here.
  - unfold write_attempted. vm_compute. intros H. by apply H.
  - vm_compute. apply not_elem_of_nil.
Qed.

(** C1, amended: in a reachable state [broadcastToClients] returns, and
    it treats every client of the set on its own.  A client whose
    response is destroyed is dropped without a write.  On every other
    client a write is attempted; when the transport accepts the two
    chunks they are appended and the client stays, and when a write
    throws the client is out of the set when the call returns.  No client
    joins the set, and a client outside the set is not touched; with an
    empty set the store is unchanged. *)
Theorem broadcast_isolates_failures (eventType : string) (data : JSON) (s : Store) :
  reachable s ->
  let message := stringify (event_message eventType data (toISOString (now s))) in
  let s' := exec (broadcastToClients eventType data) s in
  returns (broadcastToClients eventType data) s = true /\
  (sseClients s = [] -> s' = s) /\
  (forall c, c ∈ sseClients s' -> c ∈ sseClients s) /\
  (forall c, c ∉ sseClients s -> heap s' !! c = heap s !! c) /\
  (forall c cl, c ∈ sseClients s -> heap s !! c = Some cl ->
     exists cl', heap s' !! c = Some cl' /\
       (destroyed (response cl) = true -> cl' = cl /\ c ∉ sseClients s') /\
       (destroyed (response cl) = false ->
          write_attempted s s' c /\
          (accepts 2 (writeScript (response cl)) = true ->
             written (response cl') =
               written (response cl) ++ [event_line eventType; event_data_line message] /\
             c ∈ sseClients s') /\
          (accepts 2 (writeScript (response cl)) = false -> c ∉ sseClients s'))).
Proof.
  intros Hreach message s'.
  destruct (reachable_inv s Hreach) as [Hwf _].
  assert (Hrun := broadcast_run eventType data s Hwf). fold message in Hrun.
  assert (Hs' : s' = run_local (broadcast_client eventType message) (sseClients s) s).
  { unfold s', exec. by rewrite Hrun. }
  split; [unfold returns; by rewrite Hrun|].
  split; [intros Hnil; rewrite Hs', Hnil; done|].
  split; [intros c; rewrite Hs'; apply run_local_subset|].
  split.
  { intros c Hc. rewrite Hs'. by apply run_local_other. }
  intros c cl Hin Hcl. destruct Hwf as [Hnd _].
  destruct (run_local_visited (broadcast_client eventType message)
              (sseClients s) s c cl Hnd Hin Hin Hcl) as [Hh Hm].
  rewrite <- Hs' in Hh, Hm.
  destruct (broadcast_client_cases eventType message cl)
    as (_ & _ & _ & _ & Hdead & Hlive).
  eexists. split; [exact Hh|]. split.
  - intros Hd. destruct (Hdead Hd) as [-> Hk]. split; [done|].
    rewrite Hm, Hk. done.
  - intros Hd. destruct (Hlive Hd) as (Hne & Hok & Hko). split; [|split].
    + unfold write_attempted. rewrite Hh, Hcl. simpl. congruence.
    + intros Ha. destruct (Hok Ha) as [Hw Hk]. split; [done|]. by apply Hm.
    + intros Ha. destruct (Hko Ha) as [Hk _]. rewrite Hm, Hk. done.
Qed.

(** Two subscribers, the first with a transport that throws on the first
    write after its admission. *)
Lemma broadcast_isolates_failures_witness :
  let s := run [Connect [false; true] false; Connect [] false] (empty_store 1700000000000) in
  reachable s /\
  returns (broadcastToClients "request-updated" JNull) s = true /\
  sseClients (exec (broadcastToClients "request-updated" JNull) s) = [1%nat].
Proof.
  assert (Hr : reachable
    (run [Connect [false; true] false; Connect [] false] (empty_store 1700000000000))).
  { exists 1700000000000, [Connect [false; true] false; Connect [] false]. reflexivity. }
  split; [exact Hr|].
  split; [exact (proj1 (broadcast_isolates_failures "request-updated" JNull _ Hr))|].
  vm_compute. reflexivity.
Defined.

(** ** Admission: the [id] of a client *)

(** C3: two admissions in the same millisecond.  Both clients are in
    the set, they are two objects, and [Date.now()] gave them one [id]. *)
Theorem same_millisecond_same_id :
  let s := run [Connect [] false; Connect [] false] (empty_store 1700000000000) in
  reachable s /\
  sseClients s = [0%nat; 1%nat] /\
  (id <$> heap s !! 0%nat) = Some 1700000000000 /\
  (id <$> heap s !! 1%nat) = Some 1700000000000.
Proof.
  split.
  { exists 1700000000000, [Connect [] false; Connect [] false]. reflexivity. }
  vm_compute. done.
Qed.

(** [sendToClient] reaches the first of two clients with one [id] only. *)
Lemma sendToClient_reaches_first_only :
  let s := run [Connect [] false; Connect [] false] (empty_store 1700000000000) in
  let s' := exec (sendToClient 1700000000000 "request-updated" JNull) s in
  ((length ∘ written ∘ response) <$> heap s' !! 0%nat) = Some 3%nat /\
  ((length ∘ written ∘ response) <$> heap s' !! 1%nat) = Some 1%nat.
Proof. vm_compute. done. Qed.

(** ** The cleanup of stale connections *)

Lemma cleanup_client_cases t cl :
  let cl' := fst (cleanup_client t cl) in
  let kept := snd (cleanup_client t cl) in
  written (response cl') = written (response cl) /\
  writeScript (response cl') = writeScript (response cl) /\
  destroyed (response cl') = destroyed (response cl) /\
  (t - lastPing cl > 300000 ->
     kept = false /\
     (destroyed (response cl) = true -> cl' = cl) /\
     (destroyed (response cl) = false -> ended (response cl') = true)) /\
  (t - lastPing cl <= 300000 -> kept = true /\ cl' = cl).
Proof.
  unfold cleanup_client, staleTimeout. case_bool_decide; simpl.
  - destruct (destroyed (response cl)) eqn:Hd; simpl; repeat split; try done; lia.
  - repeat split; try done; lia.
Qed.

(** C4: one pass of [cleanupConnections] in a reachable state returns;
    it drops from the set exactly the clients whose [lastPing] is more
    than five minutes old, after calling [end()] on the response of each
    of them that is not destroyed, and it writes to no response; a client
    that is not older stays in the set, unchanged. *)
Theorem cleanup_removes_exactly_stale (s : Store) :
  reachable s ->
  let s' := exec cleanupConnections s in
  returns cleanupConnections s = true /\
  (forall c, c ∈ sseClients s' -> c ∈ sseClients s) /\
  (forall c, c ∉ sseClients s -> heap s' !! c = heap s !! c) /\
  (forall c cl, c ∈ sseClients s -> heap s !! c = Some cl ->
     (now s - lastPing cl > 300000 ->
        (c ∉ sseClients s') /\
        exists cl', heap s' !! c = Some cl' /\
          (destroyed (response cl') = true \/ ended (response cl') = true) /\
          written (response cl') = written (response cl) /\
          writeScript (response cl') = writeScript (response cl)) /\
     (now s - lastPing cl <= 300000 ->
        c ∈ sseClients s' /\ heap s' !! c = Some cl)).
Proof.
  intros Hreach s'.
  destruct (reachable_inv s Hreach) as [Hwf _].
  assert (Hrun := cleanup_run s Hwf).
  assert (Hs' : s' = run_local (cleanup_client (now s)) (sseClients s) s).
  { unfold s', exec. by rewrite Hrun. }
  split; [unfold returns; by rewrite Hrun|].
  split; [intros c; rewrite Hs'; apply run_local_subset|].
  split.
  { intros c Hc. rewrite Hs'. by apply run_local_other. }
  intros c cl Hin Hcl. destruct Hwf as [Hnd _].
  destruct (run_local_visited (cleanup_client (now s))
              (sseClients s) s c cl Hnd Hin Hin Hcl) as [Hh Hm].
  rewrite <- Hs' in Hh, Hm.
  destruct (cleanup_client_cases (now s) cl) as (Hw & Hsc & Hd & Hstale & Hfresh).
  split.
  - intros Hage. destruct (Hstale Hage) as (Hk & Hdead & Hlive). split.
    + rewrite Hm, Hk. done.
    + eexists. split; [exact Hh|]. split; [|done].
      destruct (destroyed (response cl)) eqn:Hdd.
      * left. by rewrite Hd.
      * right. by apply Hlive.
  - intros Hage. destruct (Hfresh Hage) as [Hk Heq]. split.
    + by apply Hm.
    + by rewrite Hh, Heq.
Qed.

(** Scenario 3 of the specification: admitted at [T0], no heartbeat,
    the pass runs 301 seconds later. *)
Lemma cleanup_removes_exactly_stale_witness :
  let s := run [Connect [] false; Elapse 301000] (empty_store 1700000000000) in
  reachable s /\
  returns cleanupConnections s = true /\
  sseClients (exec cleanupConnections s) = [] /\
  ((ended ∘ response) <$> heap (exec cleanupConnections s) !! 0%nat) = Some true.
Proof.
  assert (Hr : reachable
    (run [Connect [] false; Elapse 301000] (empty_store 1700000000000))).
  { exists 1700000000000, [Connect [] false; Elapse 301000]. reflexivity. }
  split; [exact Hr|].
  split; [exact (proj1 (cleanup_removes_exactly_stale _ Hr))|].
  vm_compute. done.
Defined.

(** ** The heartbeat *)

(** C5: one heartbeat of a registered client in a reachable state
    returns.  When the transport accepts the chunk, exactly one message
    of type [heartbeat] is appended to the response and [lastPing]
    becomes the time of the clock, which is not before the old value;
    the set is unchanged.  When the write throws, the client is out of
    the set and its timer is cleared when the callback returns, and
    nothing was written. *)
Theorem heartbeat_tick (s : Store) (c : nat) (cl : Client) :
  reachable s -> c ∈ sseClients s -> heap s !! c = Some cl ->
  let s' := exec (heartbeat c) s in
  returns (heartbeat c) s = true /\
  (accepts 1 (writeScript (response cl)) = true ->
     sseClients s' = sseClients s /\
     exists cl', heap s' !! c = Some cl' /\
       written (response cl') =
         written (response cl) ++
         ["data: " +:+ stringify (JObj [("type", JStr "heartbeat");
                                        ("timestamp", JStr (toISOString (now s)))])
          +:+ LF +:+ LF] /\
       lastPing cl' = now s /\ lastPing cl <= lastPing cl') /\
  (accepts 1 (writeScript (response cl)) = false ->
     (c ∉ sseClients s') /\ (c ∉ intervals s') /\
     exists cl', heap s' !! c = Some cl' /\
       written (response cl') = written (response cl) /\
       lastPing cl' = lastPing cl).
Proof.
  intros Hreach Hin Hcl s'.
  destruct (reachable_inv s Hreach) as [_ Hpast].
  assert (Hlt : (c < length (heap s))%nat) by (eapply lookup_lt_Some; eauto).
  assert (Heq := heartbeat_eq c s cl Hcl).
  split; [unfold returns; by rewrite Heq|].
  unfold s', exec. rewrite Heq. cbn [snd]. unfold heartbeat_chunk, data_line, heartbeat_message.
  split.
  - intros Ha.
    destruct (response_write_accepted
      ("data: " +:+ stringify (JObj [("type", JStr "heartbeat");
                                     ("timestamp", JStr (toISOString (now s)))])
       +:+ LF +:+ LF) _ Ha) as (r & -> & Hw & _).
    split; [done|]. eexists. split.
    + simpl. by apply list_lookup_insert_eq.
    + simpl. split; [done|]. split; [done|]. by apply (Hpast c cl).
  - intros Ha.
    destruct (response_write_refused
      ("data: " +:+ stringify (JObj [("type", JStr "heartbeat");
                                     ("timestamp", JStr (toISOString (now s)))])
       +:+ LF +:+ LF) _ Ha) as (e & ->).
    unfold exec. rewrite on_close_eq. simpl.
    split; [rewrite list_elem_of_filter; naive_solver|].
    split; [rewrite list_elem_of_filter; naive_solver|].
    eexists. split; [by apply list_lookup_insert_eq|]. done.
Qed.

(** Scenario 4 of the specification: admission, thirty seconds, one
    heartbeat. *)
Lemma heartbeat_tick_witness :
  let s := run [Connect [] false; Elapse 30000] (empty_store 1700000000000) in
  reachable s /\
  returns (heartbeat 0%nat) s = true /\
  (lastPing <$> heap s !! 0%nat) = Some 1700000000000 /\
  (lastPing <$> heap (exec (heartbeat 0%nat) s) !! 0%nat) = Some 1700000030000.
Proof.
  assert (Hr : reachable
    (run [Connect [] false; Elapse 30000] (empty_store 1700000000000))).
  { exists 1700000000000, [Connect [] false; Elapse 30000]. reflexivity. }
  split; [exact Hr|].
  split.
  - refine (proj1 (heartbeat_tick _ 0%nat _ Hr _ _)).
    + vm_compute. apply list_elem_of_here.
    + vm_compute. reflexivity.
  - vm_compute. done.
Defined.

(** ** The frame of a broadcast *)

Lemma matches_app p1 p2 s1 s2 :
  matches p1 s1 = true -> matches p2 s2 = true -> matches (p1 ++ p2) (s1 +:+ s2) = true.
Proof.
  revert s1. induction p1 as [|[a|] p1 IH]; intros [|c s1]; simpl; try done.
  - intros H1 H2. apply andb_true_iff in H1 as [-> H1]. simpl. by apply IH.
  - intros H1 H2. apply andb_true_iff in H1 as [-> H1]. simpl. by apply IH.
Qed.

Lemma matches_text s : matches (of_text s) s = true.
Proof.
  induction s as [|c s IH]; [done|]. unfold of_text in *. simpl.
  by rewrite Ascii.eqb_refl.
Qed.

Lemma is_digit_mod n : is_digit (ascii_of_N (48 + Z.to_N (n mod 10))) = true.
Proof.
  assert (H : 0 <= n mod 10 < 10) by (apply Z.mod_pos_bound; lia).
  assert (Hcases : n mod 10 = 0 \/ n mod 10 = 1 \/ n mod 10 = 2 \/ n mod 10 = 3 \/
                   n mod 10 = 4 \/ n mod 10 = 5 \/ n mod 10 = 6 \/ n mod 10 = 7 \/
                   n mod 10 = 8 \/ n mod 10 = 9) by lia.
  destruct Hcases as [-> | [-> | [-> | [-> | [-> | [-> | [-> | [-> | [-> | ->]]]]]]]]];
    reflexivity.
Qed.

Lemma matches_digits w n : matches (replicate w None) (digits w n) = true.
Proof.
  revert n. induction w as [|w IH]; intros n; [done|].
  rewrite replicate_S_end. simpl digits. apply matches_app; [apply IH|].
  simpl. by rewrite is_digit_mod.
Qed.

Lemma year_string_shape y :
  matches (replicate 4 None) (year_string y) = true \/
  matches (of_text "+" ++ replicate 6 None) (year_string y) = true \/
  matches (of_text "-" ++ replicate 6 None) (year_string y) = true.
Proof.
  unfold year_string. destruct ((0 <=? y) && (y <=? 9999)).
  - left. apply matches_digits.
  - destruct (y <? 0).
    + right. right. apply matches_app; [apply matches_text | apply matches_digits].
    + right. left. apply matches_app; [apply matches_text | apply matches_digits].
Qed.

(** Every time value is printed in the ISO-8601 shape. *)
Lemma toISOString_iso8601 t : iso8601 (toISOString t) = true.
Proof.
  unfold toISOString. destruct (civil_from_days (t / 86400000)) as [[y m] d].
  set (ms := t mod 86400000).
  assert (Htail : matches date_time_pattern
            ("-" +:+ digits 2 m +:+ "-" +:+ digits 2 d +:+ "T"
             +:+ digits 2 (ms / 3600000) +:+ ":" +:+ digits 2 (ms / 60000 mod 60) +:+ ":"
             +:+ digits 2 (ms / 1000 mod 60) +:+ "." +:+ digits 3 (ms mod 1000) +:+ "Z")
            = true).
  { unfold date_time_pattern.
    repeat (apply matches_app; [first [apply matches_text | apply matches_digits]|]).
    apply matches_text. }
  unfold iso8601.
  destruct (year_string_shape y) as [H|[H|H]].
  - rewrite (matches_app _ _ _ _ H Htail). done.
  - rewrite (app_assoc (of_text "+") _ date_time_pattern).
    rewrite (matches_app _ _ _ _ H Htail). by rewrite orb_true_r.
  - rewrite (app_assoc (of_text "-") _ date_time_pattern).
    rewrite (matches_app _ _ _ _ H Htail). by rewrite !orb_true_r.
Qed.

(** The effect of [broadcastToClients] on one client of the set. *)
Lemma broadcast_visit eventType data s c cl :
  wf s -> c ∈ sseClients s -> heap s !! c = Some cl ->
  let message := stringify (event_message eventType data (toISOString (now s))) in
  let s' := exec (broadcastToClients eventType data) s in
  heap s' !! c = Some (fst (broadcast_client eventType message cl)) /\
  (c ∈ sseClients s' <-> snd (broadcast_client eventType message cl) = true).
Proof.
  intros Hwf Hin Hcl message s'. unfold s', exec.
  rewrite (broadcast_run eventType data s Hwf). cbn [snd].
  destruct Hwf as [Hnd _]. by apply run_local_visited.
Qed.

(** C6: a client of the set whose response is not destroyed and whose
    transport accepts two chunks receives from [broadcastToClients]
    exactly the chunk [event: <type>\n] followed by the chunk
    [data: <json>\n\n], where [<json>] prints the object with the fields
    [type], [data] and [timestamp], in this order: the event type, the
    payload, and the ISO-8601 string of the clock at the call. *)
Theorem broadcast_frame (eventType : string) (data : JSON) (s : Store)
    (c : nat) (cl : Client) :
  reachable s -> c ∈ sseClients s -> heap s !! c = Some cl ->
  destroyed (response cl) = false ->
  accepts 2 (writeScript (response cl)) = true ->
  exists cl' iso,
    heap (exec (broadcastToClients eventType data) s) !! c = Some cl' /\
    written (response cl') =
      written (response cl) ++
      ["event: " +:+ eventType +:+ LF;
       "data: " +:+ stringify (JObj [("type", JStr eventType);
                                     ("data", data);
                                     ("timestamp", JStr iso)])
       +:+ LF +:+ LF] /\
    iso = toISOString (now s) /\ iso8601 iso = true.
Proof.
  intros Hreach Hin Hcl Hd Ha.
  destruct (reachable_inv s Hreach) as [Hwf _].
  destruct (broadcast_visit eventType data s c cl Hwf Hin Hcl) as [Hh _].
  destruct (broadcast_client_cases eventType
              (stringify (event_message eventType data (toISOString (now s)))) cl)
    as (_ & _ & _ & _ & _ & Hlive).
  destruct (Hlive Hd) as (_ & Hok & _). destruct (Hok Ha) as [Hw _].
  eexists. exists (toISOString (now s)). split; [exact Hh|].
  split; [exact Hw|]. split; [done|apply toISOString_iso8601].
Qed.

(** Scenario 1 of the specification: one subscriber, one broadcast of
    [request-created] for the record [DR-2024-000001]. *)
Lemma broadcast_frame_witness :
  let s := run [Connect [] false] (empty_store 1700000000000) in
  let payload := JObj [("request_id", JStr "DR-2024-000001")] in
  let s' := exec (broadcastToClients "request-created" payload) s in
  reachable s /\
  (exists cl' iso, heap s' !! 0%nat = Some cl' /\
     written (response cl') =
       [data_line (connected_message "2023-11-14T22:13:20.000Z")] ++
       ["event: request-created" +:+ LF;
        "data: " +:+ stringify (JObj [("type", JStr "request-created");
                                      ("data", payload);
                                      ("timestamp", JStr iso)])
        +:+ LF +:+ LF] /\
     iso = toISOString 1700000000000 /\ iso8601 iso = true) /\
  (forallb (includes (quote "request_id" +:+ ":" +:+ quote "DR-2024-000001"))
     <$> (drop 2 ∘ written ∘ response <$> heap s' !! 0%nat)) = Some true.
Proof.
  assert (Hr : reachable (run [Connect [] false] (empty_store 1700000000000))).
  { exists 1700000000000, [Connect [] false]. reflexivity. }
  split; [exact Hr|]. split.
  - refine (broadcast_frame "request-created" _ _ 0%nat
              {| id := 1700000000000;
                 response :=
                   {| destroyed := false; sentHead := Some (200, sseHeaders);
                      written := [data_line (connected_message "2023-11-14T22:13:20.000Z")];
                      ended := false; writeScript := []; endThrows := false |};
                 lastPing := 1700000000000 |} Hr _ _ _ _).
    + vm_compute. apply list_elem_of_here.
    + vm_compute. reflexivity.
    + reflexivity.
    + reflexivity.
  - vm_compute. reflexivity.
Defined.

(** ** The statistics *)

(** The effect of [cleanupConnections] on one client of the set. *)
Lemma cleanup_visit s c cl :
  wf s -> c ∈ sseClients s -> heap s !! c = Some cl ->
  let s' := exec cleanupConnections s in
  heap s' !! c = Some (fst (cleanup_client (now s) cl)) /\
  (c ∈ sseClients s' <-> snd (cleanup_client (now s) cl) = true).
Proof.
  intros Hwf Hin Hcl s'. unfold s', exec.
  rewrite (cleanup_run s Hwf). cbn [snd].
  destruct Hwf as [Hnd _]. by apply run_local_visited.
Qed.

(** C7, as stated, fails: a client whose [lastPing] is two minutes old
    is counted in [oldConnections], but it is not past the five minutes
    of [cleanupConnections], which leaves it in the set. *)
Lemma stats_old_is_not_stale :
  let s := run [Connect [] false; Elapse 120000] (empty_store 1700000000000) in
  reachable s /\
  oldConnections (getConnectionStats s) = 1%nat /\
  length (List.filter (client_older_than staleTimeout s) (sseClients s)) = 0%nat /\
  sseClients (exec cleanupConnections s) = sseClients s.
Proof.
  split.
  { exists 1700000000000, [Connect [] false; Elapse 120000]. reflexivity. }
  vm_compute. done.
Qed.

Lemma filter_length_le {A : Type} (p : A -> bool) (l : list A) :
  (length (List.filter p l) <= length l)%nat.
Proof. induction l as [|x l IH]; simpl; [lia|]. destruct (p x); simpl; lia. Qed.

(** C7, amended: [getConnectionStats] returns the size of the set, the
    number of its clients whose response is not destroyed, and the number
    of its clients whose [lastPing] is more than 60 seconds old.  This
    last threshold is not the five minutes of [cleanupConnections]: every
    client that a cleanup pass would drop is counted, and so are the
    clients between one and five minutes. *)
Theorem stats_counts (s : Store) :
  reachable s ->
  let stats := getConnectionStats s in
  totalConnections stats = length (sseClients s) /\
  activeConnections stats = length (List.filter (client_open s) (sseClients s)) /\
  oldConnections stats = length (List.filter (client_older_than 60000 s) (sseClients s)) /\
  (activeConnections stats <= totalConnections stats)%nat /\
  (oldConnections stats <= totalConnections stats)%nat /\
  (forall c cl, c ∈ sseClients s -> heap s !! c = Some cl ->
     client_open s c = negb (destroyed (response cl)) /\
     client_older_than 60000 s c = bool_decide (now s - lastPing cl > 60000) /\
     (c ∉ sseClients (exec cleanupConnections s) -> client_older_than 60000 s c = true)).
Proof.
  intros Hreach stats. destruct (reachable_inv s Hreach) as [Hwf _].
  split; [done|]. split; [done|]. split; [done|].
  split; [apply filter_length_le|]. split; [apply filter_length_le|].
  intros c cl Hin Hcl. unfold client_open, client_older_than. rewrite Hcl.
  split; [done|]. split; [done|]. intros Hgone.
  destruct (cleanup_visit s c cl Hwf Hin Hcl) as [_ Hm].
  destruct (cleanup_client_cases (now s) cl) as (_ & _ & _ & _ & Hfresh).
  apply bool_decide_eq_true_2.
  destruct (decide (now s - lastPing cl <= 300000)) as [Hle|Hgt]; [|lia].
  destruct (Hfresh Hle) as [Hk _]. exfalso. apply Hgone. by apply Hm.
Qed.

Lemma stats_counts_witness :
  let s := run [Connect [] false; Connect [] false; SocketDestroyed 0%nat; Elapse 61000]
               (empty_store 1700000000000) in
  reachable s /\
  getConnectionStats s =
    {| totalConnections := 2; activeConnections := 1; oldConnections := 2 |} /\
  (oldConnections (getConnectionStats s) <= totalConnections (getConnectionStats s))%nat.
Proof.
  assert (Hr : reachable
    (run [Connect [] false; Connect [] false; SocketDestroyed 0%nat; Elapse 61000]
         (empty_store 1700000000000))).
  { exists 1700000000000,
      [Connect [] false; Connect [] false; SocketDestroyed 0%nat; Elapse 61000].
    reflexivity. }
  split; [exact Hr|]. split; [vm_compute; reflexivity|].
  exact (proj1 (proj2 (proj2 (proj2 (proj2 (stats_counts _ Hr)))))).
Defined.

(** ** Removal from the set *)

(** C8, as stated, fails: a client whose write throws during a
    broadcast is dropped from the set, and [end()] is not called on its
    response, which is not destroyed either. *)
Lemma broadcast_removal_leaves_sink_open :
  let s := run [Connect [false; true] false] (empty_store 1700000000000) in
  let s' := exec (broadcastToClients "request-updated" JNull) s in
  reachable s /\ 0%nat ∈ sseClients s /\ (0%nat ∉ sseClients s') /\
  ((ended ∘ response) <$> heap s' !! 0%nat) = Some false /\
  ((destroyed ∘ response) <$> heap s' !! 0%nat) = Some false.
Proof.
  split.
  { exists 1700000000000, [Connect [false; true] false]. reflexivity. }
  split; [vm_compute; apply list_elem_of_here|].
  split; [vm_compute; apply not_elem_of_nil|].
  vm_compute. done.
Qed.

(** C8, amended: the removals by the [close] handler, by the [error]
    handler, by a heartbeat whose write throws and by a broadcast only
    drop the client from the set (the first three also clear its timer);
    none of them calls [end()] or destroys the response.  Closing is done
    by [cleanupConnections] alone. *)
Theorem removal_does_not_close (s : Store) (c : nat) (cl : Client) :
  reachable s -> c ∈ sseClients s -> heap s !! c = Some cl ->
  (heap (exec (on_close c) s) = heap s /\
   (c ∉ sseClients (exec (on_close c) s)) /\ (c ∉ intervals (exec (on_close c) s))) /\
  (heap (exec (on_error c) s) = heap s /\
   (c ∉ sseClients (exec (on_error c) s)) /\ (c ∉ intervals (exec (on_error c) s))) /\
  (accepts 1 (writeScript (response cl)) = false ->
     (c ∉ sseClients (exec (heartbeat c) s)) /\
     exists cl', heap (exec (heartbeat c) s) !! c = Some cl' /\
       ended (response cl') = ended (response cl) /\
       destroyed (response cl') = destroyed (response cl)) /\
  (forall eventType data,
     c ∉ sseClients (exec (broadcastToClients eventType data) s) ->
     exists cl', heap (exec (broadcastToClients eventType data) s) !! c = Some cl' /\
       ended (response cl') = ended (response cl) /\
       destroyed (response cl') = destroyed (response cl)).
Proof.
  intros Hreach Hin Hcl. destruct (reachable_inv s Hreach) as [Hwf _].
  assert (Hlt : (c < length (heap s))%nat) by (eapply lookup_lt_Some; eauto).
  assert (Hclose : heap (exec (on_close c) s) = heap s /\
                   (c ∉ sseClients (exec (on_close c) s)) /\
                   (c ∉ intervals (exec (on_close c) s))).
  { unfold exec. rewrite on_close_eq. simpl.
    split; [done|]. split; rewrite list_elem_of_filter; naive_solver. }
  split; [exact Hclose|]. split; [exact Hclose|]. split.
  - intros Ha. unfold exec. rewrite (heartbeat_eq c s cl Hcl). cbn [snd].
    destruct (response_write_refused (heartbeat_chunk (now s)) _ Ha) as (e & ->).
    unfold exec. rewrite on_close_eq. simpl.
    split; [rewrite list_elem_of_filter; naive_solver|].
    eexists. split; [by apply list_lookup_insert_eq|]. done.
  - intros eventType data Hgone.
    destruct (broadcast_visit eventType data s c cl Hwf Hin Hcl) as [Hh _].
    destruct (broadcast_client_cases eventType
                (stringify (event_message eventType data (toISOString (now s)))) cl)
      as (_ & _ & Hd & He & _).
    eexists. split; [exact Hh|]. done.
Qed.

Lemma removal_does_not_close_witness :
  let s := run [Connect [false; true] false] (empty_store 1700000000000) in
  reachable s /\
  heap (exec (on_close 0%nat) s) = heap s /\
  sseClients (exec (on_close 0%nat) s) = [].
Proof.
  assert (Hr : reachable (run [Connect [false; true] false] (empty_store 1700000000000))).
  { exists 1700000000000, [Connect [false; true] false]. reflexivity. }
  split; [exact Hr|]. split.
  - refine (proj1 (proj1 (removal_does_not_close _ 0%nat _ Hr _ _))).
    + vm_compute. apply list_elem_of_here.
    + vm_compute. reflexivity.
  - vm_compute. reflexivity.
Defined.

Lemma filter_filter_same {A : Type} (P : A -> Prop) `{!forall x, Decision (P x)}
    (l : list A) :
  filter P (filter P l) = filter P l.
Proof.
  induction l as [|x l IH]; [done|].
  rewrite filter_cons. destruct (decide (P x)) as [Hx|Hx]; [|done].
  rewrite filter_cons. destruct (decide (P x)); [|done]. by rewrite IH.
Qed.

Lemma filter_absent (c : nat) (l : list nat) :
  c ∉ l -> filter (fun x => x ≠ c) l = l.
Proof.
  induction l as [|x l IH]; [done|]. intros H.
  apply not_elem_of_cons in H as [Hne H].
  rewrite filter_cons. destruct (decide (x ≠ c)) as [_|Hx]; [by rewrite IH|].
  exfalso. apply Hx. congruence.
Qed.

(** C9: the removal of a client, by [sseClients.delete] alone or by the
    [close] and [error] handlers, always returns; doing it twice leaves
    the store that doing it once leaves; and for a client that is not in
    the set it leaves the set as it is. *)
Theorem removal_idempotent (s : Store) (c : nat) :
  (returns (Set_delete c) s = true /\
   returns (on_close c) s = true /\
   returns (on_error c) s = true) /\
  (exec (Set_delete c) (exec (Set_delete c) s) = exec (Set_delete c) s /\
   exec (on_close c) (exec (on_close c) s) = exec (on_close c) s /\
   exec (on_error c) (exec (on_error c) s) = exec (on_error c) s) /\
  (c ∉ sseClients s ->
     exec (Set_delete c) s = s /\
     sseClients (exec (on_close c) s) = sseClients s /\
     sseClients (exec (on_error c) s) = sseClients s /\
     heap (exec (on_close c) s) = heap s /\
     heap (exec (on_error c) s) = heap s).
Proof.
  assert (Hcc : exec (on_close c) (exec (on_close c) s) = exec (on_close c) s).
  { unfold exec. rewrite !on_close_eq. simpl. unfold set_clients, set_intervals. simpl.
    by rewrite !filter_filter_same. }
  split; [done|]. split.
  - split; [|split; [exact Hcc|exact Hcc]].
    unfold exec, Set_delete, modify, set_clients. simpl. by rewrite filter_filter_same.
  - intros Habs.
    assert (Hclose : sseClients (exec (on_close c) s) = sseClients s /\
                     heap (exec (on_close c) s) = heap s).
    { unfold exec. rewrite on_close_eq. simpl. by rewrite (filter_absent c _ Habs). }
    destruct Hclose as [Hs Hh].
    split; [|split; [exact Hs|split; [exact Hs|split; [exact Hh|exact Hh]]]].
    unfold exec, Set_delete, modify. simpl. rewrite (filter_absent c _ Habs).
    by destruct s.
Qed.

Lemma removal_idempotent_witness :
  let s := run [Connect [] false; CloseSignal 0%nat] (empty_store 1700000000000) in
  (0%nat ∉ sseClients s) /\ exec (Set_delete 0%nat) s = s.
Proof.
  assert (H : 0%nat ∉ sseClients
    (run [Connect [] false; CloseSignal 0%nat] (empty_store 1700000000000))).
  { vm_compute. apply not_elem_of_nil. }
  split; [exact H|].
  exact (proj1 (proj2 (proj2 (removal_idempotent _ 0%nat)) H)).
Defined.

(** * The request routes *)


(** ** Objects *)

Lemma obj_get_set k k' v o :
  obj_get k (obj_set k' v o) = if String.eqb k k' then Some v else obj_get k o.
Proof.
  induction o as [|[k0 v0] o IH]; simpl.
  - by destruct (String.eqb k k').
  - destruct (String.eqb k' k0) eqn:E0; simpl.
    + apply String.eqb_eq in E0 as ->. by destruct (String.eqb k k0).
    + destruct (String.eqb k k0) eqn:E1; [|exact IH].
      apply String.eqb_eq in E1 as ->. rewrite String.eqb_sym in E0. by rewrite E0.
Qed.

Lemma obj_get_delete k k' o :
  obj_get k (obj_delete k' o) = if String.eqb k k' then None else obj_get k o.
Proof.
  induction o as [|[k0 v0] o IH]; simpl.
  - by destruct (String.eqb k k').
  - destruct (String.eqb k' k0) eqn:E0; simpl.
    + apply String.eqb_eq in E0 as ->. rewrite IH. by destruct (String.eqb k k0).
    + rewrite IH. destruct (String.eqb k k') eqn:E1; [|done].
      apply String.eqb_eq in E1 as ->. by rewrite E0.
Qed.

(** A key that [b] does not have keeps its value in [{...a, ...b}]. *)
Lemma obj_get_spread_absent k a b :
  obj_get k b = None -> obj_get k (obj_spread a b) = obj_get k a.
Proof.
  revert a. induction b as [|[k0 v0] b IH]; intros a Hb; [done|].
  simpl in Hb. destruct (String.eqb k k0) eqn:E; [done|].
  unfold obj_spread in *. simpl. rewrite (IH _ Hb), obj_get_set. by rewrite E.
Qed.

Lemma updateData_read_only t body :
  obj_get "request_id" (updateData_of t body) = None /\
  obj_get "created_at" (updateData_of t body) = None.
Proof.
  unfold updateData_of. split.
  - rewrite obj_get_delete. simpl. by rewrite obj_get_delete.
  - by rewrite obj_get_delete.
Qed.

(** ** The hook into the events module *)

Lemma broadcast_hook_frame eventType data w :
  let w' := snd (broadcast_hook eventType data w) in
  supabase w' = supabase w /\ mockRequests w' = mockRequests w /\
  clock w' = clock w /\ development w' = development w /\
  calls w' = (if bool_decide (is_Some (sseEvents w))
              then calls w ++ [(eventType, data)] else calls w) /\
  (is_Some (sseEvents w') <-> is_Some (sseEvents w)).
Proof.
  unfold broadcast_hook. destruct (sseEvents w) as [st|] eqn:Hst.
  - destruct (broadcastToClients _ _ _) as [o st']. cbn [snd supabase mockRequests
      clock development calls sseEvents].
    rewrite bool_decide_eq_true_2 by eauto. repeat split; eauto.
  - cbn [snd]. rewrite Hst. rewrite bool_decide_eq_false_2 by (by intros [? ?]).
    repeat split; eauto.
Qed.

Lemma broadcast_hook_stored eventType data w :
  stored (snd (broadcast_hook eventType data w)) = stored w.
Proof.
  destruct (broadcast_hook_frame eventType data w) as (Hs & Hm & _).
  unfold stored. by rewrite Hs, Hm.
Qed.

Lemma failure_eq msg e w : snd (failure msg e w) = w.
Proof. reflexivity. Qed.

(** The records after [router.put('/:id')]. *)
Lemma put_stored id body w :
  stored (exec (router_put id body) w) =
  match supabase w with
  | Some db => rows (snd (pg_update (updateData_of (clock w) body) id db))
  | None =>
      match find_index (has_request_id id) (mockRequests w) with
      | Some i =>
          match mockRequests w !! i with
          | Some old =>
              <[i := obj_spread old (updateData_of (clock w) body)]> (mockRequests w)
          | None => mockRequests w
          end
      | None => mockRequests w
      end
  end.
Proof.
  unfold exec, router_put, try_catch. rewrite bind_eq. unfold gets at 1.
  rewrite bind_eq. unfold gets at 1.
  destruct (supabase w) as [db|] eqn:Hsb.
  - rewrite bind_eq. unfold query.
    destruct (pg_update (updateData_of (clock w) body) id db) as [reply db'] eqn:Hq.
    rewrite bind_eq. unfold gets at 1. cbn [snd].
    destruct reply as [row| |e].
    + rewrite bind_eq.
      pose proof (broadcast_hook_stored "request-updated" (updated_event row)
                    (set_supabase db' w)) as Hst.
      destruct (broadcast_hook _ _ (set_supabase db' w)) as [[[]|e] w1]; simpl in *.
      * by rewrite Hst.
      * by rewrite Hst.
    + by destruct (bool_decide _).
    + by destruct (String.eqb (code e) "PGRST116").
  - rewrite bind_eq. unfold gets at 1.
    destruct (find_index (has_request_id id) (mockRequests w)) as [i|] eqn:Hi.
    + destruct (mockRequests w !! i) as [old|] eqn:Hold.
      * rewrite bind_eq. unfold modify at 1. rewrite bind_eq.
        set (w0 := set_mock _ w).
        pose proof (broadcast_hook_stored "request-updated"
          (updated_event (obj_spread old (updateData_of (clock w) body))) w0) as Hst.
        destruct (broadcast_hook _ _ w0) as [[[]|e] w1]; simpl in *.
        -- rewrite Hst. unfold stored, w0. simpl. by rewrite Hsb.
        -- rewrite Hst. unfold stored, w0. simpl. by rewrite Hsb.
      * simpl. unfold stored. by rewrite Hsb.
    + simpl. unfold stored. by rewrite Hsb.
Qed.

Lemma put_stored_lookup id body w i old :
  stored w !! i = Some old ->
  stored (exec (router_put id body) w) !! i =
  Some (if bool_decide (put_target id w = Some i)
        then obj_spread old (updateData_of (clock w) body) else old).
Proof.
  intros Hold. rewrite put_stored. unfold put_target, stored in *.
  assert (Hins : forall (l : list Obj) j,
    l !! i = Some old ->
    match l !! j with
    | Some o => <[j := obj_spread o (updateData_of (clock w) body)]> l
    | None => l
    end !! i =
    Some (if bool_decide (Some j = Some i)
          then obj_spread old (updateData_of (clock w) body) else old)).
  { intros l j Hl. destruct (decide (j = i)) as [->|Hne].
    - rewrite Hl, bool_decide_eq_true_2 by done.
      apply list_lookup_insert_eq. eapply lookup_lt_Some; eauto.
    - rewrite bool_decide_eq_false_2 by congruence.
      destruct (l !! j); [|done]. by rewrite list_lookup_insert_ne. }
  destruct (supabase w) as [db|].
  - unfold pg_update. destruct (online db); simpl.
    + destruct (find_index _ (rows db)) as [j|] eqn:Hj.
      * specialize (Hins (rows db) j Hold). by destruct (rows db !! j).
      * first [done | by rewrite bool_decide_eq_false_2].
    + first [done | by rewrite bool_decide_eq_false_2].
  - destruct (find_index _ (mockRequests w)) as [j|] eqn:Hj.
    + exact (Hins (mockRequests w) j Hold).
    + first [done | by rewrite bool_decide_eq_false_2].
Qed.

(** C10: [router.put('/:id')] removes [request_id] and [created_at]
    from the values it applies.  Every record of the store has after
    the call the [request_id] and the [created_at] it had before,
    whatever the body holds; the record with the identifier of the route
    becomes [{...record, ...updateData}], in which only the fields of
    [updateData] (the other fields of the body, and [updated_at]) can
    differ, and every other record is unchanged. *)
Theorem put_keeps_read_only_fields (id : string) (body : Obj) (w : World)
    (i : nat) (old : Obj) :
  stored w !! i = Some old ->
  let updateData := updateData_of (clock w) body in
  obj_get "request_id" updateData = None /\
  obj_get "created_at" updateData = None /\
  exists new, stored (exec (router_put id body) w) !! i = Some new /\
    obj_get "request_id" new = obj_get "request_id" old /\
    obj_get "created_at" new = obj_get "created_at" old /\
    (put_target id w = Some i -> new = obj_spread old updateData) /\
    (put_target id w ≠ Some i -> new = old) /\
    (forall k, obj_get k updateData = None -> obj_get k new = obj_get k old).
Proof.
  intros Hold updateData.
  destruct (updateData_read_only (clock w) body) as [Hrid Hcat].
  split; [exact Hrid|]. split; [exact Hcat|].
  eexists. split; [by apply put_stored_lookup|].
  fold updateData. case_bool_decide as Ht.
  - repeat split; try done.
    + by apply obj_get_spread_absent.
    + by apply obj_get_spread_absent.
    + intros k Hk. by apply obj_get_spread_absent.
  - repeat split; done.
Qed.

(** An administrator confirms the third request and sends, with the new
    status, other values for the two read-only fields. *)
Lemma put_keeps_read_only_fields_witness :
  let w := initial_world None None false 1700000000000 in
  let body := [("request_id", JStr "DR-0000-000000");
               ("created_at", JStr "1999-01-01T00:00:00.000Z");
               ("status", JStr "confirmed")] in
  exists old new,
    stored w !! 2%nat = Some old /\
    stored (exec (router_put "DR-2024-001236" body) w) !! 2%nat = Some new /\
    obj_get "request_id" new = Some (JStr "DR-2024-001236") /\
    obj_get "created_at" new = Some (JStr "2024-01-09T16:20:00.000Z") /\
    obj_get "status" new = Some (JStr "confirmed").
Proof.
  intros w body.
  assert (Hold : stored w !! 2%nat = nth_error mockRequests_initial 2) by reflexivity.
  destruct (nth_error mockRequests_initial 2) as [old|] eqn:Hn; [|discriminate Hn].
  destruct (put_keeps_read_only_fields "DR-2024-001236" body w 2%nat old Hold)
    as (_ & _ & new & Hnew & Hrid & Hcat & Htarget & _).
  exists old, new. split; [exact Hold|]. split; [exact Hnew|].
  injection Hn as <-.
  split; [exact Hrid|]. split; [exact Hcat|].
  rewrite (Htarget eq_refl). reflexivity.
Defined.

(** ** The invocations of [broadcastToClients] by the routes *)

Lemma broadcast_hook_calls eventType data w :
  calls (snd (broadcast_hook eventType data w)) = calls w ++ hook_calls w eventType data.
Proof.
  destruct (broadcast_hook_frame eventType data w) as (_ & _ & _ & _ & -> & _).
  unfold hook_calls. case_bool_decide; [done|by rewrite app_nil_r].
Qed.

Lemma hook_then_reply {A : Type} eventType data (r : A) w :
  calls (snd ((broadcast_hook eventType data ;; mret r) w))
  = calls w ++ hook_calls w eventType data.
Proof.
  rewrite bind_eq. pose proof (broadcast_hook_calls eventType data w) as H.
  by destruct (broadcast_hook eventType data w) as [[[]|e] w1].
Qed.

Lemma try_catch_failure_calls (body : M World HttpResponse) msg w :
  calls (snd (try_catch body (failure msg) w)) = calls (snd (body w)).
Proof. unfold try_catch. by destruct (body w) as [[r|e] w1]. Qed.

(** The calls of [router.delete('/:id')]. *)
Lemma delete_calls id w :
  calls (exec (router_delete id) w) = calls w ++
  match supabase w with
  | Some db =>
      match fst (pg_delete id db) with
      | ReplyError _ => []
      | _ => hook_calls w "request-deleted" (deleted_event id)
      end
  | None =>
      match find_index (has_request_id id) (mockRequests w) with
      | Some _ => hook_calls w "request-deleted" (deleted_event id)
      | None => []
      end
  end.
Proof.
  unfold exec, router_delete. rewrite try_catch_failure_calls.
  rewrite bind_eq. unfold gets at 1.
  destruct (supabase w) as [db|] eqn:Hsb.
  - rewrite bind_eq. unfold query.
    destruct (pg_delete id db) as [reply db'] eqn:Hq. cbn [fst].
    destruct reply as [row| |e].
    + by rewrite hook_then_reply.
    + by rewrite hook_then_reply.
    + simpl. by rewrite app_nil_r.
  - rewrite bind_eq. unfold gets at 1.
    destruct (find_index (has_request_id id) (mockRequests w)) as [i|] eqn:Hi.
    + rewrite bind_eq. unfold modify at 1. by rewrite hook_then_reply.
    + simpl. by rewrite app_nil_r.
Qed.

(** The calls of [router.put('/:id')]. *)
Lemma put_calls id body w :
  calls (exec (router_put id body) w) = calls w ++
  match supabase w with
  | Some db =>
      match fst (pg_update (updateData_of (clock w) body) id db) with
      | ReplyData data => hook_calls w "request-updated" (updated_event data)
      | _ => []
      end
  | None =>
      match find_index (has_request_id id) (mockRequests w) with
      | Some i =>
          match mockRequests w !! i with
          | Some old =>
              hook_calls w "request-updated"
                (updated_event (obj_spread old (updateData_of (clock w) body)))
          | None => []
          end
      | None => []
      end
  end.
Proof.
  unfold exec, router_put. rewrite try_catch_failure_calls.
  rewrite bind_eq. unfold gets at 1. rewrite bind_eq. unfold gets at 1.
  destruct (supabase w) as [db|] eqn:Hsb.
  - rewrite bind_eq. unfold query.
    destruct (pg_update (updateData_of (clock w) body) id db) as [reply db'] eqn:Hq.
    cbn [fst]. rewrite bind_eq. unfold gets at 1.
    destruct reply as [row| |e].
    + by rewrite hook_then_reply.
    + destruct (bool_decide _); simpl; by rewrite app_nil_r.
    + destruct (String.eqb (code e) "PGRST116"); simpl; by rewrite app_nil_r.
  - rewrite bind_eq. unfold gets at 1.
    destruct (find_index (has_request_id id) (mockRequests w)) as [i|] eqn:Hi.
    + destruct (mockRequests w !! i) as [old|] eqn:Hold.
      * rewrite bind_eq. unfold modify at 1. by rewrite hook_then_reply.
      * simpl. by rewrite app_nil_r.
    + simpl. by rewrite app_nil_r.
Qed.

(** The calls of [router.post('/')], the middleware included. *)
Lemma post_calls Date_parse rnd body w :
  calls (exec (router_post Date_parse rnd body) w) = calls w ++
  match validation_errors Date_parse (clock w) body with
  | Returned [] =>
      match supabase w with
      | Some db =>
          match fst (pg_insert (requestData_of (clock w) rnd body) db) with
          | ReplyData data => hook_calls w "request-created" (created_event data)
          | _ => []
          end
      | None =>
          hook_calls w "request-created"
            (created_event (requestData_of (clock w) rnd body))
      end
  | _ => []
  end.
Proof.
  unfold exec, router_post. rewrite bind_eq. unfold gets at 1.
  destruct (validation_errors Date_parse (clock w) body) as [[|err errs]|e].
  - unfold post_handler. rewrite try_catch_failure_calls.
    rewrite bind_eq. unfold gets at 1. rewrite bind_eq. unfold gets at 1.
    destruct (supabase w) as [db|] eqn:Hsb.
    + rewrite bind_eq. unfold query.
      destruct (pg_insert (requestData_of (clock w) rnd body) db) as [reply db'] eqn:Hq.
      cbn [fst]. rewrite bind_eq. unfold gets at 1.
      destruct reply as [row| |e].
      * by rewrite hook_then_reply.
      * destruct (bool_decide _); simpl; by rewrite app_nil_r.
      * simpl. by rewrite app_nil_r.
    + rewrite bind_eq. unfold modify at 1. by rewrite hook_then_reply.
  - simpl. by rewrite app_nil_r.
  - simpl. by rewrite app_nil_r.
Qed.

(** A request that the middleware rejects reaches no handler. *)
Lemma rejected_post_no_broadcast Date_parse rnd body w :
  validation_errors Date_parse (clock w) body ≠ Returned [] ->
  calls (exec (router_post Date_parse rnd body) w) = calls w.
Proof.
  intros H. rewrite post_calls.
  destruct (validation_errors Date_parse (clock w) body) as [[|err errs]|e];
    [done|by rewrite app_nil_r|by rewrite app_nil_r].
Qed.

(** A store that cannot be reached: the three handlers answer 500 and
    make no call. *)
Lemma store_failure_no_broadcast Date_parse rnd id body db w :
  supabase w = Some db -> online db = false ->
  calls (exec (router_post Date_parse rnd body) w) = calls w /\
  calls (exec (router_put id body) w) = calls w /\
  calls (exec (router_delete id) w) = calls w.
Proof.
  intros Hsb Hoff. rewrite post_calls, put_calls, delete_calls, Hsb.
  unfold pg_insert, pg_update, pg_delete. rewrite Hoff. simpl.
  rewrite app_nil_r. split; [|done].
  by destruct (validation_errors Date_parse (clock w) body) as [[|err errs]|e];
    rewrite app_nil_r.
Qed.

(** An identifier that no record has: [router.put] makes no call in
    either store. *)
Lemma put_unknown_no_broadcast id body w :
  put_target id w = None -> calls (exec (router_put id body) w) = calls w.
Proof.
  intros Ht. rewrite put_calls. unfold put_target in Ht.
  destruct (supabase w) as [db|].
  - unfold pg_update. destruct (online db); simpl; [|by rewrite app_nil_r].
    rewrite Ht. simpl. by rewrite app_nil_r.
  - rewrite Ht. by rewrite app_nil_r.
Qed.

(** With the mock store, [router.delete] makes no call for an
    identifier that no record has. *)
Lemma delete_unknown_mock_no_broadcast id w :
  supabase w = None -> find_index (has_request_id id) (mockRequests w) = None ->
  calls (exec (router_delete id) w) = calls w.
Proof. intros Hsb Hi. rewrite delete_calls, Hsb, Hi. by rewrite app_nil_r. Qed.

(** With the mock store and the events module loaded, a change of the
    store makes exactly one call, with the type of the change and the
    record, or the identifier for a deletion. *)
Lemma mock_success_one_broadcast Date_parse rnd id body w i old :
  supabase w = None -> is_Some (sseEvents w) ->
  (validation_errors Date_parse (clock w) body = Returned [] ->
   calls (exec (router_post Date_parse rnd body) w) =
     calls w ++ [("request-created", created_event (requestData_of (clock w) rnd body))]) /\
  (find_index (has_request_id id) (mockRequests w) = Some i ->
   mockRequests w !! i = Some old ->
   calls (exec (router_put id body) w) =
     calls w ++ [("request-updated",
                  updated_event (obj_spread old (updateData_of (clock w) body)))]) /\
  (find_index (has_request_id id) (mockRequests w) = Some i ->
   calls (exec (router_delete id) w) =
     calls w ++ [("request-deleted", deleted_event id)]).
Proof.
  intros Hsb Hev. rewrite post_calls, put_calls, delete_calls, Hsb.
  unfold hook_calls. rewrite bool_decide_eq_true_2 by done.
  split; [by intros ->|]. split; [by intros -> ->|by intros ->].
Qed.

(** C2 at the failing input: the Supabase store holds the three initial
    records, the events module is loaded, and [DELETE /api/requests/:id]
    is called with an identifier that no record has.  The store deletes
    nothing and reports no error; the handler answers success and calls
    [broadcastToClients] with [request-deleted].  With the mock store the
    same request is answered 404 without a call, and so is a [PUT] of
    that identifier in either store. *)
Theorem delete_unknown_id_still_broadcasts :
  let id := "DR-2024-999999" in
  let db := {| rows := mockRequests_initial; online := true |} in
  let events := Some (empty_store 1700000000000) in
  let w := initial_world (Some db) events false 1700000000000 in
  let w_mock := initial_world None events false 1700000000000 in
  find_index (fun r => String.eqb (row_id r) id) (rows db) = None /\
  fst (router_delete id w) = Returned deleted_ok /\
  stored (exec (router_delete id) w) = stored w /\
  calls (exec (router_delete id) w) = [("request-deleted", deleted_event id)] /\
  fst (router_delete id w_mock) = Returned not_found /\
  calls (exec (router_delete id) w_mock) = [] /\
  fst (router_put id [] w) = Returned not_found /\
  calls (exec (router_put id []) w) = [].
Proof. vm_compute. repeat split. Qed.

(** ** From a request to the subscribers *)

(** A valid [POST] with the mock store and one subscriber: the record is
    stored first, the answer is 201, and the subscriber has received the
    two chunks of one [request-created] event. *)
Lemma post_reaches_subscriber :
  let t := 1700000000000 in
  let events := run [Connect [] false] (empty_store t) in
  let w := initial_world None (Some events) false t in
  let body := [("clientName", JStr "Ada Lovelace");
               ("email", JStr "ada@example.org");
               ("phone", JStr "(555) 000-1111");
               ("serviceType", JStr "mapping");
               ("location", JStr "12 Analytical Street, London");
               ("preferredDate", JStr "2030-01-15");
               ("preferredTime", JStr "morning");
               ("description", JStr "Survey of the northern field before sowing.")] in
  let result := router_post parse_date_only 42 body w in
  match fst result with
  | Returned reply => status reply = 201
  | Thrown _ => False
  end /\
  (obj_get "request_id" <$> head (mockRequests (snd result)))
    = Some (Some (JStr "DR-2023-000042")) /\
  length (calls (snd result)) = 1%nat /\
  (fst <$> head (calls (snd result))) = Some "request-created" /\
  match sseEvents (snd result) with
  | Some st =>
      ((take 1 ∘ drop 1 ∘ written ∘ response) <$> heap st !! 0%nat)
        = Some ["event: request-created" +:+ LF] /\
      ((length ∘ written ∘ response) <$> heap st !! 0%nat) = Some 3%nat
  | None => False
  end.
Proof. vm_compute. repeat split. Qed.

(** * More of [routes/events.js] *)

(** ** [sendToClient] *)

Lemma find_by_id_Some clientId s c :
  find_by_id clientId s = Some c ->
  c ∈ sseClients s /\ exists cl, heap s !! c = Some cl /\ id cl = clientId.
Proof.
  unfold find_by_id. intros H. apply find_some in H as [Hin Hp].
  split; [by apply list_elem_of_In|].
  destruct (heap s !! c) as [cl|]; [|done].
  exists cl. split; [done|]. by apply bool_decide_eq_true in Hp.
Qed.

Lemma find_by_id_None clientId s c cl :
  find_by_id clientId s = None -> c ∈ sseClients s -> heap s !! c = Some cl ->
  id cl ≠ clientId.
Proof.
  unfold find_by_id. intros H Hin Hcl Hid.
  pose proof (find_none _ _ H c (proj1 (list_elem_of_In _ _) Hin)) as Hp.
  simpl in Hp. rewrite Hcl in Hp. by rewrite bool_decide_eq_true_2 in Hp.
Qed.

(** [sendToClient] on the client it finds: nothing for a destroyed
    response, and else the visit of a broadcast. *)
Lemma sendToClient_eq clientId eventType data s c cl :
  find_by_id clientId s = Some c -> heap s !! c = Some cl ->
  sendToClient clientId eventType data s =
  (Returned tt,
   if destroyed (response cl) then s
   else apply_local
          (broadcast_client eventType
             (stringify (event_message eventType data (toISOString (now s))))) c s).
Proof.
  intros Hf Hc. unfold sendToClient. rewrite bind_eq. unfold gets at 1. rewrite Hf.
  rewrite bind_eq, (is_open_eq _ _ _ Hc).
  destruct (destroyed (response cl)) eqn:Hd; simpl; [done|].
  unfold apply_local, broadcast_client, try_catch, Date_iso. rewrite Hc, Hd.
  rewrite bind_eq. unfold gets at 1.
  unfold write_event. rewrite bind_eq, (res_write_eq _ _ _ _ Hc).
  destruct (response_write _ (response cl)) as [r1|e] eqn:Hw1; simpl; [|done].
  rewrite (res_write_eq _ _ _ (with_response r1 cl))
    by (by apply lookup_set_heap_insert with cl).
  simpl. destruct (response_write _ r1) as [r2|e] eqn:Hw2; simpl.
  - by rewrite insert_twice.
  - by rewrite insert_twice.
Qed.

Lemma sendToClient_absent clientId eventType data s :
  find_by_id clientId s = None ->
  sendToClient clientId eventType data s = (Returned tt, s).
Proof.
  intros Hf. unfold sendToClient. rewrite bind_eq. unfold gets at 1. by rewrite Hf.
Qed.

(** X1: [sendToClient] always returns.  When no client of the set has
    the [id], the store is unchanged.  Otherwise it acts on one client of
    the set with that [id] and on no other: nothing at all when
    its response is destroyed (the client is not even dropped, unlike in a
    broadcast); else the two chunks of the event are appended when the
    transport accepts them, and the client is dropped from the set when a
    write throws. *)
Theorem sendToClient_addresses_one (clientId : Z) (eventType : string) (data : JSON)
    (s : Store) :
  let message := stringify (event_message eventType data (toISOString (now s))) in
  let s' := exec (sendToClient clientId eventType data) s in
  returns (sendToClient clientId eventType data) s = true /\
  match find_by_id clientId s with
  | None => s' = s
  | Some c =>
      c ∈ sseClients s /\
      (forall c', c' ≠ c ->
         heap s' !! c' = heap s !! c' /\ (c' ∈ sseClients s' <-> c' ∈ sseClients s)) /\
      exists cl cl',
        heap s !! c = Some cl /\ id cl = clientId /\ heap s' !! c = Some cl' /\
        (destroyed (response cl) = true -> s' = s) /\
        (destroyed (response cl) = false ->
           (accepts 2 (writeScript (response cl)) = true ->
              written (response cl') =
                written (response cl) ++ [event_line eventType; event_data_line message] /\
              c ∈ sseClients s') /\
           (accepts 2 (writeScript (response cl)) = false -> c ∉ sseClients s'))
  end.
Proof.
  intros message s'. destruct (find_by_id clientId s) as [c|] eqn:Hf.
  - destruct (find_by_id_Some _ _ _ Hf) as (Hin & cl & Hcl & Hid).
    assert (Heq := sendToClient_eq clientId eventType data s c cl Hf Hcl).
    fold message in Heq.
    split; [unfold returns; by rewrite Heq|].
    assert (Hs' : s' = if destroyed (response cl) then s
                       else apply_local (broadcast_client eventType message) c s).
    { unfold s', exec. by rewrite Heq. }
    split; [done|].
    destruct (broadcast_client_cases eventType message cl)
      as (_ & _ & _ & _ & _ & Hlive).
    destruct (destroyed (response cl)) eqn:Hd.
    + split; [by rewrite Hs'|]. exists cl, cl. rewrite Hs'.
      split; [done|]. split; [done|]. split; [done|]. split; [done|].
      intros Hx. congruence.
    + split.
      { intros c' Hne. rewrite Hs'. by apply apply_local_other. }
      destruct (apply_local_self (broadcast_client eventType message) c s cl Hcl)
        as [Hh Hm].
      rewrite <- Hs' in Hh, Hm.
      eexists cl, _. split; [done|]. split; [done|]. split; [exact Hh|].
      split; [intros Hx; congruence|].
      intros _. destruct (Hlive eq_refl) as (_ & Hok & Hko). split.
      * intros Ha. destruct (Hok Ha) as [Hw Hk]. split; [done|]. by apply Hm.
      * intros Ha. destruct (Hko Ha) as [Hk _]. rewrite Hm, Hk. naive_solver.
  - assert (Heq := sendToClient_absent clientId eventType data s Hf).
    split; [unfold returns; by rewrite Heq|]. unfold s', exec. by rewrite Heq.
Qed.

(** ** The admission *)

(** The admission in a store where the next address is not in the set. *)
Lemma connect_eq res s :
  length (heap s) ∉ sseClients s ->
  let c := length (heap s) in
  let res0 := response_writeHead 200 sseHeaders res in
  connect res s =
  match response_write (data_line (connected_message (toISOString (now s)))) res0 with
  | Returned r =>
      (Returned c,
       {| now := now s;
          heap := heap s ++ [{| id := now s; response := r; lastPing := now s |}];
          sseClients := sseClients s ++ [c];
          intervals := intervals s ++ [c];
          listeners := listeners s ++ [c] |})
  | Thrown e =>
      (Thrown e,
       {| now := now s;
          heap := heap s ++ [{| id := now s; response := response_skip res0;
                                lastPing := now s |}];
          sseClients := sseClients s ++ [c];
          intervals := intervals s;
          listeners := listeners s |})
  end.
Proof.
  intros Hfresh c res0.
  unfold connect, Date_now, Date_iso.
  rewrite bind_eq. unfold gets at 1. rewrite bind_eq. unfold gets at 1.
  rewrite bind_eq. unfold alloc at 1. rewrite bind_eq. unfold Set_add, modify at 1.
  fold res0. fold c.
  set (cl0 := {| id := now s; response := res0; lastPing := now s |}).
  assert (Hs1 : (if bool_decide (c ∈ sseClients (set_heap (heap s ++ [cl0]) s))
                 then set_heap (heap s ++ [cl0]) s
                 else set_clients (sseClients (set_heap (heap s ++ [cl0]) s) ++ [c])
                        (set_heap (heap s ++ [cl0]) s))
                = {| now := now s; heap := heap s ++ [cl0];
                     sseClients := sseClients s ++ [c];
                     intervals := intervals s; listeners := listeners s |}).
  { simpl. by rewrite bool_decide_eq_false_2. }
  rewrite Hs1. set (s1 := {| now := now s; heap := heap s ++ [cl0] |}).
  assert (Hc : heap s1 !! c = Some cl0) by (simpl; by rewrite list_lookup_middle).
  rewrite bind_eq. unfold gets at 1. rewrite bind_eq.
  rewrite (res_write_eq _ _ _ _ Hc).
  assert (Hins : forall x, <[c := x]> (heap s1) = heap s ++ [x]).
  { intros x. simpl. unfold c. rewrite insert_app_r_alt by lia.
    by replace (length (heap s) - length (heap s))%nat with 0%nat by lia. }
  simpl response. destruct (response_write _ res0) as [r|e].
  - rewrite Hins. reflexivity.
  - rewrite Hins. reflexivity.
Qed.

(** ** Timers, handlers and the order of the [id]s *)

Lemma timers_evolve_same s s' :
  intervals s' = intervals s -> listeners s' = listeners s -> timers_evolve s s'.
Proof. intros Hi Hl. split; [by rewrite Hi|done]. Qed.

Lemma on_close_timers c s : timers_evolve s (exec (on_close c) s).
Proof.
  unfold exec. rewrite on_close_eq. split; [|done]. simpl.
  intros c0. rewrite list_elem_of_filter. naive_solver.
Qed.

Lemma heartbeat_timers c s : timers_evolve s (exec (heartbeat c) s).
Proof.
  unfold exec. destruct (heap s !! c) as [cl|] eqn:Hc.
  - rewrite (heartbeat_eq _ _ _ Hc). cbn [snd].
    destruct (response_write _ (response cl)) as [r|e].
    + by apply timers_evolve_same.
    + destruct (on_close_timers c
        (set_heap (<[c := with_response (response_skip (response cl)) cl]> (heap s)) s))
        as [Hi Hl].
      split; [exact Hi|exact Hl].
  - rewrite (heartbeat_dangling _ _ Hc). apply on_close_timers.
Qed.

Lemma sendToClient_timers clientId eventType data s :
  timers_evolve s (exec (sendToClient clientId eventType data) s).
Proof.
  unfold exec. destruct (find_by_id clientId s) as [c|] eqn:Hf.
  - destruct (find_by_id_Some _ _ _ Hf) as (_ & cl & Hcl & _).
    rewrite (sendToClient_eq _ _ _ _ _ _ Hf Hcl). cbn [snd].
    destruct (destroyed (response cl)); [by apply timers_evolve_same|].
    destruct (apply_local_frame
      (broadcast_client eventType
         (stringify (event_message eventType data (toISOString (now s))))) c s)
      as (_ & Hi & Hl & _).
    by apply timers_evolve_same.
  - rewrite (sendToClient_absent _ _ _ _ Hf). by apply timers_evolve_same.
Qed.

Lemma broadcast_timers eventType data s :
  wf s ->
  intervals (exec (broadcastToClients eventType data) s) = intervals s /\
  listeners (exec (broadcastToClients eventType data) s) = listeners s.
Proof.
  intros Hwf. unfold exec. rewrite (broadcast_run _ _ _ Hwf). cbn [snd].
  destruct (run_local_frame
    (broadcast_client eventType
       (stringify (event_message eventType data (toISOString (now s)))))
    (sseClients s) s) as (_ & Hi & Hl & _).
  done.
Qed.

Lemma cleanup_timers s :
  wf s ->
  intervals (exec cleanupConnections s) = intervals s /\
  listeners (exec cleanupConnections s) = listeners s.
Proof.
  intros Hwf. unfold exec. rewrite (cleanup_run _ Hwf). cbn [snd].
  destruct (run_local_frame (cleanup_client (now s)) (sseClients s) s)
    as (_ & Hi & Hl & _).
  done.
Qed.

Lemma destroy_timers c s :
  intervals (destroy c s) = intervals s /\ listeners (destroy c s) = listeners s.
Proof. unfold destroy. by destruct (heap s !! c). Qed.

Lemma evolves_known s s' :
  pings_in_past s -> timers_known s -> ids_ordered s ->
  evolves s s' -> timers_evolve s s' ->
  timers_known s' /\ ids_ordered s'.
Proof.
  intros Hp (Hi & Hl & Hil) (Hidp & Hsort) (Hn & Hlen & _ & _ & Hcells) (Hti & Htl).
  split; [split; [|split]|split].
  - intros c Hc. rewrite Hlen. by apply Hi, Hti.
  - intros c Hc. rewrite Hlen. apply Hl. by rewrite <- Htl.
  - intros c Hc. rewrite Htl. by apply Hil, Hti.
  - intros c cl' Hc. destruct (Hcells c cl' Hc) as (cl & Hcl & Hid & Hping).
    rewrite Hid. specialize (Hidp c cl Hcl). specialize (Hp c cl Hcl).
    destruct Hping as [-> | ->]; lia.
  - intros i j ci cj Hij Hci Hcj.
    destruct (Hcells i ci Hci) as (ci0 & Hci0 & -> & _).
    destruct (Hcells j cj Hcj) as (cj0 & Hcj0 & -> & _).
    by apply (Hsort i j).
Qed.

Lemma connect_known res s :
  inv s -> timers_known s -> ids_ordered s ->
  timers_known (exec (connect res) s) /\ ids_ordered (exec (connect res) s).
Proof.
  intros [[Hnd Hv] Hp] (Hi & Hl & Hil) (Hidp & Hsort).
  assert (Hfresh : length (heap s) ∉ sseClients s).
  { intros Hin. specialize (Hv _ Hin). lia. }
  unfold exec. rewrite (connect_eq res s Hfresh).
  set (res0 := response_writeHead 200 sseHeaders res).
  assert (Hnew : forall (r : Response) (l1 l2 : list nat),
    (forall c, c ∈ l1 -> c ∈ intervals s \/ c = length (heap s)) ->
    (forall c, c ∈ l2 -> c ∈ listeners s \/ c = length (heap s)) ->
    (forall c, c ∈ l1 -> c ∈ l2) ->
    let s' := {| now := now s;
                 heap := heap s ++ [{| id := now s; response := r; lastPing := now s |}];
                 sseClients := sseClients s ++ [length (heap s)];
                 intervals := l1; listeners := l2 |} in
    timers_known s' /\ ids_ordered s').
  { intros r l1 l2 H1 H2 H12 s'. split; [split; [|split]|split]; simpl.
    - intros c Hc. rewrite length_app. simpl.
      destruct (H1 c Hc) as [Hc'| ->]; [specialize (Hi c Hc')|]; lia.
    - intros c Hc. rewrite length_app. simpl.
      destruct (H2 c Hc) as [Hc'| ->]; [specialize (Hl c Hc')|]; lia.
    - exact H12.
    - intros c cl Hc. apply lookup_app_Some in Hc as [Hc|[_ Hc]]; [by eapply Hidp|].
      apply list_lookup_singleton_Some in Hc as [_ <-]. simpl. lia.
    - intros i j ci cj Hij Hci Hcj.
      apply lookup_app_Some in Hcj as [Hcj|[Hjl Hcj]].
      + assert (Hi' : heap s !! i = Some ci).
        { apply lookup_app_Some in Hci as [Hci|[Hil' _]]; [done|].
          apply lookup_lt_Some in Hcj. lia. }
        by apply (Hsort i j).
      + apply list_lookup_singleton_Some in Hcj as [_ <-]. simpl.
        apply lookup_app_Some in Hci as [Hci|[_ Hci]].
        * specialize (Hidp i ci Hci). specialize (Hp i ci Hci). lia.
        * apply list_lookup_singleton_Some in Hci as [_ <-]. simpl. lia. }
  destruct (response_write _ res0) as [r|e]; cbn [snd].
  - apply Hnew.
    + intros c. rewrite elem_of_app, list_elem_of_singleton. tauto.
    + intros c. rewrite elem_of_app, list_elem_of_singleton. tauto.
    + intros c. rewrite !elem_of_app, !list_elem_of_singleton.
      intros [Hc|Hc]; [left; by apply Hil|by right].
  - apply Hnew; [tauto|tauto|exact Hil].
Qed.

Lemma step_known e s :
  inv s -> timers_known s -> ids_ordered s ->
  timers_known (step e s) /\ ids_ordered (step e s).
Proof.
  intros Hinv Htk Hio. pose proof Hinv as [Hwf Hp].
  assert (Hstay : timers_known s /\ ids_ordered s) by done.
  destruct e; simpl.
  - by apply connect_known.
  - case_bool_decide; [|done].
    apply (evolves_known s); [done|done|done|apply heartbeat_evolves|apply heartbeat_timers].
  - case_bool_decide; [|done].
    apply (evolves_known s); [done|done|done|apply on_close_evolves|apply on_close_timers].
  - case_bool_decide; [|done].
    apply (evolves_known s); [done|done|done|apply on_close_evolves|apply on_close_timers].
  - apply (evolves_known s); [done|done|done|by apply broadcast_evolves|].
    destruct (broadcast_timers eventType data s Hwf). by apply timers_evolve_same.
  - apply (evolves_known s);
      [done|done|done|apply sendToClient_evolves|apply sendToClient_timers].
  - apply (evolves_known s); [done|done|done|by apply cleanup_evolves|].
    destruct (cleanup_timers s Hwf). by apply timers_evolve_same.
  - exact Hstay.
  - apply (evolves_known s); [done|done|done|apply destroy_evolves|].
    destruct (destroy_timers client s). by apply timers_evolve_same.
Qed.

Lemma reachable_known s : reachable s -> timers_known s /\ ids_ordered s.
Proof.
  intros (t0 & events & ->).
  assert (H : forall s0, inv s0 -> timers_known s0 /\ ids_ordered s0 ->
            timers_known (run events s0) /\ ids_ordered (run events s0)).
  { induction events as [|e events IH]; intros s0 Hi [Htk Hio]; [done|].
    unfold run in *. simpl. apply IH; [by apply step_inv|by apply step_known]. }
  apply H.
  - apply (reachable_inv (empty_store t0)). by exists t0, [].
  - split; [split; [|split]|split]; simpl.
    + intros c Hc. by apply elem_of_nil in Hc.
    + intros c Hc. by apply elem_of_nil in Hc.
    + done.
    + intros c cl Hc. by rewrite lookup_nil in Hc.
    + intros i j ci cj _ Hc. by rewrite lookup_nil in Hc.
Qed.

(** X2: the state of the registry in every reachable state.  The set
    has no client twice and holds only client objects; every armed timer
    and every installed handler belongs to a client object, and a timer
    is armed only where the handlers are installed; for every client
    [id <= lastPing <= now]; and the [id]s do not decrease in the order
    of the admissions. *)
Theorem registry_invariants (s : Store) :
  reachable s ->
  NoDup (sseClients s) /\
  (forall c, c ∈ sseClients s -> is_Some (heap s !! c)) /\
  (forall c, c ∈ intervals s -> is_Some (heap s !! c) /\ c ∈ listeners s) /\
  (forall c, c ∈ listeners s -> is_Some (heap s !! c)) /\
  (forall c cl, heap s !! c = Some cl -> id cl <= lastPing cl <= now s) /\
  (forall i j ci cj, (i <= j)%nat -> heap s !! i = Some ci -> heap s !! j = Some cj ->
     id ci <= id cj).
Proof.
  intros Hr. destruct (reachable_inv s Hr) as [[Hnd Hv] Hp].
  destruct (reachable_known s Hr) as [(Hi & Hl & Hil) (Hidp & Hsort)].
  split; [done|]. split; [intros c Hc; by apply lookup_lt_is_Some_2, Hv|].
  split; [intros c Hc; split; [by apply lookup_lt_is_Some_2, Hi|by apply Hil]|].
  split; [intros c Hc; by apply lookup_lt_is_Some_2, Hl|].
  split; [|done]. intros c cl Hc. split; [by eapply Hidp|by eapply Hp].
Qed.

Lemma registry_invariants_witness :
  let s := run [Connect [] false; Elapse 5; Connect [false; true] false;
                Broadcast "request-updated" JNull; Elapse 30000; HeartbeatFires 0%nat]
               (empty_store 1700000000000) in
  reachable s /\ NoDup (sseClients s) /\
  sseClients s = [0%nat] /\ intervals s = [0%nat; 1%nat].
Proof.
  assert (Hr : reachable
    (run [Connect [] false; Elapse 5; Connect [false; true] false;
          Broadcast "request-updated" JNull; Elapse 30000; HeartbeatFires 0%nat]
         (empty_store 1700000000000))).
  { exists 1700000000000,
      [Connect [] false; Elapse 5; Connect [false; true] false;
       Broadcast "request-updated" JNull; Elapse 30000; HeartbeatFires 0%nat].
    reflexivity. }
  split; [exact Hr|]. split; [exact (proj1 (registry_invariants _ Hr))|].
  vm_compute. done.
Defined.

(** X3: an admission whose first write is accepted returns the new
    client.  The client is a new object with [id] and [lastPing] equal to
    the time of the clock; the status 200 and the headers of an event
    stream are sent, and the [connected] message is the first chunk after
    what the response already held; the client joins the end of the set,
    its timer is armed and its handlers are installed; no other object
    changes. *)
Theorem admission_registers (res : Response) (s : Store) :
  reachable s ->
  accepts 1 (writeScript res) = true ->
  let c := length (heap s) in
  let s' := exec (connect res) s in
  fst (connect res s) = Returned c /\
  (c ∉ sseClients s) /\
  sseClients s' = sseClients s ++ [c] /\
  intervals s' = intervals s ++ [c] /\
  listeners s' = listeners s ++ [c] /\
  now s' = now s /\
  exists cl, heap s' = heap s ++ [cl] /\
    id cl = now s /\ lastPing cl = now s /\
    sentHead (response cl) = Some (200, sseHeaders) /\
    written (response cl) =
      written res ++
      ["data: " +:+ stringify (JObj [("type", JStr "connected");
                                     ("message", JStr "Real-time connection established");
                                     ("timestamp", JStr (toISOString (now s)))])
       +:+ LF +:+ LF] /\
    destroyed (response cl) = destroyed res /\ ended (response cl) = ended res.
Proof.
  intros Hr Ha c s'. destruct (reachable_inv s Hr) as [[Hnd Hv] _].
  assert (Hfresh : length (heap s) ∉ sseClients s).
  { intros Hin. specialize (Hv _ Hin). lia. }
  assert (Heq := connect_eq res s Hfresh). cbv zeta in Heq.
  assert (Ha' : accepts 1 (writeScript (response_writeHead 200 sseHeaders res)) = true)
    by done.
  destruct (response_write_accepted
    (data_line (connected_message (toISOString (now s)))) _ Ha')
    as (r & Hw & Hwr & _ & Hd & He & Hh).
  rewrite Hw in Heq. unfold s', exec. rewrite Heq. cbn [fst snd].
  split; [done|]. split; [done|]. split; [done|]. split; [done|]. split; [done|].
  split; [done|]. eexists. split; [done|]. simpl.
  split; [done|]. split; [done|]. split; [by rewrite Hh|]. split; [by rewrite Hwr|].
  by rewrite Hd, He.
Qed.

Lemma admission_registers_witness :
  let s := run [Connect [] false; Elapse 1000] (empty_store 1700000000000) in
  reachable s /\
  fst (connect (fresh_response [] false) s) = Returned 1%nat /\
  sseClients (exec (connect (fresh_response [] false)) s) = [0%nat; 1%nat].
Proof.
  assert (Hr : reachable (run [Connect [] false; Elapse 1000] (empty_store 1700000000000))).
  { exists 1700000000000, [Connect [] false; Elapse 1000]. reflexivity. }
  split; [exact Hr|].
  split; [exact (proj1 (admission_registers (fresh_response [] false) _ Hr eq_refl))|].
  vm_compute. reflexivity.
Defined.

(** X4: an admission whose first write throws.  The exception leaves
    the handler after the client has joined the set, and before the timer
    and the handlers exist: the client is registered with no heartbeat,
    and a [close] or [error] of its request or a heartbeat tick for it
    changes nothing. *)
Theorem admission_failed_write (res : Response) (s : Store) :
  reachable s ->
  accepts 1 (writeScript res) = false ->
  let c := length (heap s) in
  let s' := exec (connect res) s in
  returns (connect res) s = false /\
  c ∈ sseClients s' /\ (c ∉ intervals s') /\ (c ∉ listeners s') /\
  step (CloseSignal c) s' = s' /\
  step (ErrorSignal c) s' = s' /\
  step (HeartbeatFires c) s' = s'.
Proof.
  intros Hr Ha c s'. destruct (reachable_inv s Hr) as [[Hnd Hv] _].
  destruct (reachable_known s Hr) as [(Hi & Hl & _) _].
  assert (Hfresh : length (heap s) ∉ sseClients s).
  { intros Hin. specialize (Hv _ Hin). lia. }
  assert (Heq := connect_eq res s Hfresh). cbv zeta in Heq.
  assert (Ha' : accepts 1 (writeScript (response_writeHead 200 sseHeaders res)) = false)
    by done.
  destruct (response_write_refused
    (data_line (connected_message (toISOString (now s)))) _ Ha') as (e & Hw).
  rewrite Hw in Heq.
  assert (Hni : c ∉ intervals s) by (intros Hin; specialize (Hi _ Hin); unfold c in *; lia).
  assert (Hnl : c ∉ listeners s) by (intros Hin; specialize (Hl _ Hin); unfold c in *; lia).
  unfold returns. unfold s', exec. rewrite Heq. cbn [fst snd].
  split; [done|]. split; [simpl; apply elem_of_app; right; apply list_elem_of_here|].
  split; [done|]. split; [done|]. simpl.
  rewrite !bool_decide_eq_false_2 by done. done.
Qed.

Lemma admission_failed_write_witness :
  let s := run [Connect [] false] (empty_store 1700000000000) in
  let s' := exec (connect (fresh_response [true] false)) s in
  reachable s /\ returns (connect (fresh_response [true] false)) s = false /\
  sseClients s' = [0%nat; 1%nat] /\ intervals s' = [0%nat].
Proof.
  assert (Hr : reachable (run [Connect [] false] (empty_store 1700000000000))).
  { exists 1700000000000, [Connect [] false]. reflexivity. }
  split; [exact Hr|].
  split; [exact (proj1 (admission_failed_write (fresh_response [true] false) _ Hr eq_refl))|].
  vm_compute. done.
Defined.

(** ** After a cleanup pass, after a broadcast *)

(** Visits that change nothing. *)
Lemma run_local_fixed f pending s :
  (forall c cl, c ∈ pending -> c ∈ sseClients s -> heap s !! c = Some cl ->
     f cl = (cl, true)) ->
  run_local f pending s = s.
Proof.
  induction pending as [|c pending IH]; intros Hf; [done|].
  unfold run_local in *. simpl.
  assert (Hstep : (if bool_decide (c ∈ sseClients s) then apply_local f c s else s) = s).
  { case_bool_decide as Hin; [|done]. unfold apply_local.
    destruct (heap s !! c) as [cl|] eqn:Hc; [|done].
    rewrite (Hf c cl (list_elem_of_here _ _) Hin Hc). simpl. by apply insert_same. }
  rewrite Hstep. apply IH. intros c0 cl0 Hin0. apply Hf. by right.
Qed.

(** X5: after a pass of [cleanupConnections] in a reachable state no
    client of the set has a [lastPing] more than five minutes old, and a
    second pass at the same time changes nothing.  The pass arms and
    clears no timer: a client it drops keeps its heartbeat. *)
Theorem cleanup_settles (s : Store) :
  reachable s ->
  let s' := exec cleanupConnections s in
  (forall c cl, c ∈ sseClients s' -> heap s' !! c = Some cl ->
     now s' - lastPing cl <= 300000) /\
  exec cleanupConnections s' = s' /\
  intervals s' = intervals s /\ listeners s' = listeners s /\ now s' = now s.
Proof.
  intros Hr s'. pose proof (reachable_inv s Hr) as Hinv. pose proof Hinv as [Hwf _].
  pose proof (cleanup_evolves s Hwf) as Hev. fold s' in Hev.
  destruct (evolves_inv s s' Hinv Hev) as [Hwf' _].
  destruct Hev as (Hn & _ & Hsub & _ & _).
  assert (Hpost : forall c cl, c ∈ sseClients s' -> heap s' !! c = Some cl ->
                  now s' - lastPing cl <= 300000).
  { intros c cl Hin Hcl. pose proof (Hsub c Hin) as Hin0.
    destruct Hwf as [Hnd Hv].
    destruct (lookup_lt_is_Some_2 _ _ (Hv c Hin0)) as [cl0 Hcl0].
    destruct (cleanup_visit s c cl0 (conj Hnd Hv) Hin0 Hcl0) as [Hh Hm].
    fold s' in Hh, Hm.
    destruct (cleanup_client_cases (now s) cl0) as (_ & _ & _ & Hstale & Hfresh).
    destruct (decide (now s - lastPing cl0 <= 300000)) as [Hle|Hgt].
    - destruct (Hfresh Hle) as [_ Heq]. rewrite Hh, Heq in Hcl.
      injection Hcl as <-. by rewrite Hn.
    - destruct (Hstale ltac:(lia)) as (Hk & _). apply Hm in Hin. congruence. }
  split; [exact Hpost|]. split.
  - unfold exec. rewrite (cleanup_run s' Hwf'). cbn [snd].
    apply run_local_fixed. intros c cl _ Hin Hcl. unfold cleanup_client, staleTimeout.
    rewrite bool_decide_eq_false_2; [done|]. specialize (Hpost c cl Hin Hcl). lia.
  - destruct (cleanup_timers s Hwf) as [Hi Hl]. done.
Qed.

Lemma cleanup_settles_witness :
  let s := run [Connect [] false; Elapse 200000; Connect [] false; Elapse 200000]
               (empty_store 1700000000000) in
  reachable s /\
  exec cleanupConnections (exec cleanupConnections s) = exec cleanupConnections s /\
  sseClients (exec cleanupConnections s) = [1%nat].
Proof.
  assert (Hr : reachable
    (run [Connect [] false; Elapse 200000; Connect [] false; Elapse 200000]
         (empty_store 1700000000000))).
  { exists 1700000000000,
      [Connect [] false; Elapse 200000; Connect [] false; Elapse 200000]. reflexivity. }
  split; [exact Hr|].
  split; [exact (proj1 (proj2 (cleanup_settles _ Hr)))|].
  vm_compute. reflexivity.
Defined.

(** X6: [broadcastToClients] arms and clears no timer, so a client that
    it drops keeps its heartbeat.  A heartbeat of a client that is not in
    the set, on a transport that accepts the chunk, still writes the
    message and sets [lastPing], and it does not put the client back. *)
Theorem dropped_client_still_heartbeats (eventType : string) (data : JSON)
    (s : Store) (c : nat) (cl : Client) :
  reachable s ->
  heap s !! c = Some cl -> c ∉ sseClients s ->
  accepts 1 (writeScript (response cl)) = true ->
  intervals (exec (broadcastToClients eventType data) s) = intervals s /\
  (c ∉ sseClients (exec (heartbeat c) s)) /\
  sseClients (exec (heartbeat c) s) = sseClients s /\
  exists cl', heap (exec (heartbeat c) s) !! c = Some cl' /\
    written (response cl') =
      written (response cl) ++ [data_line (heartbeat_message (toISOString (now s)))] /\
    lastPing cl' = now s.
Proof.
  intros Hr Hcl Hout Ha. destruct (reachable_inv s Hr) as [Hwf _].
  split; [apply (broadcast_timers eventType data s Hwf)|].
  unfold exec. rewrite (heartbeat_eq c s cl Hcl). cbn [snd].
  destruct (response_write_accepted (heartbeat_chunk (now s)) _ Ha)
    as (r & -> & Hw & _).
  split; [done|]. split; [done|]. eexists. split.
  - simpl. apply list_lookup_insert_eq. by eapply lookup_lt_Some.
  - done.
Qed.

Lemma dropped_client_still_heartbeats_witness :
  let s := run [Connect [false; true] false; Broadcast "request-updated" JNull;
                Elapse 30000] (empty_store 1700000000000) in
  reachable s /\ sseClients s = [] /\ intervals s = [0%nat] /\
  sseClients (step (HeartbeatFires 0%nat) s) = [] /\
  (lastPing <$> heap (step (HeartbeatFires 0%nat) s) !! 0%nat) = Some 1700000030000.
Proof.
  assert (Hr : reachable
    (run [Connect [false; true] false; Broadcast "request-updated" JNull; Elapse 30000]
         (empty_store 1700000000000))).
  { exists 1700000000000,
      [Connect [false; true] false; Broadcast "request-updated" JNull; Elapse 30000].
    reflexivity. }
  split; [exact Hr|]. split; [reflexivity|]. split; [reflexivity|]. split.
  - refine (proj1 (proj2 (proj2 (dropped_client_still_heartbeats "x" JNull _ 0%nat _
                                   Hr _ _ _)))).
    + vm_compute. reflexivity.
    + vm_compute. apply not_elem_of_nil.
    + reflexivity.
  - vm_compute. reflexivity.
Defined.

Lemma filter_all_true {A : Type} (p : A -> bool) (l : list A) :
  (forall x, x ∈ l -> p x = true) -> List.filter p l = l.
Proof.
  induction l as [|x l IH]; intros H; [done|]. simpl.
  rewrite (H x (list_elem_of_here _ _)). f_equal. apply IH. intros y Hy. apply H. by right.
Qed.

(** X7: right after a broadcast in a reachable state, every client of
    the set has a response that is not destroyed: [getConnectionStats]
    reports as many active connections as connections, and not more
    connections than before the broadcast. *)
Theorem stats_after_broadcast (eventType : string) (data : JSON) (s : Store) :
  reachable s ->
  let s' := exec (broadcastToClients eventType data) s in
  activeConnections (getConnectionStats s') = totalConnections (getConnectionStats s') /\
  (totalConnections (getConnectionStats s') <= totalConnections (getConnectionStats s))%nat /\
  (forall c, c ∈ sseClients s' -> client_open s' c = true).
Proof.
  intros Hr s'. pose proof (reachable_inv s Hr) as [Hwf _].
  pose proof (broadcast_evolves eventType data s Hwf) as Hev. fold s' in Hev.
  destruct Hev as (_ & _ & Hsub & Hnd' & _).
  assert (Hopen : forall c, c ∈ sseClients s' -> client_open s' c = true).
  { intros c Hin. pose proof (Hsub c Hin) as Hin0. destruct Hwf as [Hnd Hv].
    destruct (lookup_lt_is_Some_2 _ _ (Hv c Hin0)) as [cl0 Hcl0].
    destruct (broadcast_visit eventType data s c cl0 (conj Hnd Hv) Hin0 Hcl0) as [Hh Hm].
    fold s' in Hh, Hm.
    destruct (broadcast_client_cases eventType
      (stringify (event_message eventType data (toISOString (now s)))) cl0)
      as (_ & _ & Hd & _ & Hdead & _).
    unfold client_open. rewrite Hh, Hd.
    destruct (destroyed (response cl0)) eqn:Hd0; [|done].
    destruct (Hdead eq_refl) as [_ Hk]. apply Hm in Hin. congruence. }
  split; [|split; [|exact Hopen]].
  - simpl. by rewrite (filter_all_true _ _ Hopen).
  - simpl. apply submseteq_length, NoDup_submseteq; [|exact Hsub].
    apply Hnd', Hwf.
Qed.

Lemma stats_after_broadcast_witness :
  let s := run [Connect [] false; Connect [] false; SocketDestroyed 0%nat]
               (empty_store 1700000000000) in
  let s' := exec (broadcastToClients "request-updated" JNull) s in
  reachable s /\
  activeConnections (getConnectionStats s') = totalConnections (getConnectionStats s') /\
  getConnectionStats s =
    {| totalConnections := 2; activeConnections := 1; oldConnections := 0 |} /\
  getConnectionStats s' =
    {| totalConnections := 1; activeConnections := 1; oldConnections := 0 |}.
Proof.
  assert (Hr : reachable
    (run [Connect [] false; Connect [] false; SocketDestroyed 0%nat]
         (empty_store 1700000000000))).
  { exists 1700000000000, [Connect [] false; Connect [] false; SocketDestroyed 0%nat].
    reflexivity. }
  split; [exact Hr|].
  split; [exact (proj1 (stats_after_broadcast "request-updated" JNull _ Hr))|].
  vm_compute. done.
Defined.

(** * More of [routes/requests.js] *)

(** ** The validation middleware *)










(** ** The pattern of [isValidEmail] *)









(** ** The routes on the mock store *)

Lemma find_index_Some {A : Type} (p : A -> bool) (l : list A) (i : nat) :
  find_index p l = Some i ->
  exists x, l !! i = Some x /\ p x = true /\
            forall j y, (j < i)%nat -> l !! j = Some y -> p y = false.
Proof.
  revert i. induction l as [|x l IH]; intros i; [done|]. simpl.
  destruct (p x) eqn:Hx.
  - intros [= <-]. exists x. split; [done|]. split; [done|]. intros j y Hj. lia.
  - destruct (find_index p l) as [i0|]; [|done]. intros [= <-].
    destruct (IH i0 eq_refl) as (x0 & Hl & Hp & Hbefore).
    exists x0. split; [done|]. split; [done|].
    intros [|j] y Hj; simpl; [by intros [= <-]|].
    apply Hbefore. lia.
Qed.

Lemma find_index_None {A : Type} (p : A -> bool) (l : list A) :
  find_index p l = None <-> forall x, x ∈ l -> p x = false.
Proof.
  induction l as [|x l IH]; simpl.
  - split; [|done]. intros _ x Hx. by apply elem_of_nil in Hx.
  - destruct (p x) eqn:Hx.
    + split; [done|]. intros H. specialize (H x (list_elem_of_here _ _)). congruence.
    + destruct (find_index p l) as [i0|] eqn:Hf.
      * split; [done|]. intros H. exfalso.
        assert (Hn : Some i0 = None); [|done].
        apply IH. intros y Hy. apply H. by right.
      * split; [|done]. intros _ y Hy. apply elem_of_cons in Hy as [->|Hy]; [done|].
        by apply IH.
Qed.

(** [find] returns the element at the index that [findIndex] returns. *)
Lemma find_find_index {A : Type} (p : A -> bool) (l : list A) :
  List.find p l = match find_index p l with
                  | Some i => l !! i
                  | None => None
                  end.
Proof.
  induction l as [|x l IH]; [done|]. simpl. destruct (p x); [done|].
  rewrite IH. by destruct (find_index p l).
Qed.

Lemma find_index_insert {A : Type} (p : A -> bool) (l : list A) (i : nat) (y : A) :
  find_index p l = Some i -> p y = true -> find_index p (<[i := y]> l) = Some i.
Proof.
  revert i. induction l as [|x l IH]; intros i; [done|]. simpl.
  destruct (p x) eqn:Hx.
  - intros [= <-] Hy. simpl. by rewrite Hy.
  - destruct (find_index p l) as [i0|]; [|done]. intros [= <-] Hy. simpl.
    rewrite Hx. by rewrite (IH i0 eq_refl Hy).
Qed.

Lemma events_ok_hook eventType data w :
  events_ok w ->
  exists w', broadcast_hook eventType data w = (Returned tt, w') /\
    supabase w' = supabase w /\ mockRequests w' = mockRequests w /\
    clock w' = clock w /\ development w' = development w /\ events_ok w'.
Proof.
  intros Hok. unfold broadcast_hook. destruct (sseEvents w) as [st|] eqn:Hst.
  - assert (Hwf : wf (set_now (clock w) st)) by (apply (Hok st Hst)).
    rewrite (broadcast_run eventType data _ Hwf).
    eexists. split; [done|]. cbn [supabase mockRequests clock development].
    split; [done|]. split; [done|]. split; [done|]. split; [done|].
    intros st' Hst'. cbn [sseEvents] in Hst'. injection Hst' as <-.
    pose proof (broadcast_evolves eventType data _ Hwf) as Hev.
    unfold exec in Hev. rewrite (broadcast_run eventType data _ Hwf) in Hev.
    destruct Hev as (_ & Hlen & Hsub & Hnd & _). destruct Hwf as [Hnd0 Hv]. split.
    + by apply Hnd.
    + intros c Hc. simpl in Hlen. rewrite Hlen. by apply Hv, Hsub.
  - exists w. split; [done|]. split; [done|]. split; [done|]. split; [done|].
    split; [done|exact Hok].
Qed.

Lemma post_mock_eq Date_parse rnd body w :
  supabase w = None -> events_ok w ->
  validation_errors Date_parse (clock w) body = Returned [] ->
  let requestData := requestData_of (clock w) rnd body in
  exists w',
    router_post Date_parse rnd body w =
      (Returned {| status := 201;
                   body := JObj [("success", JBool true);
                                 ("message", JStr "Service request created successfully");
                                 ("data", JObj requestData)] |}, w') /\
    supabase w' = None /\ mockRequests w' = requestData :: mockRequests w /\
    clock w' = clock w /\ events_ok w'.
Proof.
  intros Hsb Hok Hval requestData. unfold router_post. rewrite bind_eq. unfold gets at 1.
  rewrite Hval. unfold post_handler, try_catch.
  rewrite bind_eq. unfold gets at 1. rewrite bind_eq. unfold gets at 1. rewrite Hsb.
  rewrite bind_eq. unfold modify at 1. rewrite bind_eq. fold requestData.
  set (w0 := set_mock (requestData :: mockRequests w) w).
  assert (Hok0 : events_ok w0) by exact Hok.
  destruct (events_ok_hook "request-created" (created_event requestData) w0 Hok0)
    as (w' & -> & Hs & Hm & Hc & _ & Hok').
  exists w'. split; [done|]. rewrite Hs, Hm, Hc. done.
Qed.

Lemma get_id_mock_eq id w :
  supabase w = None ->
  router_get_id id w =
  (Returned match List.find (has_request_id id) (mockRequests w) with
            | Some request => found_ok (JObj request)
            | None => not_found
            end, w).
Proof.
  intros Hsb. unfold router_get_id, try_catch. rewrite bind_eq. unfold gets at 1.
  rewrite Hsb. rewrite bind_eq. unfold gets at 1.
  by destruct (List.find (has_request_id id) (mockRequests w)).
Qed.

Lemma requestData_fields t rnd body :
  let requestData := requestData_of t rnd body in
  obj_get "status" requestData = Some (JStr "pending") /\
  obj_get "created_at" requestData = Some (JStr (toISOString t)) /\
  obj_get "updated_at" requestData = Some (JStr (toISOString t)) /\
  obj_get "request_id" requestData =
    Some (match obj_get "request_id" body with
          | Some v => if truthy v then v else JStr (generateRequestId t rnd)
          | None => JStr (generateRequestId t rnd)
          end) /\
  (forall k, k ∉ post_keys -> obj_get k requestData = obj_get k body).
Proof.
  unfold requestData_of. cbv zeta. rewrite !obj_get_set. simpl.
  split; [done|]. split; [done|]. split; [done|]. split; [done|].
  intros k Hk. unfold post_keys in Hk. rewrite !not_elem_of_cons in Hk.
  destruct Hk as (H1 & H2 & H3 & H4 & _). rewrite !obj_get_set.
  apply String.eqb_neq in H1, H2, H3, H4. by rewrite H1, H2, H3, H4.
Qed.

(** X10: a [POST] that passes the validation, on the mock store.  The
    answer is 201 and one record is put in front of the others, which
    stay as they are.  The record has the fields of the body, except that
    [status] is [pending] and [created_at] and [updated_at] are the time
    of the request, whatever the body holds for them, and that
    [request_id] is the one of the body when that is truthy and a
    generated one otherwise. *)
Theorem post_stores_pending_record (Date_parse : string -> option Z) (rnd : Z)
    (body : Obj) (w : World) :
  supabase w = None -> events_ok w ->
  validation_errors Date_parse (clock w) body = Returned [] ->
  let result := router_post Date_parse rnd body w in
  exists reply record,
    fst result = Returned reply /\ status reply = 201 /\
    mockRequests (snd result) = record :: mockRequests w /\
    Requests.body reply =
      JObj [("success", JBool true);
            ("message", JStr "Service request created successfully");
            ("data", JObj record)] /\
    obj_get "status" record = Some (JStr "pending") /\
    obj_get "created_at" record = Some (JStr (toISOString (clock w))) /\
    obj_get "updated_at" record = Some (JStr (toISOString (clock w))) /\
    obj_get "request_id" record =
      Some (match obj_get "request_id" body with
            | Some v => if truthy v then v else JStr (generateRequestId (clock w) rnd)
            | None => JStr (generateRequestId (clock w) rnd)
            end) /\
    (forall k, k ∉ post_keys -> obj_get k record = obj_get k body).
Proof.
  intros Hsb Hok Hval result.
  destruct (post_mock_eq Date_parse rnd body w Hsb Hok Hval) as (w' & Heq & _ & Hm & _).
  destruct (requestData_fields (clock w) rnd body) as (H1 & H2 & H3 & H4 & H5).
  unfold result. rewrite Heq. cbn [fst snd].
  eexists _, (requestData_of (clock w) rnd body).
  split; [done|]. split; [done|]. split; [done|]. split; [done|]. done.
Qed.

Lemma post_stores_pending_record_witness :
  let w := initial_world None None false 1700000000000 in
  let body := [("clientName", JStr "Ada Lovelace");
               ("email", JStr "ada@example.org");
               ("phone", JStr "(555) 000-1111");
               ("serviceType", JStr "mapping");
               ("location", JStr "12 Analytical Street, London");
               ("preferredDate", JStr "2030-01-15");
               ("preferredTime", JStr "morning");
               ("description", JStr "Survey of the northern field before sowing.");
               ("status", JStr "completed")] in
  exists reply record,
    fst (router_post parse_date_only 7 body w) = Returned reply /\ status reply = 201 /\
    mockRequests (snd (router_post parse_date_only 7 body w))
      = record :: mockRequests w /\
    obj_get "status" record = Some (JStr "pending").
Proof.
  intros w body.
  assert (Hok : events_ok w) by (intros st Hst; discriminate Hst).
  destruct (post_stores_pending_record parse_date_only 7 body w eq_refl Hok eq_refl)
    as (reply & record & H1 & H2 & H3 & _ & H5 & _).
  exists reply, record. split; [exact H1|]. split; [exact H2|]. split; [exact H3|exact H5].
Defined.

(** X11: a record created by [POST] on the mock store is the one that
    [GET /:id] returns for its identifier, when that identifier is a
    string: the new record is first in the store, so it is found before
    an older record with the same identifier. *)
Theorem posted_record_is_found (Date_parse : string -> option Z) (rnd : Z)
    (body : Obj) (w : World) (id : string) :
  supabase w = None -> events_ok w ->
  validation_errors Date_parse (clock w) body = Returned [] ->
  obj_get "request_id" (requestData_of (clock w) rnd body) = Some (JStr id) ->
  let w' := exec (router_post Date_parse rnd body) w in
  fst (router_get_id id w') = Returned (found_ok (JObj (requestData_of (clock w) rnd body))) /\
  exec (router_get_id id) w' = w'.
Proof.
  intros Hsb Hok Hval Hid w'.
  destruct (post_mock_eq Date_parse rnd body w Hsb Hok Hval) as (w1 & Heq & Hs & Hm & _).
  assert (Hw : w' = w1) by (unfold w', exec; by rewrite Heq).
  rewrite Hw. unfold exec. rewrite (get_id_mock_eq id w1 Hs), Hm. simpl.
  unfold has_request_id at 1. rewrite Hid, String.eqb_refl. done.
Qed.

Lemma posted_record_is_found_witness :
  let w := initial_world None None false 1700000000000 in
  let body := [("clientName", JStr "Ada Lovelace");
               ("email", JStr "ada@example.org");
               ("phone", JStr "(555) 000-1111");
               ("serviceType", JStr "mapping");
               ("location", JStr "12 Analytical Street, London");
               ("preferredDate", JStr "2030-01-15");
               ("preferredTime", JStr "morning");
               ("description", JStr "Survey of the northern field before sowing.")] in
  fst (router_get_id "DR-2023-000007" (exec (router_post parse_date_only 7 body) w))
    = Returned (found_ok (JObj (requestData_of 1700000000000 7 body))).
Proof.
  intros w body.
  assert (Hok : events_ok w) by (intros st Hst; discriminate Hst).
  exact (proj1 (posted_record_is_found parse_date_only 7 body w "DR-2023-000007"
                  eq_refl Hok eq_refl eq_refl)).
Defined.

Lemma put_mock_eq id body w i old :
  supabase w = None -> events_ok w ->
  find_index (has_request_id id) (mockRequests w) = Some i ->
  mockRequests w !! i = Some old ->
  let record := obj_spread old (updateData_of (clock w) body) in
  exists w',
    router_put id body w = (Returned (updated_ok (JObj record)), w') /\
    supabase w' = None /\ mockRequests w' = <[i := record]> (mockRequests w) /\
    clock w' = clock w /\ events_ok w'.
Proof.
  intros Hsb Hok Hi Hold record. unfold router_put, try_catch.
  rewrite bind_eq. unfold gets at 1. rewrite bind_eq. unfold gets at 1. rewrite Hsb.
  rewrite bind_eq. unfold gets at 1. rewrite Hi, Hold.
  rewrite bind_eq. unfold modify at 1. rewrite bind_eq. fold record.
  set (w0 := set_mock (<[i := record]> (mockRequests w)) w).
  assert (Hok0 : events_ok w0) by exact Hok.
  destruct (events_ok_hook "request-updated" (updated_event record) w0 Hok0)
    as (w' & -> & Hs & Hm & Hc & _ & Hok').
  exists w'. split; [done|]. rewrite Hs, Hm, Hc. done.
Qed.

Lemma delete_mock_eq id w i :
  supabase w = None -> events_ok w ->
  find_index (has_request_id id) (mockRequests w) = Some i ->
  exists w',
    router_delete id w = (Returned deleted_ok, w') /\
    supabase w' = None /\
    mockRequests w' = take i (mockRequests w) ++ drop (S i) (mockRequests w) /\
    events_ok w'.
Proof.
  intros Hsb Hok Hi. unfold router_delete, try_catch.
  rewrite bind_eq. unfold gets at 1. rewrite Hsb.
  rewrite bind_eq. unfold gets at 1. rewrite Hi.
  rewrite bind_eq. unfold modify at 1. rewrite bind_eq.
  set (w0 := set_mock _ w).
  assert (Hok0 : events_ok w0) by exact Hok.
  destruct (events_ok_hook "request-deleted" (deleted_event id) w0 Hok0)
    as (w' & -> & Hs & Hm & _ & _ & Hok').
  exists w'. split; [done|]. rewrite Hs, Hm. done.
Qed.

Lemma delete_mock_absent id w :
  supabase w = None ->
  find_index (has_request_id id) (mockRequests w) = None ->
  router_delete id w = (Returned not_found, w).
Proof.
  intros Hsb Hi. unfold router_delete, try_catch.
  rewrite bind_eq. unfold gets at 1. rewrite Hsb.
  rewrite bind_eq. unfold gets at 1. by rewrite Hi.
Qed.

(** X12: after a [PUT] of an identifier that the mock store has, the
    answer is 200 with the merged record, [GET /:id] returns that same
    record, and the store has as many records as before, all others
    unchanged. *)
Theorem put_then_get (id : string) (body : Obj) (w : World) (i : nat) (old : Obj) :
  supabase w = None -> events_ok w ->
  find_index (has_request_id id) (mockRequests w) = Some i ->
  mockRequests w !! i = Some old ->
  let record := obj_spread old (updateData_of (clock w) body) in
  let w' := exec (router_put id body) w in
  fst (router_put id body w) = Returned (updated_ok (JObj record)) /\
  fst (router_get_id id w') = Returned (found_ok (JObj record)) /\
  length (mockRequests w') = length (mockRequests w) /\
  (forall j, j ≠ i -> mockRequests w' !! j = mockRequests w !! j).
Proof.
  intros Hsb Hok Hi Hold record w'.
  destruct (put_mock_eq id body w i old Hsb Hok Hi Hold) as (w1 & Heq & Hs & Hm & _).
  assert (Hw : w' = w1) by (unfold w', exec; by rewrite Heq).
  rewrite Hw, Heq. fold record in Hm. cbn [fst].
  split; [done|]. split; [|split].
  - rewrite (get_id_mock_eq id w1 Hs), Hm. cbn [fst].
    destruct (find_index_Some _ _ _ Hi) as (x & Hx & Hp & _).
    assert (Hrec : has_request_id id record = true).
    { rewrite Hold in Hx. injection Hx as <-. unfold has_request_id in *.
      unfold record. rewrite obj_get_spread_absent; [done|].
      apply updateData_read_only. }
    rewrite find_find_index, (find_index_insert _ _ _ _ Hi Hrec).
    rewrite list_lookup_insert_eq by (by eapply lookup_lt_Some). done.
  - rewrite Hm. apply length_insert.
  - intros j Hj. rewrite Hm. by apply list_lookup_insert_ne.
Qed.

Lemma put_then_get_witness :
  let w := initial_world None None false 1700000000000 in
  let body := [("status", JStr "confirmed")] in
  exists record,
    fst (router_get_id "DR-2024-001236" (exec (router_put "DR-2024-001236" body) w))
      = Returned (found_ok (JObj record)) /\
    obj_get "status" record = Some (JStr "confirmed").
Proof.
  intros w body.
  assert (Hok : events_ok w) by (intros st Hst; discriminate Hst).
  assert (Hold : mockRequests w !! 2%nat = nth_error mockRequests_initial 2) by reflexivity.
  destruct (nth_error mockRequests_initial 2) as [old|] eqn:Hn; [|discriminate Hn].
  destruct (put_then_get "DR-2024-001236" body w 2%nat old eq_refl Hok eq_refl Hold)
    as (_ & Hget & _).
  eexists. split; [exact Hget|]. injection Hn as <-. reflexivity.
Defined.

(** X13: [DELETE /:id] on the mock store removes the first record with
    the identifier and no other: the store is one record shorter and the
    records before and after keep their order.  When no other record has
    the identifier, [GET /:id] then answers 404, and so does a second
    [DELETE], which changes nothing. *)
Theorem delete_removes_first_match (id : string) (w : World) (i : nat) :
  supabase w = None -> events_ok w ->
  find_index (has_request_id id) (mockRequests w) = Some i ->
  let w' := exec (router_delete id) w in
  fst (router_delete id w) = Returned deleted_ok /\
  mockRequests w' = take i (mockRequests w) ++ drop (S i) (mockRequests w) /\
  S (length (mockRequests w')) = length (mockRequests w) /\
  ((forall j y, j ≠ i -> mockRequests w !! j = Some y -> has_request_id id y = false) ->
   fst (router_get_id id w') = Returned not_found /\
   router_delete id w' = (Returned not_found, w')).
Proof.
  intros Hsb Hok Hi w'.
  destruct (delete_mock_eq id w i Hsb Hok Hi) as (w1 & Heq & Hs & Hm & _).
  assert (Hw : w' = w1) by (unfold w', exec; by rewrite Heq).
  rewrite Hw, Heq. cbn [fst].
  destruct (find_index_Some _ _ _ Hi) as (x & Hx & _).
  assert (Hlt : (i < length (mockRequests w))%nat) by (by eapply lookup_lt_Some).
  split; [done|]. split; [done|]. split.
  { rewrite Hm, length_app, length_take, length_drop. lia. }
  intros Huniq.
  assert (Hnone : find_index (has_request_id id) (mockRequests w1) = None).
  { apply find_index_None. intros y Hy. rewrite Hm in Hy.
    apply elem_of_app in Hy as [Hy|Hy].
    - apply list_elem_of_lookup in Hy as [j Hj].
      apply lookup_take_Some in Hj as [Hj Hji]. apply (Huniq j y); [lia|done].
    - apply list_elem_of_lookup in Hy as [j Hj].
      rewrite lookup_drop in Hj. apply (Huniq (S i + j)%nat y); [lia|done]. }
  split.
  - rewrite (get_id_mock_eq id w1 Hs). cbn [fst]. by rewrite find_find_index, Hnone.
  - by apply delete_mock_absent.
Qed.

Lemma delete_removes_first_match_witness :
  let w := initial_world None None false 1700000000000 in
  let w' := exec (router_delete "DR-2024-001235") w in
  fst (router_delete "DR-2024-001235" w) = Returned deleted_ok /\
  length (mockRequests w') = 2%nat /\
  router_delete "DR-2024-001235" w' = (Returned not_found, w').
Proof.
  intros w w'.
  assert (Hok : events_ok w) by (intros st Hst; discriminate Hst).
  destruct (delete_removes_first_match "DR-2024-001235" w 1%nat eq_refl Hok eq_refl)
    as (H1 & _ & _ & H4).
  split; [exact H1|]. split; [reflexivity|].
  apply H4. intros j y Hj Hy.
  destruct j as [|[|[|j]]]; [| |  |]; simpl in Hy.
  - injection Hy as <-. reflexivity.
  - by destruct Hj.
  - injection Hy as <-. reflexivity.
  - discriminate Hy.
Defined.

(** ** The reading routes *)

Lemma set_supabase_same db w : supabase w = Some db -> set_supabase db w = w.
Proof. intros H. destruct w. simpl in *. by rewrite H. Qed.

Lemma query_select id db w :
  supabase w = Some db ->
  query (pg_select_single id) db w = (Returned (fst (pg_select_single id db)), w).
Proof.
  intros H. destruct w. simpl in *. subst. unfold query, pg_select_single.
  destruct (online db); simpl; [|done]. by destruct (List.find _ (rows db)).
Qed.

Lemma get_list_eq q w :
  router_get_list q w =
  match filteredRequests_of q (mockRequests w) with
  | Returned filteredRequests =>
      (Returned
         {| status := 200;
            body := JObj [("success", JBool true);
                          ("data", JArr (map JObj (paginatedRequests_of q filteredRequests)));
                          ("pagination",
                           JObj [("limit", json_number (parseInt_or (q_limit q) 50));
                                 ("offset", json_number (parseInt_or (q_offset q) 0));
                                 ("total", JNum (Z.of_nat (length filteredRequests)))])] |},
       w)
  | Thrown e =>
      (Returned
         {| status := 500;
            body := JObj [("success", JBool false);
                          ("message", JStr "Failed to fetch requests");
                          ("error", JStr (if development w then e
                                          else "Internal server error"))] |}, w)
  end.
Proof.
  unfold router_get_list, try_catch. rewrite bind_eq. unfold gets at 1.
  by destruct (filteredRequests_of q (mockRequests w)).
Qed.

Lemma get_id_answers id w : exists reply, router_get_id id w = (Returned reply, w).
Proof.
  unfold router_get_id, try_catch. rewrite bind_eq. unfold gets at 1.
  destruct (supabase w) as [db|] eqn:Hsb.
  - rewrite bind_eq, (query_select id db w Hsb).
    destruct (fst (pg_select_single id db)) as [row| |e]; [by eexists|by eexists|].
    destruct (String.eqb (code e) "PGRST116"); by eexists.
  - rewrite bind_eq. unfold gets at 1.
    destruct (List.find (has_request_id id) (mockRequests w)); by eexists.
Qed.

Lemma get_stats_answers w :
  router_get_stats w =
  (Returned (found_ok (stats_of
     match supabase w with
     | Some db =>
         match pg_select_status db with
         | RowsData data => data
         | RowsError _ => mockRequests w
         end
     | None => mockRequests w
     end)), w).
Proof.
  unfold router_get_stats, try_catch. rewrite bind_eq.
  rewrite bind_eq. unfold gets at 1.
  destruct (supabase w) as [db|] eqn:Hsb; [|done].
  by destruct (pg_select_status db).
Qed.

(** X14: the three reading routes always answer and leave the router
    as it is: no record changes and [broadcastToClients] is not called.
    [GET /stats] never answers 500: without the Supabase client, or when
    its query fails, the statistics are those of the mock records. *)
Theorem reads_change_nothing (id : string) (q : Query) (w : World) :
  (exec (router_get_id id) w = w /\ returns (router_get_id id) w = true) /\
  (exec (router_get_list q) w = w /\ returns (router_get_list q) w = true) /\
  (exec router_get_stats w = w /\
   exists data, fst (router_get_stats w) = Returned (found_ok (stats_of data)) /\
     ((supabase w = None \/ exists db, supabase w = Some db /\ online db = false) ->
      data = mockRequests w)).
Proof.
  split; [|split].
  - destruct (get_id_answers id w) as [reply Heq].
    unfold exec, returns. by rewrite Heq.
  - unfold exec, returns. rewrite get_list_eq.
    by destruct (filteredRequests_of q (mockRequests w)).
  - unfold exec. rewrite get_stats_answers. split; [done|].
    eexists. split; [done|]. intros [->|(db & -> & Hoff)]; [done|].
    unfold pg_select_status. by rewrite Hoff.
Qed.

Lemma reads_change_nothing_witness :
  let w := initial_world (Some {| rows := []; online := false |}) None false 0 in
  fst (router_get_stats w) = Returned (found_ok (stats_of mockRequests_initial)).
Proof.
  intros w.
  destruct (reads_change_nothing "DR-2024-001234"
              {| q_status := None; q_serviceType := None; q_priority := None;
                 q_search := None; q_limit := None; q_offset := None |} w)
    as (_ & _ & _ & data & Hd & Hmock).
  rewrite Hd. rewrite (Hmock ltac:(right; by eexists)). reflexivity.
Defined.

(** The writing routes with the Supabase client leave the mock records. *)
Lemma supabase_writes_keep_mock Date_parse rnd id body db w :
  supabase w = Some db ->
  let keeps (w' : World) :=
    mockRequests w' = mockRequests w /\ development w' = development w in
  keeps (exec (router_post Date_parse rnd body) w) /\
  keeps (exec (router_put id body) w) /\
  keeps (exec (router_delete id) w).
Proof.
  intros Hsb keeps.
  assert (Hhook : forall {A : Type} eventType data (r : A) db',
    keeps (snd ((broadcast_hook eventType data ;; mret r) (set_supabase db' w)))).
  { intros A eventType data r db'. rewrite bind_eq.
    destruct (broadcast_hook_frame eventType data (set_supabase db' w))
      as (_ & Hm & _ & Hd & _).
    destruct (broadcast_hook eventType data (set_supabase db' w)) as [[[]|e] w1];
      simpl in *; by split. }
  assert (Hcatch : forall (m : M World HttpResponse) msg,
    keeps (snd (m w)) -> keeps (snd (try_catch m (failure msg) w))).
  { intros m msg H. unfold try_catch. by destruct (m w) as [[r|e] w1]. }
  split; [|split]; unfold exec.
  - unfold router_post. rewrite bind_eq. unfold gets at 1.
    destruct (validation_errors Date_parse (clock w) body) as [[|err errs]|e];
      [|by split|by split].
    unfold post_handler. apply Hcatch.
    rewrite bind_eq. unfold gets at 1. rewrite bind_eq. unfold gets at 1. rewrite Hsb.
    rewrite bind_eq. unfold query.
    destruct (pg_insert _ db) as [reply db']. rewrite bind_eq. unfold gets at 1.
    destruct reply as [row| |e]; [apply Hhook| |by split].
    destruct (bool_decide _); by split.
  - unfold router_put. apply Hcatch.
    rewrite bind_eq. unfold gets at 1. rewrite bind_eq. unfold gets at 1. rewrite Hsb.
    rewrite bind_eq. unfold query.
    destruct (pg_update _ id db) as [reply db']. rewrite bind_eq. unfold gets at 1.
    destruct reply as [row| |e]; [apply Hhook| |].
    + destruct (bool_decide _); by split.
    + destruct (String.eqb (code e) "PGRST116"); by split.
  - unfold router_delete. apply Hcatch.
    rewrite bind_eq. unfold gets at 1. rewrite Hsb.
    rewrite bind_eq. unfold query.
    destruct (pg_delete id db) as [reply db'].
    destruct reply as [row| |e]; [apply Hhook|apply Hhook|by split].
Qed.

(** X15: [GET /] reads the mock records only, also when the Supabase
    client is configured: its answer is the same in two routers with the
    same mock records.  So with Supabase no [POST], [PUT] or [DELETE],
    whatever its outcome, changes the answer of [GET /]: a record created
    in the Supabase table is never listed. *)
Theorem list_ignores_supabase (q : Query) (w : World) :
  (forall w2, mockRequests w2 = mockRequests w -> development w2 = development w ->
     fst (router_get_list q w2) = fst (router_get_list q w)) /\
  (forall db Date_parse rnd id body,
     supabase w = Some db ->
     fst (router_get_list q (exec (router_post Date_parse rnd body) w))
       = fst (router_get_list q w) /\
     fst (router_get_list q (exec (router_put id body) w)) = fst (router_get_list q w) /\
     fst (router_get_list q (exec (router_delete id) w)) = fst (router_get_list q w)).
Proof.
  assert (H : forall w2, mockRequests w2 = mockRequests w ->
            development w2 = development w ->
            fst (router_get_list q w2) = fst (router_get_list q w)).
  { intros w2 Hm Hd. rewrite !get_list_eq, Hm.
    destruct (filteredRequests_of q (mockRequests w)); [done|]. simpl. by rewrite Hd. }
  split; [exact H|].
  intros db Date_parse rnd id body Hsb.
  destruct (supabase_writes_keep_mock Date_parse rnd id body db w Hsb)
    as ([H1 H1'] & [H2 H2'] & [H3 H3']).
  split; [by apply H|]. split; by apply H.
Qed.

Lemma list_ignores_supabase_witness :
  let db := {| rows := []; online := true |} in
  let w := initial_world (Some db) None false 1700000000000 in
  let q := {| q_status := None; q_serviceType := None; q_priority := None;
              q_search := None; q_limit := None; q_offset := None |} in
  let body := [("clientName", JStr "Ada Lovelace");
               ("email", JStr "ada@example.org");
               ("phone", JStr "(555) 000-1111");
               ("serviceType", JStr "mapping");
               ("location", JStr "12 Analytical Street, London");
               ("preferredDate", JStr "2030-01-15");
               ("preferredTime", JStr "morning");
               ("description", JStr "Survey of the northern field before sowing.")] in
  let w' := exec (router_post parse_date_only 7 body) w in
  (length ∘ rows <$> supabase w') = Some 1%nat /\
  fst (router_get_list q w') = fst (router_get_list q w).
Proof.
  intros db w q body w'. split; [reflexivity|].
  exact (proj1 (proj2 (list_ignores_supabase q w) db parse_date_only 7 EmptyString body
                  eq_refl)).
Defined.

(** ** The list: filters and pages *)

Lemma js_slice_page {A : Type} (o l : Z) (fl : list A) :
  0 <= o -> 0 <= l ->
  js_slice (Some o) (Some (o + l)) fl = take (Z.to_nat l) (drop (Z.to_nat o) fl).
Proof.
  intros Ho Hl. unfold js_slice.
  rewrite (proj2 (Z.ltb_ge o 0)) by lia. rewrite (proj2 (Z.ltb_ge (o + l) 0)) by lia.
  destruct (decide (o <= Z.of_nat (length fl))) as [Hin|Hout].
  - rewrite (Z.min_l o) by lia.
    destruct (decide (o + l <= Z.of_nat (length fl))) as [Hin2|Hout2].
    + rewrite Z.min_l by lia. f_equal. lia.
    + rewrite Z.min_r by lia.
      rewrite (take_ge (drop (Z.to_nat o) fl) (Z.to_nat l))
        by (rewrite length_drop; lia).
      apply take_ge. rewrite length_drop. lia.
  - rewrite !Z.min_r by lia.
    rewrite (drop_ge fl (Z.to_nat o)) by lia.
    rewrite drop_ge by lia. by rewrite !take_nil.
Qed.

Lemma filter_sublist {A : Type} (p : A -> bool) (l : list A) :
  sublist (List.filter p l) l.
Proof.
  induction l as [|x l IH]; [constructor|]. simpl.
  destruct (p x); by constructor.
Qed.

Lemma filter_by_spec key value l :
  sublist (filter_by key value l) l /\
  (forall v r, value = Some v -> v ≠ EmptyString -> r ∈ filter_by key value l ->
     obj_get key r = Some (JStr v)).
Proof.
  unfold filter_by. destruct value as [v|]; [|split; [done|done]].
  destruct (String.eqb v EmptyString) eqn:Hv.
  - split; [done|]. intros v0 r [= <-] Hne. by apply String.eqb_eq in Hv.
  - split; [apply filter_sublist|]. intros v0 r [= <-] _ Hr.
    apply list_elem_of_In, filter_In in Hr as [_ Hr]. unfold field_is in Hr.
    destruct (obj_get key r) as [[]|]; try done.
    by apply String.eqb_eq in Hr as ->.
Qed.

Lemma filter_throwing_sublist {A : Type} (callback : A -> Outcome bool) (l fl : list A) :
  filter_throwing callback l = Returned fl ->
  sublist fl l /\ forall x, x ∈ fl -> callback x = Returned true.
Proof.
  revert fl. induction l as [|x l IH]; intros fl; simpl.
  - intros [= <-]. split; [constructor|]. intros x Hx. by apply elem_of_nil in Hx.
  - destruct (callback x) as [keep|e] eqn:Hx; [|done].
    destruct (filter_throwing callback l) as [rest|e]; [|done].
    destruct (IH rest eq_refl) as [Hsub Hall].
    intros [= <-]. destruct keep.
    + split; [by constructor|]. intros y Hy.
      apply elem_of_cons in Hy as [->|Hy]; [done|by apply Hall].
    + split; [by constructor|done].
Qed.

(** X16: the answer of [GET /] when no filter callback throws, for an
    offset [o] and a limit [l] that [parseInt] reads as numbers that are
    not negative (50 and 0 when the parameters are missing).  The records
    that pass the filters are a sublist of the mock records, in their
    order, and each has the [status], [serviceType] and [priority] asked
    for; [total] is their number, whatever the page; the page holds the
    records from position [o] on, at most [l] of them. *)
Theorem list_page (q : Query) (w : World) (filteredRequests : list Obj) (o l : Z) :
  filteredRequests_of q (mockRequests w) = Returned filteredRequests ->
  parseInt_or (q_offset q) 0 = Some o -> parseInt_or (q_limit q) 50 = Some l ->
  0 <= o -> 0 <= l ->
  let page := take (Z.to_nat l) (drop (Z.to_nat o) filteredRequests) in
  fst (router_get_list q w) =
    Returned {| status := 200;
                body := JObj [("success", JBool true);
                              ("data", JArr (map JObj page));
                              ("pagination",
                               JObj [("limit", JNum l); ("offset", JNum o);
                                     ("total", JNum (Z.of_nat (length filteredRequests)))])]
             |} /\
  (length page <= Z.to_nat l)%nat /\
  sublist filteredRequests (mockRequests w) /\
  (forall r, r ∈ filteredRequests ->
     (forall v, q_status q = Some v -> v ≠ EmptyString ->
        obj_get "status" r = Some (JStr v)) /\
     (forall v, q_serviceType q = Some v -> v ≠ EmptyString ->
        obj_get "serviceType" r = Some (JStr v)) /\
     (forall v, q_priority q = Some v -> v ≠ EmptyString ->
        obj_get "priority" r = Some (JStr v))).
Proof.
  intros Hfl Ho Hl Ho0 Hl0 page.
  split; [|split; [|]].
  - rewrite get_list_eq, Hfl. cbn [fst]. unfold paginatedRequests_of.
    rewrite Ho, Hl. simpl nan_add. rewrite (js_slice_page o l _ Ho0 Hl0). done.
  - unfold page. rewrite length_take. lia.
  - unfold filteredRequests_of in Hfl.
    set (l1 := filter_by "status" (q_status q) (mockRequests w)) in *.
    set (l2 := filter_by "serviceType" (q_serviceType q) l1) in *.
    set (l3 := filter_by "priority" (q_priority q) l2) in *.
    destruct (filter_by_spec "status" (q_status q) (mockRequests w)) as [Hs1 Hp1].
    destruct (filter_by_spec "serviceType" (q_serviceType q) l1) as [Hs2 Hp2].
    destruct (filter_by_spec "priority" (q_priority q) l2) as [Hs3 Hp3].
    fold l1 in Hs1, Hp1. fold l2 in Hs2, Hp2. fold l3 in Hs3, Hp3.
    assert (Hs4 : sublist filteredRequests l3).
    { unfold filter_search in Hfl. destruct (q_search q) as [v|]; [|by injection Hfl as <-].
      destruct (String.eqb v EmptyString); [by injection Hfl as <-|].
      by apply filter_throwing_sublist in Hfl as [? _]. }
    split.
    + by repeat (etrans; [eassumption|]).
    + intros r Hr.
      assert (H3 : r ∈ l3) by (by apply (sublist_subseteq _ _ Hs4)).
      assert (H2 : r ∈ l2) by (by apply (sublist_subseteq _ _ Hs3)).
      assert (H1 : r ∈ l1) by (by apply (sublist_subseteq _ _ Hs2)).
      split; [|split]; intros v Hv Hne; eauto.
Qed.

Lemma list_page_witness :
  let w := initial_world None None false 1700000000000 in
  let q := {| q_status := None; q_serviceType := None; q_priority := Some "urgent";
              q_search := None; q_limit := Some "10"; q_offset := None |} in
  exists record,
    fst (router_get_list q w) =
      Returned {| status := 200;
                  body := JObj [("success", JBool true);
                                ("data", JArr [JObj record]);
                                ("pagination",
                                 JObj [("limit", JNum 10); ("offset", JNum 0);
                                       ("total", JNum 1)])] |} /\
    obj_get "request_id" record = Some (JStr "DR-2024-001235").
Proof.
  intros w q. eexists. split.
  - refine (proj1 (list_page q w [_] 0 10 _ eq_refl eq_refl _ _));
      [reflexivity|lia|lia].
  - reflexivity.
Defined.





(** ** The statistics of the requests *)

Lemma status_counts (data : list Obj) :
  let pending := List.filter (fun r => status_is "pending" r || status_is "confirmed" r) data in
  let in_progress := List.filter (status_is "in_progress") data in
  let completed := List.filter (status_is "completed") data in
  let others := List.filter
    (fun r => negb (status_is "pending" r || status_is "confirmed" r
                    || status_is "in_progress" r || status_is "completed" r)) data in
  (length pending + length in_progress + length completed + length others
   = length data)%nat.
Proof.
  induction data as [|r data IH]; [done|]. simpl in *.
  assert (Hex : forall a b, a ≠ b ->
    status_is a r = true -> status_is b r = false).
  { intros a b Hab. unfold status_is. destruct (obj_get "status" r) as [[]|]; try done.
    intros Ha. apply String.eqb_eq in Ha as ->. by apply String.eqb_neq. }
  destruct (status_is "pending" r) eqn:H1.
  { rewrite (Hex "pending" "in_progress"), (Hex "pending" "completed") by done.
    simpl. lia. }
  destruct (status_is "confirmed" r) eqn:H2.
  { rewrite (Hex "confirmed" "in_progress"), (Hex "confirmed" "completed") by done.
    simpl. lia. }
  destruct (status_is "in_progress" r) eqn:H3.
  { rewrite (Hex "in_progress" "completed") by done. simpl. lia. }
  destruct (status_is "completed" r) eqn:H4; simpl; lia.
Qed.

(** X18: [GET /stats] answers 200 with four counts of one list of
    records, the rows of the Supabase table when the query succeeds and
    the mock records otherwise.  [pending] counts the records that are
    [pending] or [confirmed]; the three counts are disjoint, and with the
    records of any other status ([cancelled], or no status) they add up
    to [total]. *)
Theorem stats_route_counts (w : World) :
  exists data : list Obj,
    let pending :=
      length (List.filter (fun r => status_is "pending" r || status_is "confirmed" r) data) in
    let in_progress := length (List.filter (status_is "in_progress") data) in
    let completed := length (List.filter (status_is "completed") data) in
    let others :=
      length (List.filter
                (fun r => negb (status_is "pending" r || status_is "confirmed" r
                                || status_is "in_progress" r || status_is "completed" r))
                data) in
    fst (router_get_stats w) =
      Returned {| status := 200;
                  body := JObj [("success", JBool true);
                                ("data",
                                 JObj [("total", JNum (Z.of_nat (length data)));
                                       ("pending", JNum (Z.of_nat pending));
                                       ("in_progress", JNum (Z.of_nat in_progress));
                                       ("completed", JNum (Z.of_nat completed))])] |} /\
    (pending + in_progress + completed + others = length data)%nat /\
    (supabase w = None -> data = mockRequests w) /\
    (forall db, supabase w = Some db -> online db = false -> data = mockRequests w) /\
    (forall db, supabase w = Some db -> online db = true ->
       length data = length (rows db) /\
       forall s, length (List.filter (status_is s) data)
                 = length (List.filter (status_is s) (rows db))).
Proof.
  rewrite get_stats_answers.
  eexists. cbv zeta. split; [reflexivity|]. split; [apply status_counts|].
  split; [by intros ->|]. split.
  - intros db -> Hoff. unfold pg_select_status. by rewrite Hoff.
  - intros db -> Hon. unfold pg_select_status. rewrite Hon. cbn [negb].
    split; [by rewrite length_map|]. intros s.
    set (column := fun r : Obj => match obj_get "status" r with
                                  | Some v => [("status", v)]
                                  | None => [("status", JNull)]
                                  end).
    induction (rows db) as [|r l IH]; [done|]. cbn [map List.filter].
    assert (Hsame : status_is s (column r) = status_is s r).
    { unfold column, status_is. by destruct (obj_get "status" r) as [[]|]. }
    rewrite Hsame. destruct (status_is s r); simpl; by rewrite IH.
Qed.

Lemma stats_route_counts_witness :
  let w := initial_world None None false 1700000000000 in
  let w' := exec (router_put "DR-2024-001236" [("status", JStr "cancelled")]) w in
  fst (router_get_stats w') =
    Returned (found_ok (JObj [("total", JNum 3); ("pending", JNum 0);
                              ("in_progress", JNum 1); ("completed", JNum 1)])) /\
  exists data, mockRequests w' = data /\ length data = 3%nat.
Proof.
  intros w w'. split; [reflexivity|].
  destruct (stats_route_counts w') as (data & _ & _ & Hmock & _).
  exists data. rewrite (Hmock eq_refl). split; reflexivity.
Defined.

(** * [server.js]: the rate limit *)

Section RateLimit.
Import Server.

Lemma rateLimit_known clientId t rc clientData :
  rc !! clientId = Some clientData -> t <= resetTime clientData ->
  rateLimit clientId t rc =
  (verdict_at (count clientData) (resetTime clientData) 0 t,
   <[clientId := {| count := count clientData + 1; resetTime := resetTime clientData |}]> rc).
Proof.
  intros Hc Ht. unfold rateLimit, verdict_at. rewrite Hc.
  rewrite (proj2 (Z.ltb_ge (resetTime clientData) t)) by lia. cbn [count resetTime Z.of_nat].
  rewrite Z.add_0_r.
  by destruct (MAX_REQUESTS <? count clientData + 1).
Qed.

(** The requests of one window, for an address that the map knows. *)
Lemma serve_window clientId times rc n r :
  rc !! clientId = Some {| count := n; resetTime := r |} ->
  (forall t, t ∈ times -> t <= r) ->
  fst (serve clientId times rc) = imap (verdict_at n r) times /\
  snd (serve clientId times rc)
    = <[clientId := {| count := n + Z.of_nat (length times); resetTime := r |}]> rc.
Proof.
  revert rc n. induction times as [|t times IH]; intros rc n Hc Hts.
  - simpl. split; [done|]. rewrite Z.add_0_r. by rewrite insert_id.
  - simpl. rewrite (rateLimit_known clientId t rc _ Hc) by (apply Hts; left). simpl.
    set (rc1 := <[clientId := {| count := n + 1; resetTime := r |}]> rc).
    assert (Hc1 : rc1 !! clientId = Some {| count := n + 1; resetTime := r |})
      by apply lookup_insert_eq.
    destruct (IH rc1 (n + 1) Hc1 ltac:(intros t0 Ht0; apply Hts; by right)) as [Hv Hm].
    destruct (serve clientId times rc1) as [vs rc2]. simpl in *. split.
    + rewrite Hv. f_equal. apply imap_ext. intros k t0 _. unfold verdict_at. simpl.
      by replace (n + 1 + Z.of_nat k + 1) with (n + Z.of_nat (S k) + 1) by lia.
    + rewrite Hm. unfold rc1. rewrite insert_insert_eq. do 2 f_equal. lia.
Qed.

(** X19: the quota of an address that the map does not know.  Of its
    requests within fifteen minutes of the first one, the first hundred
    are passed on and every later one is answered 429, however many there
    are; the refused requests are counted too.  The entries of the other
    addresses are not touched. *)
Theorem rate_limit_quota (clientId : string) (t0 : Z) (times : list Z)
    (requestCounts : gmap string ClientData) :
  requestCounts !! clientId = None ->
  (forall t, t ∈ times -> t <= t0 + RATE_LIMIT_WINDOW) ->
  let verdicts := fst (serve clientId (t0 :: times) requestCounts) in
  let after := snd (serve clientId (t0 :: times) requestCounts) in
  length verdicts = S (length times) /\
  (forall k v, verdicts !! k = Some v -> (v = Next <-> (k < 100)%nat)) /\
  (forall k t, (100 <= S k)%nat -> times !! k = Some t ->
     verdicts !! S k = Some (TooMany (ceil_seconds (t0 + RATE_LIMIT_WINDOW - t)))) /\
  after !! clientId = Some {| count := 1 + Z.of_nat (length times);
                              resetTime := t0 + RATE_LIMIT_WINDOW |} /\
  (forall other, other ≠ clientId -> after !! other = requestCounts !! other).
Proof.
  intros Hnew Hts verdicts after.
  assert (Hfirst : rateLimit clientId t0 requestCounts =
    (Next, <[clientId := {| count := 1; resetTime := t0 + RATE_LIMIT_WINDOW |}]>
             requestCounts)).
  { unfold rateLimit. by rewrite Hnew. }
  set (rc1 := <[clientId := {| count := 1; resetTime := t0 + RATE_LIMIT_WINDOW |}]>
                requestCounts) in *.
  destruct (serve_window clientId times rc1 1 (t0 + RATE_LIMIT_WINDOW)
              (lookup_insert_eq _ _ _) Hts) as [Hv Hm].
  assert (Hverdicts : verdicts = Next :: imap (verdict_at 1 (t0 + RATE_LIMIT_WINDOW)) times).
  { unfold verdicts. simpl. rewrite Hfirst. fold rc1.
    destruct (serve clientId times rc1) as [vs rc2]. simpl in *. by rewrite Hv. }
  assert (Hafter : after = <[clientId := {| count := 1 + Z.of_nat (length times);
                                            resetTime := t0 + RATE_LIMIT_WINDOW |}]> rc1).
  { unfold after. simpl. rewrite Hfirst. fold rc1.
    destruct (serve clientId times rc1) as [vs rc2]. simpl in *. by rewrite Hm. }
  split; [by rewrite Hverdicts; simpl; rewrite length_imap|].
  split; [|split; [|split]].
  - intros k v. rewrite Hverdicts. destruct k as [|k]; simpl.
    + intros [= <-]. split; [lia|done].
    + rewrite list_lookup_imap. destruct (times !! k) as [t|]; [|done]. simpl.
      intros [= <-]. unfold verdict_at, MAX_REQUESTS.
      destruct (100 <? 1 + Z.of_nat k + 1) eqn:Hk.
      * apply Z.ltb_lt in Hk. split; [done|lia].
      * apply Z.ltb_ge in Hk. split; [lia|done].
  - intros k t Hk Ht. rewrite Hverdicts. simpl. rewrite list_lookup_imap, Ht. simpl.
    unfold verdict_at, MAX_REQUESTS. by rewrite (proj2 (Z.ltb_lt 100 _)) by lia.
  - rewrite Hafter. apply lookup_insert_eq.
  - intros other Hne. rewrite Hafter. unfold rc1. by rewrite !lookup_insert_ne.
Qed.

Lemma rate_limit_quota_witness :
  let times := replicate 120 5 in
  let verdicts := fst (serve "10.0.0.1" (0 :: times) ∅) in
  verdicts !! 99%nat = Some Next /\
  verdicts !! 100%nat = Some (TooMany 900) /\
  (forall k v, verdicts !! k = Some v -> (v = Next <-> (k < 100)%nat)).
Proof.
  intros times verdicts.
  assert (Hts : forall t, t ∈ times -> t <= 0 + RATE_LIMIT_WINDOW).
  { intros t Ht. apply elem_of_replicate in Ht as [-> _]. unfold RATE_LIMIT_WINDOW. lia. }
  split; [vm_compute; reflexivity|]. split; [vm_compute; reflexivity|].
  exact (proj1 (proj2 (rate_limit_quota "10.0.0.1" 0 times ∅ (lookup_empty _) Hts))).
Defined.

(** X20: one request at time [t'], on a map whose entries were made
    at or before [t <= t'].  The request is refused exactly when the
    address has an entry whose window is not over and that already counts
    a hundred requests; the answer then tells to retry after a number of
    seconds between 0 and 900.  A request after the end of the window is
    always passed on and opens a window of fifteen minutes with count 1.
    The entries of the other addresses are not touched, and the map is
    again one whose entries were made at or before [t']. *)
Theorem rate_limit_step (clientId : string) (t t' : Z)
    (requestCounts : gmap string ClientData) :
  counts_ok t requestCounts -> t <= t' ->
  let verdict := fst (rateLimit clientId t' requestCounts) in
  let after := snd (rateLimit clientId t' requestCounts) in
  ((exists retryAfter, verdict = TooMany retryAfter) <->
   exists clientData, requestCounts !! clientId = Some clientData /\
     t' <= resetTime clientData /\ MAX_REQUESTS <= count clientData) /\
  (forall retryAfter, verdict = TooMany retryAfter -> 0 <= retryAfter <= 900) /\
  (forall clientData, requestCounts !! clientId = Some clientData ->
     resetTime clientData < t' ->
     verdict = Next /\
     after !! clientId = Some {| count := 1; resetTime := t' + RATE_LIMIT_WINDOW |}) /\
  (forall other, other ≠ clientId -> after !! other = requestCounts !! other) /\
  counts_ok t' after.
Proof.
  intros Hok Htt verdict after. unfold verdict, after, rateLimit.
  assert (Hgrow : forall cd, 1 <= count cd -> resetTime cd <= t' + RATE_LIMIT_WINDOW ->
                  counts_ok t' (<[clientId := cd]> requestCounts)).
  { intros cd Hc Hr other cd' Hl. destruct (decide (other = clientId)) as [->|Hne].
    - rewrite lookup_insert_eq in Hl. injection Hl as <-. done.
    - rewrite lookup_insert_ne in Hl by done. destruct (Hok other cd' Hl). lia. }
  destruct (requestCounts !! clientId) as [cd|] eqn:Hc.
  - destruct (Hok clientId cd Hc) as [Hreset Hcount].
    destruct (resetTime cd <? t') eqn:Hexp; cbn [count resetTime].
    + apply Z.ltb_lt in Hexp. unfold MAX_REQUESTS. cbn [Z.ltb Z.compare fst snd].
      split; [|split; [|split; [|split]]].
      * split; [by intros [? ?]|]. intros (cd' & [= <-] & Hle & _). lia.
      * done.
      * intros cd' _ _. split; [done|apply lookup_insert_eq].
      * intros other Hne. by apply lookup_insert_ne.
      * apply Hgrow; simpl; lia.
    + apply Z.ltb_ge in Hexp.
      destruct (MAX_REQUESTS <? count cd + 1) eqn:Hmax; cbn [fst snd].
      * apply Z.ltb_lt in Hmax. split; [|split; [|split; [|split]]].
        -- split; [|by eexists]. intros _. exists cd. split; [done|]. split; [done|lia].
        -- intros r [= <-]. unfold ceil_seconds, RATE_LIMIT_WINDOW in *.
           Z.div_mod_to_equations. lia.
        -- intros cd' [= <-] Hlt. lia.
        -- intros other Hne. by apply lookup_insert_ne.
        -- apply Hgrow; simpl; lia.
      * apply Z.ltb_ge in Hmax. split; [|split; [|split; [|split]]].
        -- split; [by intros [? ?]|]. intros (cd' & [= <-] & _ & Hle). lia.
        -- done.
        -- intros cd' [= <-] Hlt. lia.
        -- intros other Hne. by apply lookup_insert_ne.
        -- apply Hgrow; simpl; lia.
  - cbn [fst snd]. split; [|split; [|split; [|split]]].
    + split; [by intros [? ?]|]. by intros (cd' & ? & _).
    + done.
    + done.
    + intros other Hne. by apply lookup_insert_ne.
    + apply Hgrow; simpl; lia.
Qed.

Lemma rate_limit_step_witness :
  let requestCounts := snd (serve "10.0.0.1" (replicate 100 0) ∅) in
  counts_ok 0 requestCounts /\
  fst (rateLimit "10.0.0.1" 450500 requestCounts) = TooMany 450 /\
  fst (rateLimit "10.0.0.1" 900001 requestCounts) = Next /\
  (forall retryAfter,
     fst (rateLimit "10.0.0.1" 450500 requestCounts) = TooMany retryAfter ->
     0 <= retryAfter <= 900).
Proof.
  intros requestCounts.
  assert (Hrc : requestCounts = {["10.0.0.1" := {| count := 100; resetTime := 900000 |}]}).
  { unfold requestCounts.
    pose proof (rate_limit_quota "10.0.0.1" 0 (replicate 99 0) ∅ (lookup_empty _)) as H.
    apply map_eq. intros k. unfold requestCounts.
    assert (Hts : forall t, t ∈ replicate 99 0 -> t <= 0 + RATE_LIMIT_WINDOW).
    { intros t Ht. apply elem_of_replicate in Ht as [-> _]. unfold RATE_LIMIT_WINDOW. lia. }
    destruct (H Hts) as (_ & _ & _ & Hself & Hother).
    change (0 :: replicate 99 0) with (replicate 100 0) in Hself, Hother.
    destruct (decide (k = "10.0.0.1")) as [->|Hne].
    - rewrite Hself, lookup_singleton_eq. rewrite length_replicate. reflexivity.
    - rewrite (Hother k Hne), lookup_empty. by rewrite lookup_singleton_ne. }
  assert (Hok : counts_ok 0 requestCounts).
  { rewrite Hrc. intros k cd Hk. apply lookup_singleton_Some in Hk as [_ <-].
    unfold RATE_LIMIT_WINDOW. simpl. lia. }
  split; [exact Hok|].
  split; [rewrite Hrc; unfold rateLimit; by rewrite lookup_singleton_eq|].
  split; [rewrite Hrc; unfold rateLimit; by rewrite lookup_singleton_eq|].
  exact (proj1 (proj2 (rate_limit_step "10.0.0.1" 0 450500 requestCounts Hok
                         ltac:(lia)))).
Defined.

Lemma rateLimit_own clientId t rc rc' :
  rc !! clientId = rc' !! clientId ->
  fst (rateLimit clientId t rc) = fst (rateLimit clientId t rc') /\
  snd (rateLimit clientId t rc) !! clientId = snd (rateLimit clientId t rc') !! clientId.
Proof.
  intros H. unfold rateLimit. rewrite <- H.
  destruct (rc !! clientId) as [cd|]; [|cbn [fst snd]; by rewrite !lookup_insert_eq].
  destruct (MAX_REQUESTS <? _); cbn [fst snd]; by rewrite !lookup_insert_eq.
Qed.

Lemma rateLimit_other clientId other t rc :
  other ≠ clientId -> snd (rateLimit clientId t rc) !! other = rc !! other.
Proof.
  intros H. unfold rateLimit.
  destruct (rc !! clientId) as [cd|]; [|cbn [snd]; by apply lookup_insert_ne].
  destruct (MAX_REQUESTS <? _); cbn [snd]; by apply lookup_insert_ne.
Qed.

Lemma rateLimit_dom clientId t rc :
  dom (snd (rateLimit clientId t rc)) = {[clientId]} ∪ dom rc.
Proof.
  unfold rateLimit.
  destruct (rc !! clientId) as [cd|]; [|cbn [snd]; by apply dom_insert_L].
  destruct (MAX_REQUESTS <? _); cbn [snd]; by apply dom_insert_L.
Qed.

Lemma serve_all_own clientId requests : forall rc rc',
  rc !! clientId = rc' !! clientId ->
  of_address clientId requests (fst (serve_all requests rc))
  = fst (serve clientId (of_address clientId requests requests.*2) rc') /\
  snd (serve_all requests rc) !! clientId
  = snd (serve clientId (of_address clientId requests requests.*2) rc') !! clientId.
Proof.
  induction requests as [|[a t] requests IH]; intros rc rc' H; [done|].
  cbn [serve_all fmap list_fmap of_address snd].
  destruct (rateLimit a t rc) as [v rc1] eqn:E1.
  destruct (serve_all requests rc1) as [vs rc2] eqn:E2.
  cbn [of_address fst snd]. case_bool_decide as Ha.
  - subst a. cbn [serve].
    destruct (rateLimit clientId t rc') as [v' rc1'] eqn:E1'.
    destruct (rateLimit_own clientId t rc rc' H) as [Hv Hl].
    rewrite E1, E1' in Hv, Hl. cbn [fst snd] in Hv, Hl. subst v'.
    destruct (IH rc1 rc1' Hl) as [IH1 IH2]. rewrite E2 in IH1, IH2.
    cbn [fst snd] in IH1, IH2.
    destruct (serve clientId _ rc1') as [vs' rc2']. cbn [fst snd] in *.
    by rewrite IH1.
  - assert (Hl : rc1 !! clientId = rc' !! clientId).
    { rewrite <- H. replace rc1 with (snd (rateLimit a t rc)) by by rewrite E1.
      by apply rateLimit_other. }
    destruct (IH rc1 rc' Hl) as [IH1 IH2]. by rewrite E2 in IH1, IH2.
Qed.

Lemma serve_all_dom requests : forall rc,
  dom (snd (serve_all requests rc)) = list_to_set requests.*1 ∪ dom rc.
Proof.
  induction requests as [|[a t] requests IH]; intros rc.
  { cbn. set_solver. }
  cbn [serve_all fmap list_fmap list_to_set fst].
  pose proof (rateLimit_dom a t rc) as Hd.
  destruct (rateLimit a t rc) as [v rc1]. specialize (IH rc1).
  destruct (serve_all requests rc1) as [vs rc2]. cbn [snd] in *.
  rewrite IH, Hd. set_solver.
Qed.

(** X21: the addresses do not disturb each other.  In a run of the
    middleware over requests of any addresses, the verdicts of the
    requests of one address, and its entry at the end, are those of the
    run of its requests alone; every request gets a verdict; and the map
    ends with an entry for every address that made a request, beside
    the entries it had: the middleware removes none. *)
Theorem rate_limit_isolation (clientId : string) (requests : list (string * Z))
    (requestCounts : gmap string ClientData) :
  let alone := serve clientId (of_address clientId requests requests.*2) requestCounts in
  of_address clientId requests (fst (serve_all requests requestCounts)) = fst alone /\
  snd (serve_all requests requestCounts) !! clientId = snd alone !! clientId /\
  length (fst (serve_all requests requestCounts)) = length requests /\
  dom (snd (serve_all requests requestCounts)) = list_to_set requests.*1 ∪ dom requestCounts.
Proof.
  intros alone. destruct (serve_all_own clientId requests requestCounts requestCounts eq_refl)
    as [H1 H2].
  split; [exact H1|]. split; [exact H2|]. split; [|apply serve_all_dom].
  clear. revert requestCounts. induction requests as [|[a t] requests IH]; intros rc; [done|].
  cbn [serve_all]. destruct (rateLimit a t rc) as [v rc1]. specialize (IH rc1).
  destruct (serve_all requests rc1) as [vs rc2]. cbn [fst length] in *. by rewrite IH.
Qed.

End RateLimit.

(** ** The identifiers of the requests *)

Lemma str_cons_app (x : ascii) (a b : string) : String x a +:+ b = String x (a +:+ b).
Proof. reflexivity. Qed.

Lemma str_app_assoc (a b c : string) : (a +:+ b) +:+ c = a +:+ (b +:+ c).
Proof. induction a as [|x a IH]; [done|]. rewrite !str_cons_app. by f_equal. Qed.

Lemma str_app_nil_r (a : string) : a +:+ EmptyString = a.
Proof. induction a as [|x a IH]; [done|]. rewrite str_cons_app. by f_equal. Qed.

Lemma str_length_app (a b : string) :
  String.length (a +:+ b) = (String.length a + String.length b)%nat.
Proof. induction a as [|x a IH]; [done|]. rewrite str_cons_app. simpl. by f_equal. Qed.

Lemma matches_length p s : matches p s = true -> String.length s = length p.
Proof.
  revert s. induction p as [|[a|] p IH]; intros [|c s] H; simpl in *; try done.
  - apply andb_true_iff in H as [_ H]. by rewrite (IH s H).
  - apply andb_true_iff in H as [_ H]. by rewrite (IH s H).
Qed.

Lemma zeros_S k s : zeros (S k) +:+ s = String "0" (zeros k +:+ s).
Proof. unfold zeros. destruct k as [|k]; reflexivity. Qed.

Lemma zeros_digits k : matches (replicate k None) (zeros k) = true.
Proof.
  induction k as [|k IH]; [done|].
  rewrite <- (str_app_nil_r (zeros (S k))), zeros_S, str_app_nil_r. exact IH.
Qed.

Lemma zeros_number k s : number_of 0 (zeros k +:+ s) = number_of 0 s.
Proof. induction k as [|k IH]; [done|]. rewrite zeros_S. exact IH. Qed.

Lemma is_digit_pretty_N_char n : is_digit (pretty_N_char n) = true.
Proof. unfold pretty_N_char. by repeat case_match. Qed.

Lemma value_pretty_N_char n :
  (n < 10)%N -> Z.of_N (N_of_ascii (pretty_N_char n) - 48) = Z.of_N n.
Proof.
  intros H. destruct n as [|p]; [done|].
  do 4 (destruct p as [p|p|]; try done); lia.
Qed.

Lemma pretty_N_go_app x : forall s, pretty_N_go x s = pretty_N_go x EmptyString +:+ s.
Proof.
  induction (N.lt_wf_0 x) as [x _ IH]. intros s.
  destruct (decide (x = 0%N)) as [->|Hx]; [done|].
  rewrite !(pretty_N_go_step x) by lia.
  rewrite (IH (x `div` 10)%N) by (apply N.div_lt; lia).
  rewrite (IH (x `div` 10)%N ltac:(apply N.div_lt; lia) (String _ EmptyString)).
  by rewrite str_app_assoc.
Qed.

Lemma pretty_N_go_snoc x :
  (0 < x)%N ->
  pretty_N_go x EmptyString
  = pretty_N_go (x `div` 10) EmptyString +:+ String (pretty_N_char (x `mod` 10)) EmptyString.
Proof. intros Hx. rewrite pretty_N_go_step by done. apply pretty_N_go_app. Qed.

Lemma pretty_N_go_digits x :
  matches (replicate (String.length (pretty_N_go x EmptyString)) None)
          (pretty_N_go x EmptyString) = true.
Proof.
  induction (N.lt_wf_0 x) as [x _ IH].
  destruct (decide (x = 0%N)) as [->|Hx]; [done|].
  rewrite pretty_N_go_snoc by lia. rewrite str_length_app, replicate_add.
  apply matches_app; [apply IH, N.div_lt; lia|].
  simpl. by rewrite is_digit_pretty_N_char.
Qed.

Lemma pretty_N_go_short (k : nat) : forall x,
  (x < 10 ^ N.of_nat k)%N -> (String.length (pretty_N_go x EmptyString) <= k)%nat.
Proof.
  induction k as [|k IH]; intros x Hx.
  - assert (x = 0%N) as -> by (simpl in Hx; lia). simpl. lia.
  - destruct (decide (x = 0%N)) as [->|H0]; [simpl; lia|].
    rewrite pretty_N_go_snoc, str_length_app by lia. simpl.
    assert (x `div` 10 < 10 ^ N.of_nat k)%N.
    { apply N.Div0.div_lt_upper_bound.
      rewrite Nat2N.inj_succ, N.pow_succ_r' in Hx. lia. }
    specialize (IH _ H). lia.
Qed.

Lemma pretty_N_go_long (k : nat) : forall x,
  (10 ^ N.of_nat k <= x)%N -> (k < String.length (pretty_N_go x EmptyString))%nat.
Proof.
  induction k as [|k IH]; intros x Hx.
  - rewrite pretty_N_go_snoc, str_length_app by (simpl in Hx; lia). simpl. lia.
  - rewrite Nat2N.inj_succ, N.pow_succ_r' in Hx.
    assert (0 < 10 ^ N.of_nat k)%N by (apply N.neq_0_lt_0, N.pow_nonzero; lia).
    rewrite pretty_N_go_snoc, str_length_app by lia. simpl.
    assert (10 ^ N.of_nat k <= x `div` 10)%N by (apply N.div_le_lower_bound; lia).
    specialize (IH _ H0). lia.
Qed.

Lemma pretty_N_go_number x : forall acc s,
  number_of acc (pretty_N_go x EmptyString +:+ s)
  = number_of (acc * 10 ^ Z.of_nat (String.length (pretty_N_go x EmptyString)) + Z.of_N x) s.
Proof.
  induction (N.lt_wf_0 x) as [x _ IH]. intros acc s.
  destruct (decide (x = 0%N)) as [->|Hx].
  { simpl. f_equal. lia. }
  rewrite pretty_N_go_snoc by lia. rewrite str_app_assoc, str_length_app.
  rewrite IH by (apply N.div_lt; lia).
  simpl. rewrite is_digit_pretty_N_char, value_pretty_N_char by (apply N.mod_lt; lia).
  f_equal. rewrite Nat2Z.inj_add, Z.pow_add_r by lia.
  change (10 ^ Z.of_nat 1) with 10.
  pose proof (N.div_mod x 10 ltac:(lia)). lia.
Qed.

(** The decimal digits of a natural number below a million, padded. *)
Lemma padded_random rnd :
  0 <= rnd < 1000000 ->
  matches (replicate 6 None) (padStart0 6 (pretty rnd)) = true /\
  number_of 0 (padStart0 6 (pretty rnd)) = Some rnd.
Proof.
  intros Hr. unfold padStart0. fold (zeros (6 - String.length (pretty rnd))).
  destruct rnd as [|p|p]; [done| |lia].
  change (pretty (Z.pos p)) with (pretty_N_go (N.pos p) EmptyString).
  set (d := pretty_N_go (N.pos p) EmptyString).
  assert (Hlen : (String.length d <= 6)%nat).
  { apply (pretty_N_go_short 6). simpl. lia. }
  split.
  - replace 6%nat with ((6 - String.length d) + String.length d)%nat at 1 by lia.
    rewrite replicate_add. apply matches_app; [apply zeros_digits|apply pretty_N_go_digits].
  - rewrite zeros_number. rewrite <- (str_app_nil_r d). unfold d.
    rewrite pretty_N_go_number. simpl. f_equal.
Qed.

(** X22: the identifiers of [generateRequestId], in a year of four
    digits.  An identifier has the shape [DR-YYYY-NNNNNN], fourteen
    characters; its last six characters are the decimal digits of the
    random draw, so two identifiers of one year are equal only when
    the draws are. *)
Theorem generateRequestId_format (t rnd : Z) :
  1000 <= (civil_from_days (t / 86400000)).1.1 <= 9999 ->
  0 <= rnd < 1000000 ->
  matches request_id_pattern (generateRequestId t rnd) = true /\
  String.length (generateRequestId t rnd) = 14%nat /\
  number_of 0 (String.substring 8 6 (generateRequestId t rnd)) = Some rnd /\
  (forall rnd', 0 <= rnd' < 1000000 ->
     generateRequestId t rnd = generateRequestId t rnd' -> rnd = rnd').
Proof.
  intros Hy Hr. unfold generateRequestId.
  destruct (civil_from_days (t / 86400000)) as [[year m] d]. cbn [fst] in Hy.
  destruct (padded_random rnd Hr) as [Hm Hn].
  assert (HY : matches (replicate 4 None) (pretty year) = true).
  { destruct year as [|p|p]; [lia| |lia].
    change (pretty (Z.pos p)) with (pretty_N_go (N.pos p) EmptyString).
    pose proof (pretty_N_go_short 4 (N.pos p) ltac:(simpl; lia)).
    pose proof (pretty_N_go_long 3 (N.pos p) ltac:(simpl; lia)).
    pose proof (pretty_N_go_digits (N.pos p)) as Hd.
    by replace (String.length (pretty_N_go (N.pos p) EmptyString)) with 4%nat in Hd by lia. }
  assert (Hshape : matches request_id_pattern
                     ("DR-" +:+ pretty year +:+ "-" +:+ padStart0 6 (pretty rnd)) = true).
  { unfold request_id_pattern. apply matches_app; [done|].
    apply matches_app; [done|]. by apply matches_app. }
  split; [exact Hshape|]. split; [by rewrite (matches_length _ _ Hshape)|].
  split.
  - pose proof (matches_length _ _ HY) as Hl.
    destruct (pretty year) as [|a [|b [|c [|e [|? ?]]]]]; try done.
    pose proof (matches_length _ _ Hm) as Hl6.
    destruct (padStart0 6 (pretty rnd)) as [|r1 [|r2 [|r3 [|r4 [|r5 [|r6 [|? ?]]]]]]]; try done.
  - intros rnd' Hr' Heq. destruct (padded_random rnd' Hr') as [_ Hn'].
    apply (inj (String.app "DR-")), (inj (String.app (pretty year))),
      (inj (String.app "-")) in Heq.
    rewrite Heq, Hn' in Hn. by injection Hn.
Qed.

Lemma generateRequestId_format_witness :
  generateRequestId 1700000000000 42 = "DR-2023-000042" /\
  matches request_id_pattern (generateRequestId 1700000000000 42) = true.
Proof.
  split; [reflexivity|].
  refine (proj1 (generateRequestId_format 1700000000000 42 _ _)); [vm_compute|lia].
  split; discriminate.
Defined.
